(** * Thirty-One (31-CardGame-Phaser): rules engine and opponent heuristics

    A shallow embedding of the game logic found in
    [src/custom/buttons/index.js] (ButtonManager, DeckManager, UIManager),
    [src/custom/discardpile/index.js], [src/custom/gameflow/index.js],
    [src/custom/game/index.js], [src/custom/sorting/index.js] and
    [src/custom/scenes/GameOrchestrator.js].

    Sprites are records carrying their [cardData] and [depth]; a Phaser
    container is the list of its children in insertion order; JavaScript
    objects used as dictionaries are association lists in insertion order
    (the order [Object.keys] and [for ... in] enumerate string keys).
    Tweens and [delayedCall] timers are callbacks stored in a queue of
    pending tasks, each with the delay left until it fires. *)

From Stdlib Require Import List ZArith QArith Qround Bool Lia Arith.
From Stdlib Require Import Qpower Sorted Permutation.
Import ListNotations.
Local Open Scope Z_scope.

Set Implicit Arguments.

(** ** JavaScript objects used as dictionaries *)

Section JsObject.
Variables K V : Type.
Variable eqb : K -> K -> bool.

Definition JsObject := list (K * V).

(** [o[k]], [None] standing for [undefined]. *)
Fixpoint obj_get (k : K) (o : JsObject) : option V :=
  match o with
  | [] => None
  | (k', v) :: r => if eqb k k' then Some v else obj_get k r
  end.

(** [o[k] = v]: an existing key keeps its place, a new key goes last. *)
Fixpoint obj_set (k : K) (v : V) (o : JsObject) : JsObject :=
  match o with
  | [] => [(k, v)]
  | (k', v') :: r =>
      if eqb k k' then (k, v) :: r else (k', v') :: obj_set k v r
  end.

Definition obj_keys (o : JsObject) : list K := map fst o.
Definition obj_values (o : JsObject) : list V := map snd o.
End JsObject.

(** ** [Array.prototype.sort] with a comparator: a stable insertion sort.
  [before a b] is [compare(a, b) <= 0]. *)

Section JsSort.
Variable A : Type.
Variable before : A -> A -> bool.

Fixpoint sort_insert (x : A) (l : list A) : list A :=
  match l with
  | [] => [x]
  | y :: r => if before x y then x :: y :: r else y :: sort_insert x r
  end.

Definition js_sort (l : list A) : list A := fold_right sort_insert [] l.
End JsSort.

(** ** Cards *)

(** [DeckManager.suits], in the order of the constructor. *)
Inductive Suit := Clubs | Diamonds | Hearts | Spades.

(** [DeckManager.ranks]. *)
Inductive Rank :=
  R2 | R3 | R4 | R5 | R6 | R7 | R8 | R9 | R10 | RJ | RQ | RK | RA.

Record Card := { suit : Suit; rank : Rank }.

(** A card image: the sprite of the source with the two fields the game
    logic reads. *)
Record Sprite := { cardData : Card; depth : Z }.

(** The suit symbols that key [pointsBySuit]. *)
Inductive Symbol := sym_hearts | sym_diamonds | sym_clubs | sym_spades.

Definition Suit_eqb (a b : Suit) : bool :=
  match a, b with
  | Clubs, Clubs | Diamonds, Diamonds | Hearts, Hearts | Spades, Spades => true
  | _, _ => false
  end.

Definition Symbol_eqb (a b : Symbol) : bool :=
  match a, b with
  | sym_hearts, sym_hearts | sym_diamonds, sym_diamonds
  | sym_clubs, sym_clubs | sym_spades, sym_spades => true
  | _, _ => false
  end.

Definition Rank_eqb (a b : Rank) : bool :=
  match a, b with
  | R2, R2 | R3, R3 | R4, R4 | R5, R5 | R6, R6 | R7, R7 | R8, R8 | R9, R9
  | R10, R10 | RJ, RJ | RQ, RQ | RK, RK | RA, RA => true
  | _, _ => false
  end.

Definition Card_eqb (a b : Card) : bool :=
  Suit_eqb (suit a) (suit b) && Rank_eqb (rank a) (rank b).

(** Object identity of card images: the deck holds one image per card. *)
Definition same_card (a b : Sprite) : bool := Card_eqb (cardData a) (cardData b).

Definition mkCard (r : Rank) (s : Suit) : Card := {| suit := s; rank := r |}.

(** ** DeckManager *)

Definition suits : list Suit := [Clubs; Diamonds; Hearts; Spades].
Definition ranks : list Rank :=
  [R2; R3; R4; R5; R6; R7; R8; R9; R10; RJ; RQ; RK; RA].

(** [DeckManager.rankOrder]. *)
Definition rankOrder (r : Rank) : Z :=
  match r with
  | R2 => 2 | R3 => 3 | R4 => 4 | R5 => 5 | R6 => 6 | R7 => 7 | R8 => 8
  | R9 => 9 | R10 => 10 | RJ => 10 | RQ => 10 | RK => 10 | RA => 11
  end.

(** [getCardValue]: the guards against a missing card or rank never fire on
    a typed card. *)
Definition getCardValue (card : Sprite) : Z := rankOrder (rank (cardData card)).

(** [getSuitSymbol(suit).symbol]. *)
Definition getSuitSymbol (s : Suit) : Symbol :=
  match s with
  | Hearts => sym_hearts | Diamonds => sym_diamonds
  | Clubs => sym_clubs | Spades => sym_spades
  end.

(** [GameOrchestrator.getSuitNameFromSymbol]; [None] is [undefined]. *)
Definition getSuitNameFromSymbol (symbol : option Symbol) : option Suit :=
  match symbol with
  | Some sym_hearts => Some Hearts
  | Some sym_diamonds => Some Diamonds
  | Some sym_clubs => Some Clubs
  | Some sym_spades => Some Spades
  | None => None
  end.

(** The 52 cards of [createDeck] before [Phaser.Utils.Array.Shuffle]. *)
Definition newDeck : list Card :=
  flat_map (fun s => map (fun r => mkCard r s) ranks) suits.

(** The card images of [createDeck] for a shuffled deck: image [i] gets
    depth [i]. *)
Fixpoint createDeck_from (i : Z) (deck : list Card) : list Sprite :=
  match deck with
  | [] => []
  | c :: r => {| cardData := c; depth := i |} :: createDeck_from (i + 1) r
  end.

Definition createDeck (deck : list Card) : list Sprite := createDeck_from 0 deck.

Record Points := {
  maxPoints : Z;
  pointsBySuit : JsObject Symbol Z
}.

Definition points_step (acc : JsObject Symbol Z) (cardSprite : Sprite)
  : JsObject Symbol Z :=
  let card := cardData cardSprite in
  let suitSymbol := getSuitSymbol (suit card) in
  let acc :=
    match obj_get Symbol_eqb suitSymbol acc with
    | None | Some 0 => obj_set Symbol_eqb suitSymbol 0 acc
    | Some _ => acc
    end in
  match obj_get Symbol_eqb suitSymbol acc with
  | Some p => obj_set Symbol_eqb suitSymbol (p + rankOrder (rank card)) acc
  | None => acc
  end.

(** [Math.max(...points)] on a non-empty list. *)
Definition math_max (points : list Z) : Z :=
  match points with
  | [] => 0
  | p :: r => fold_left Z.max r p
  end.

(** [calculatePoints]; the display text is the rendering of [pointsBySuit]
    entry by entry and is left out. *)
Definition calculatePoints (cards : list Sprite) : Points :=
  match cards with
  | [] => {| maxPoints := 0; pointsBySuit := [] |}
  | _ =>
      let bySuit := fold_left points_step cards [] in
      {| maxPoints := math_max (obj_values bySuit); pointsBySuit := bySuit |}
  end.

(** ** Opponent heuristics (GameOrchestrator) *)

(** [value < lowestValue], where [None] is [Infinity]. *)
Definition below (value : Z) (lowestValue : option Z) : bool :=
  match lowestValue with
  | None => true
  | Some l => value <? l
  end.

Definition Entry := (Sprite * Z)%type.

Definition group_step
  (acc : JsObject Suit (list Entry) * JsObject Suit Z) (card : Sprite)
  : JsObject Suit (list Entry) * JsObject Suit Z :=
  let '(suitCards, suitPoints) := acc in
  let s := suit (cardData card) in
  let value := getCardValue card in
  let suitCards :=
    match obj_get Suit_eqb s suitCards with
    | None => obj_set Suit_eqb s [] suitCards
    | Some _ => suitCards
    end in
  let suitCards :=
    match obj_get Suit_eqb s suitCards with
    | Some entries => obj_set Suit_eqb s (entries ++ [(card, value)]) suitCards
    | None => suitCards
    end in
  let old :=
    match obj_get Suit_eqb s suitPoints with
    | None | Some 0 => 0
    | Some p => p
    end in
  (suitCards, obj_set Suit_eqb s (old + value) suitPoints).

Definition strongest_step (acc : option Suit * Z) (e : Suit * Z)
  : option Suit * Z :=
  let '(strongestSuit, highestPoints) := acc in
  if snd e >? highestPoints then (Some (fst e), snd e) else acc.

Definition lowest_step (acc : option Sprite * option Z) (e : Entry)
  : option Sprite * option Z :=
  let '(worstCard, lowestValue) := acc in
  if below (snd e) lowestValue then (Some (fst e), Some (snd e)) else acc.

(** [suit !== strongestSuit], [None] being [null]. *)
Definition suit_differs (s : Suit) (strongestSuit : option Suit) : bool :=
  match strongestSuit with
  | None => true
  | Some t => negb (Suit_eqb s t)
  end.

Definition others_step (strongestSuit : option Suit)
  (acc : option Sprite * option Z) (e : Suit * list Entry)
  : option Sprite * option Z :=
  if suit_differs (fst e) strongestSuit
  then fold_left lowest_step (snd e) acc
  else acc.

Definition entry_before (a b : Entry) : bool := snd a - snd b <=? 0.

(** The two dictionaries that the first loop of
    [findWorstCardConsideringSuits] builds: [suitCards] and [suitPoints]. *)
Definition suitGroups (cards : list Sprite)
  : JsObject Suit (list Entry) * JsObject Suit Z :=
  fold_left group_step cards ([], []).

(** Its [strongestSuit], [None] being [null]. *)
Definition strongestSuit_in (suitPoints : JsObject Suit Z) : option Suit :=
  fst (fold_left strongest_step suitPoints (None, 0)).

Definition strongestSuit (cards : list Sprite) : option Suit :=
  strongestSuit_in (snd (suitGroups cards)).

Definition findWorstCardConsideringSuits (cards : list Sprite) : option Sprite :=
  if (length cards <=? 3)%nat then None else
  let '(suitCards, suitPoints) := suitGroups cards in
  let strongestSuit := strongestSuit_in suitPoints in
  let '(worstCard, lowestValue) :=
    fold_left (others_step strongestSuit) suitCards (None, None) in
  let worstCard :=
    match worstCard, strongestSuit with
    | None, Some s =>
        match obj_get Suit_eqb s suitCards with
        | Some entries =>
            match js_sort entry_before entries with
            | e :: _ => Some (fst e)
            | [] => None
            end
        | None => None
        end
    | _, _ => worstCard
    end in
  match worstCard with
  | Some c => Some c
  | None =>
      fst (fold_left
             (fun acc card => lowest_step acc (card, getCardValue card))
             cards (None, lowestValue))
  end.

(** [DeckManager.findWorstCard] (not called by the orchestrator). *)
Definition findWorstCard (cards : list Sprite) : option Sprite :=
  match cards with
  | [] => None
  | first :: _ =>
      if (length cards <=? 3)%nat then None else
      Some (fst (fold_left
              (fun acc card =>
                 if getCardValue card <? snd acc
                 then (card, getCardValue card) else acc)
              cards (first, getCardValue first)))
  end.

(** Small helpers to write hands. *)
Definition sprite (r : Rank) (s : Suit) (d : Z) : Sprite :=
  {| cardData := mkCard r s; depth := d |}.

(** ** [Math.random]

    The source calls the global [Math.random()]: the values it returns are
    the ambient stream [random], and a scene counts the calls that the code
    of the game has made so far ([randomCalls]): those of the opponent's
    decisions and the one of each [createButton].  The stream also stands for the shuffles: [shuffled n]
    is the deck order that [Phaser.Utils.Array.Shuffle] produces for the
    [n]-th session. *)

Record Ambient := {
  random : nat -> Q;
  shuffled : nat -> list Card
}.

(** [x > y] on numbers read from the stream. *)
Definition Qgtb (x y : Q) : bool := negb (Qle_bool x y).

(** [o[k]] used as a condition: defined and not zero. *)
Definition truthy (v : option Z) : bool :=
  match v with
  | None | Some 0 => false
  | Some _ => true
  end.

Definition or_zero (v : option Z) : Z :=
  match v with
  | None => 0
  | Some p => p
  end.

(** [suitCounts] of [executePlayer2Turn] ([suitTotals], built next to it, is
    never read). *)
Definition count_step (suitCounts : JsObject Suit Z) (card : Sprite)
  : JsObject Suit Z :=
  let s := suit (cardData card) in
  obj_set Suit_eqb s (or_zero (obj_get Suit_eqb s suitCounts) + 1) suitCounts.

(** [pointsBySuit[a] > pointsBySuit[b]]; a comparison with [undefined] is
    false. *)
Definition points_gt (pointsBySuit : JsObject Symbol Z) (a : option Symbol)
  (b : Symbol) : bool :=
  match a with
  | Some a =>
      match obj_get Symbol_eqb a pointsBySuit, obj_get Symbol_eqb b pointsBySuit with
      | Some x, Some y => x >? y
      | _, _ => false
      end
  | None => false
  end.

(** [Object.keys(pointsBySuit).reduce((a, b) => ..., Object.keys(pointsBySuit)[0])]. *)
Definition strongestSuit_of (pointsBySuit : JsObject Symbol Z) : option Symbol :=
  let keys := obj_keys pointsBySuit in
  fold_left (fun a b => if points_gt pointsBySuit a b then a else Some b)
            keys (hd_error keys).

Definition option_Suit_eqb (a : Suit) (b : option Suit) : bool :=
  match b with
  | Some b => Suit_eqb a b
  | None => false
  end.

(** *** Arithmetic on Numbers

    A JavaScript Number is an IEEE 754 double, written here as the rational
    it denotes.  A decimal literal denotes the double nearest to it, and the
    result of an operation is the exact result rounded to the nearest
    double, to the one with an even significand at a tie; a comparison is
    exact.  The numbers below are far from the overflow threshold. *)

(** The largest [e] with [2 ^ e <= q], for [q > 0]. *)
Definition ilog2 (q : Q) : Z :=
  let e := Z.log2 (Qnum q) - Z.log2 (Zpos (Qden q)) in
  if Qle_bool (2 ^ e) q then e else e - 1.

(** The integer nearest to [q], the even one of the two at a tie. *)
Definition round_half_even (q : Q) : Z :=
  let f := Qfloor q in
  match (q - inject_Z f ?= 1 # 2)%Q with
  | Lt => f
  | Eq => if Z.even f then f else f + 1
  | Gt => f + 1
  end.

(** The double nearest to [q > 0]: 53 significant bits, the exponent of a
    normal number at least -1022, subnormal numbers below. *)
Definition binary64_pos (q : Q) : Q :=
  let e := Z.max (ilog2 q) (-1022) in
  let ulp := (2 ^ (e - 52))%Q in
  (inject_Z (round_half_even (q / ulp)) * ulp)%Q.

Definition binary64 (q : Q) : Q :=
  match Qnum q with
  | 0 => 0%Q
  | Zpos _ => binary64_pos q
  | Zneg _ => (- binary64_pos (- q))%Q
  end.

Arguments binary64 : simpl never.

(** [x * y] on Numbers. *)
Definition number_mul (x y : Q) : Q := binary64 (x * y).

(** The draw step of [executePlayer2Turn] up to [drawFromDiscard]: the card
    it inspects is [discardPileContainer.list[0]].  Returns the decision and
    the number of [Math.random] calls made so far. *)
Definition drawFromDiscard (env : Ambient) (calls : nat)
  (pointsBySuit : JsObject Symbol Z) (player2Cards pile : list Sprite)
  : bool * nat :=
  match pile with
  | [] => (false, calls)
  | topDiscardCard :: _ =>
      let discardCardValue := getCardValue topDiscardCard in
      let discardCardSuit := suit (cardData topDiscardCard) in
      let suitCounts := fold_left count_step player2Cards [] in
      let strongestSuit := strongestSuit_of pointsBySuit in
      let strongestSuitName := getSuitNameFromSymbol strongestSuit in
      if option_Suit_eqb discardCardSuit strongestSuitName then (true, calls)
      else if (discardCardValue >=? 10)
              && truthy (obj_get Suit_eqb discardCardSuit suitCounts)
      then (true, calls)
      else if discardCardValue =? 11
      then (Qgtb (random env calls) (binary64 (2 # 10)), S calls)
      else (false, calls)
  end.

(** The knock decision of [executePlayer2Turn]. *)
Definition shouldKnock (env : Ambient) (calls : nat)
  (newPoints estimatedPlayer1Points : Z) : bool * nat :=
  let knockThreshold := 20 + Qfloor (number_mul (random env calls) 5) in
  let calls := S calls in
  let pointDifference := newPoints - estimatedPlayer1Points in
  let hasGoodChanceToWin := pointDifference >? 0 in
  if (newPoints >=? 31) || (newPoints >=? 27)
     || ((newPoints >=? knockThreshold) && hasGoodChanceToWin)
  then (true, calls)
  else if newPoints >=? 25
  then (Qgtb (random env calls) (binary64 (7 # 10)), S calls)
  else (false, calls).

(** ** GameManager *)

Record GameState := {
  animationComplete : bool;
  cardsInteractable : bool;
  hasDrawnCard : bool;
  hasDiscardedCard : bool;
  mustDiscard : bool;
  knockButtonPressed : bool;
  isAnimating : bool;
  isPlayerTurn : bool
}.

(** The state of the constructor and of [resetFlags]. *)
Definition initialGameState : GameState := {|
  animationComplete := false;
  cardsInteractable := false;
  hasDrawnCard := false;
  hasDiscardedCard := false;
  mustDiscard := false;
  knockButtonPressed := false;
  isAnimating := false;
  isPlayerTurn := true
|}.

(** The flag names passed to [updateGameState]; each is a key of
    [gameState], so the [flag in this.gameState] test holds. *)
Inductive Flag :=
| f_animationComplete | f_cardsInteractable | f_hasDrawnCard
| f_hasDiscardedCard | f_mustDiscard | f_knockButtonPressed
| f_isAnimating | f_isPlayerTurn.

Definition updateGameState (flag : Flag) (value : bool) (g : GameState)
  : GameState :=
  match g with
  | Build_GameState a c d e m k i t =>
      match flag with
      | f_animationComplete => Build_GameState value c d e m k i t
      | f_cardsInteractable => Build_GameState a value d e m k i t
      | f_hasDrawnCard => Build_GameState a c value e m k i t
      | f_hasDiscardedCard => Build_GameState a c d value m k i t
      | f_mustDiscard => Build_GameState a c d e value k i t
      | f_knockButtonPressed => Build_GameState a c d e m value i t
      | f_isAnimating => Build_GameState a c d e m k value t
      | f_isPlayerTurn => Build_GameState a c d e m k i value
      end
  end.

(** The text of [checkWinner]. *)
Inductive Result := Player1Wins | Player2Wins | GameIsDraw.

Definition checkWinner_text (player1Points player2Points : Z) : Result :=
  if player1Points >? player2Points then Player1Wins
  else if player2Points >? player1Points then Player2Wins
  else GameIsDraw.

(** ** The scene *)

(** Which player container a call is about
    ([playerContainer === this.scene.player1Container]). *)
Inductive Player := Player1 | Player2.

(** Which manager a draw goes through ([sourceManager.constructor.name]). *)
Inductive Source := FromDeck | FromDiscardPile.

Definition is_player1 (p : Player) : bool :=
  match p with Player1 => true | Player2 => false end.

(** The callbacks handed to tweens and to [time.delayedCall], one
    constructor per closure of the source, with the values it captures. *)
Inductive Task :=
| InitializeGameDeal                       (* initializeGame, after 1500 *)
| InitializeGameFlags                      (* initializeGame, 3000 later *)
| DealCardDone (sortedDeck : list Sprite) (cardIndex : nat)
| MoveToDiscardPileDone (card : Sprite)    (* DiscardPileManager.moveCardToDiscardPile *)
| DealCardsDone                            (* GameFlowManager.dealCards, after 1000 *)
| DrawDone (source : Source) (player : Player) (topCard : Sprite)
| DiscardDone (player : Player) (card : Sprite)
| DiscardUnlock (player : Player)          (* GameFlowManager.discardCard, after 500 *)
| EndTurnTextFade                          (* end-turn callback, after 1500 *)
| ExecutePlayer2Turn
| Player2Draw (pointsBySuit : JsObject Symbol Z)
| Player2Discard
| Player2FlipDone (card : Sprite)          (* discardCardFromPlayer2 *)
| Player2Knock
| KnockTextFade
| KnockTextDone
| StartPlayer1Turn
| TurnTextFade
| TurnTextDone
| FlipPlayer2Done                          (* flipPlayerCards, last tween *)
| RearrangeDone (sortedCards : list Sprite)
| RestartGame.                             (* GameManager.restartGame, after 500 *)

Record Scene := {
  gameState : GameState;
  player1Points : Z;
  player2Points : Z;
  deckContainer : list Sprite;
  player1Container : list Sprite;
  player2Container : list Sprite;
  discardPileContainer : list Sprite;
  knockButtonInteractive : bool;
  endTurnButtonInteractive : bool;
  restartButton : bool;
  resultText : option Result;
  randomCalls : nat;
  session : nat;
  pending : list (nat * Task)
}.

(** *** Field updates *)

Definition set_gameState (g : GameState) (w : Scene) : Scene :=
  match w with
  | Build_Scene _ x2 x3 x4 x5 x6 x7 x8 x9 x10 x11 x12 x13 x14 =>
      Build_Scene g x2 x3 x4 x5 x6 x7 x8 x9 x10 x11 x12 x13 x14
  end.

Definition set_player1Points (p : Z) (w : Scene) : Scene :=
  match w with
  | Build_Scene x1 _ x3 x4 x5 x6 x7 x8 x9 x10 x11 x12 x13 x14 =>
      Build_Scene x1 p x3 x4 x5 x6 x7 x8 x9 x10 x11 x12 x13 x14
  end.

Definition set_player2Points (p : Z) (w : Scene) : Scene :=
  match w with
  | Build_Scene x1 x2 _ x4 x5 x6 x7 x8 x9 x10 x11 x12 x13 x14 =>
      Build_Scene x1 x2 p x4 x5 x6 x7 x8 x9 x10 x11 x12 x13 x14
  end.

Definition set_deckContainer (l : list Sprite) (w : Scene) : Scene :=
  match w with
  | Build_Scene x1 x2 x3 _ x5 x6 x7 x8 x9 x10 x11 x12 x13 x14 =>
      Build_Scene x1 x2 x3 l x5 x6 x7 x8 x9 x10 x11 x12 x13 x14
  end.

Definition set_player1Container (l : list Sprite) (w : Scene) : Scene :=
  match w with
  | Build_Scene x1 x2 x3 x4 _ x6 x7 x8 x9 x10 x11 x12 x13 x14 =>
      Build_Scene x1 x2 x3 x4 l x6 x7 x8 x9 x10 x11 x12 x13 x14
  end.

Definition set_player2Container (l : list Sprite) (w : Scene) : Scene :=
  match w with
  | Build_Scene x1 x2 x3 x4 x5 _ x7 x8 x9 x10 x11 x12 x13 x14 =>
      Build_Scene x1 x2 x3 x4 x5 l x7 x8 x9 x10 x11 x12 x13 x14
  end.

Definition set_discardPileContainer (l : list Sprite) (w : Scene) : Scene :=
  match w with
  | Build_Scene x1 x2 x3 x4 x5 x6 _ x8 x9 x10 x11 x12 x13 x14 =>
      Build_Scene x1 x2 x3 x4 x5 x6 l x8 x9 x10 x11 x12 x13 x14
  end.

Definition set_knockButtonInteractive (b : bool) (w : Scene) : Scene :=
  match w with
  | Build_Scene x1 x2 x3 x4 x5 x6 x7 _ x9 x10 x11 x12 x13 x14 =>
      Build_Scene x1 x2 x3 x4 x5 x6 x7 b x9 x10 x11 x12 x13 x14
  end.

Definition set_endTurnButtonInteractive (b : bool) (w : Scene) : Scene :=
  match w with
  | Build_Scene x1 x2 x3 x4 x5 x6 x7 x8 _ x10 x11 x12 x13 x14 =>
      Build_Scene x1 x2 x3 x4 x5 x6 x7 x8 b x10 x11 x12 x13 x14
  end.

Definition set_restartButton (b : bool) (w : Scene) : Scene :=
  match w with
  | Build_Scene x1 x2 x3 x4 x5 x6 x7 x8 x9 _ x11 x12 x13 x14 =>
      Build_Scene x1 x2 x3 x4 x5 x6 x7 x8 x9 b x11 x12 x13 x14
  end.

Definition set_resultText (r : option Result) (w : Scene) : Scene :=
  match w with
  | Build_Scene x1 x2 x3 x4 x5 x6 x7 x8 x9 x10 _ x12 x13 x14 =>
      Build_Scene x1 x2 x3 x4 x5 x6 x7 x8 x9 x10 r x12 x13 x14
  end.

Definition set_randomCalls (n : nat) (w : Scene) : Scene :=
  match w with
  | Build_Scene x1 x2 x3 x4 x5 x6 x7 x8 x9 x10 x11 _ x13 x14 =>
      Build_Scene x1 x2 x3 x4 x5 x6 x7 x8 x9 x10 x11 n x13 x14
  end.

Definition set_pending (q : list (nat * Task)) (w : Scene) : Scene :=
  match w with
  | Build_Scene x1 x2 x3 x4 x5 x6 x7 x8 x9 x10 x11 x12 x13 _ =>
      Build_Scene x1 x2 x3 x4 x5 x6 x7 x8 x9 x10 x11 x12 x13 q
  end.

(** [gameManager.updateGameState(flag, value)]. *)
Definition update (flag : Flag) (value : bool) (w : Scene) : Scene :=
  set_gameState (updateGameState flag value (gameState w)) w.

(** *** Timers and tweens

    A pending callback carries the delay left before it fires; callbacks due
    at the same instant fire in the order they were registered.  A tween
    calls [onComplete] after its duration (twice that with [yoyo]). *)

Fixpoint insert_task (delay : nat) (t : Task) (q : list (nat * Task))
  : list (nat * Task) :=
  match q with
  | [] => [(delay, t)]
  | (d, t') :: r =>
      if (d <=? delay)%nat then (d, t') :: insert_task delay t r
      else (delay, t) :: q
  end.

Definition delayedCall (delay : nat) (t : Task) (w : Scene) : Scene :=
  set_pending (insert_task delay t (pending w)) w.

Definition tween (duration : nat) (onComplete : Task) (w : Scene) : Scene :=
  delayedCall duration onComplete w.

Fixpoint elapse (d : nat) (q : list (nat * Task)) : list (nat * Task) :=
  match q with
  | [] => []
  | (d', t) :: r => ((d' - d)%nat, t) :: elapse d r
  end.

(** *** Containers *)

Definition playerContainer (p : Player) (w : Scene) : list Sprite :=
  match p with
  | Player1 => player1Container w
  | Player2 => player2Container w
  end.

Definition set_playerContainer (p : Player) (l : list Sprite) (w : Scene)
  : Scene :=
  match p with
  | Player1 => set_player1Container l w
  | Player2 => set_player2Container l w
  end.

(** [container.remove(card)]. *)
Fixpoint container_remove (card : Sprite) (l : list Sprite) : list Sprite :=
  match l with
  | [] => []
  | c :: r => if same_card c card then r else c :: container_remove card r
  end.

(** [container.list.includes(card)]. *)
Definition includes (card : Sprite) (l : list Sprite) : bool :=
  existsb (same_card card) l.

(** A card image added to a container leaves the container that held it. *)
Definition detach (card : Sprite) (w : Scene) : Scene :=
  let w := set_deckContainer (container_remove card (deckContainer w)) w in
  let w := set_player1Container (container_remove card (player1Container w)) w in
  let w := set_player2Container (container_remove card (player2Container w)) w in
  set_discardPileContainer (container_remove card (discardPileContainer w)) w.

Definition with_depth (d : Z) (card : Sprite) : Sprite :=
  {| cardData := cardData card; depth := d |}.

Definition depth_in (card : Sprite) (d : Z) (l : list Sprite) : list Sprite :=
  map (fun c => if same_card c card then with_depth d c else c) l.
Arguments depth_in : simpl never.

(** [card.setDepth(d)], wherever the card image is. *)
Definition setDepth (card : Sprite) (d : Z) (w : Scene) : Scene :=
  let w := set_deckContainer (depth_in card d (deckContainer w)) w in
  let w := set_player1Container (depth_in card d (player1Container w)) w in
  let w := set_player2Container (depth_in card d (player2Container w)) w in
  set_discardPileContainer (depth_in card d (discardPileContainer w)) w.

(** [playerContainer.add(card)]. *)
Definition addToPlayer (p : Player) (card : Sprite) (w : Scene) : Scene :=
  let w := detach card w in
  set_playerContainer p (playerContainer p w ++ [card]) w.

(** [list.reduce((highest, current) =>
      current.depth > highest.depth ? current : highest, list[0])]. *)
Definition topCard (l : list Sprite) : option Sprite :=
  match l with
  | [] => None
  | first :: _ =>
      Some (fold_left
              (fun highest current =>
                 if depth current >? depth highest then current else highest)
              l first)
  end.

(** [list.reduce((highest, current) => Math.max(highest, current.depth), 0)]. *)
Definition currentHighestDepth (l : list Sprite) : Z :=
  fold_left (fun highest current => Z.max highest (depth current)) l 0.

(** [DiscardPileManager.getHighestDepth]. *)
Definition getHighestDepth (l : list Sprite) : Z :=
  match l with
  | [] => 0
  | _ => math_max (map (fun c => depth c) l)
  end.

(** [discardPileContainer.add(card)] followed by
    [card.setDepth(getHighestDepth(discardPileContainer) + 10)]. *)
Definition addToDiscardPile (card : Sprite) (w : Scene) : Scene :=
  let w := detach card w in
  let w := set_discardPileContainer (discardPileContainer w ++ [card]) w in
  setDepth card (getHighestDepth (discardPileContainer w) + 10) w.

(** *** Points and buttons *)

Definition updateTotalPoints (w : Scene) : Scene :=
  set_player1Points (maxPoints (calculatePoints (player1Container w))) w.

Definition updateTotalPointsPlayer2 (w : Scene) : Scene :=
  set_player2Points (maxPoints (calculatePoints (player2Container w))) w.

Definition updateEndTurnButton (w : Scene) : Scene :=
  if knockButtonPressed (gameState w)
  then set_endTurnButtonInteractive false w
  else if isPlayerTurn (gameState w)
          && (length (player1Container w) =? 3)%nat
  then set_endTurnButtonInteractive true w
  else set_endTurnButtonInteractive false w.

Definition checkWinner (w : Scene) : Scene :=
  set_resultText
    (Some (checkWinner_text (player1Points w) (player2Points w))) w.

(** [PlayerManager.flipPlayerCards(player2Container, ...)]: the callback runs
    when the last of the card tweens completes, never for an empty hand. *)
Definition flipPlayer2Cards (w : Scene) : Scene :=
  match player2Container w with
  | [] => w
  | _ => tween 600 FlipPlayer2Done w
  end.

(** [ButtonManager.createButton] reads one [Math.random()] for the key of
    the button's texture. *)
Definition createButton (w : Scene) : Scene :=
  set_randomCalls (S (randomCalls w)) w.

Definition createRestartButton (w : Scene) : Scene :=
  set_restartButton true (createButton w).

(** The points update each caller passes to the game flow manager. *)
Definition updatePoints (p : Player) (w : Scene) : Scene :=
  match p with
  | Player1 => updateEndTurnButton (updateTotalPoints w)
  | Player2 => updateTotalPointsPlayer2 w
  end.

(** ** Outcome of a call

    The error taxonomy of the specification.  A call either returns, leaving
    a scene, or throws; the source holds no [throw], so every function below
    returns. *)

Inductive Fault := EmptyDeckError | GuardViolation | InvalidCardReference.

Inductive Completion :=
| Returns (w : Scene)
| Throws (e : Fault).

(** The scene a handler leaves when the call it makes completes. *)
Definition scene_after (c : Completion) (w0 : Scene) : Scene :=
  match c with
  | Returns w => w
  | Throws _ => w0
  end.

(** ** Dealing (DeckManager.dealCards, GameFlowManager.dealCards) *)

(** [(a, b) => b.depth - a.depth] as an order: [a] stays before [b]. *)
Definition depth_before (a b : Sprite) : bool := depth b - depth a <=? 0.

(** [orchestrator.setupPlayerCard]: the card of player 1 takes the depth of
    its position in the hand. *)
Definition setupPlayerCard (card : Sprite) (w : Scene) : Scene :=
  setDepth card (Z.of_nat (length (player1Container w)) - 1) w.

(** [DiscardPileManager.moveCardToDiscardPile]. *)
Definition moveCardToDiscardPile (card : Sprite) (w : Scene) : Scene :=
  let d := currentHighestDepth (discardPileContainer w) + 1 in
  tween 500 (MoveToDiscardPileDone (with_depth d card)) (setDepth card d w).

(** The local [dealCard] of [DeckManager.dealCards].  [sortedDeck[cardIndex]]
    is defined for the 52 cards of [createDeck]; with fewer than seven cards
    the deal goes no further. *)
Definition dealCard (sortedDeck : list Sprite) (cardIndex : nat) (w : Scene)
  : Scene :=
  if (6 <=? cardIndex)%nat then
    match nth_error sortedDeck cardIndex with
    | Some discardCard =>
        let w := moveCardToDiscardPile discardCard w in
        (* onComplete, from GameFlowManager.dealCards *)
        let w := update f_animationComplete true w in
        delayedCall 1000 DealCardsDone w
    | None => w
    end
  else
    match nth_error sortedDeck cardIndex with
    | Some _ => tween 500 (DealCardDone sortedDeck cardIndex) w
    | None => w
    end.

Definition dealCards (w : Scene) : Scene :=
  let w := update f_isAnimating true w in
  let w := update f_cardsInteractable false w in
  let sortedDeck := js_sort depth_before (deckContainer w) in
  dealCard sortedDeck 0 w.

(** [onComplete] of the tween that [dealCard] starts. *)
Definition dealCard_done (sortedDeck : list Sprite) (cardIndex : nat)
  (w : Scene) : Scene :=
  match nth_error sortedDeck cardIndex with
  | None => w
  | Some card =>
      let w :=
        if Nat.even cardIndex
        then setupPlayerCard card (addToPlayer Player1 card w)
        else addToPlayer Player2 card w in
      dealCard sortedDeck (S cardIndex) w
  end.

(** ** Drawing (GameFlowManager.moveCardToPlayer) *)

(** [DeckManager.moveTopCardToPlayer]. *)
Definition DeckManager_moveTopCardToPlayer (player : Player) (w : Scene)
  : Completion :=
  match topCard (deckContainer w) with
  | None => Returns w
  | Some top => Returns (tween 500 (DrawDone FromDeck player top) w)
  end.

(** [DiscardPileManager.moveTopCardToPlayer]. *)
Definition DiscardPileManager_moveTopCardToPlayer (player : Player) (w : Scene)
  : Completion :=
  match topCard (discardPileContainer w) with
  | None => Returns w
  | Some top => Returns (tween 500 (DrawDone FromDiscardPile player top) w)
  end.

(** The guard of [moveCardToPlayer]: [true] when the draw is refused. *)
Definition draw_refused (player : Player) (g : GameState) : bool :=
  (is_player1 player
   && (negb (isPlayerTurn g) || hasDrawnCard g || knockButtonPressed g
       || isAnimating g))
  || (negb (is_player1 player) && (knockButtonPressed g || isAnimating g)).

Definition moveCardToPlayer (source : Source) (player : Player) (w : Scene)
  : Completion :=
  if is_player1 player
     && (negb (isPlayerTurn (gameState w)) || hasDrawnCard (gameState w)
         || knockButtonPressed (gameState w) || isAnimating (gameState w))
  then Returns w
  else if negb (is_player1 player)
          && (knockButtonPressed (gameState w) || isAnimating (gameState w))
  then Returns w
  else
    let w := update f_isAnimating true w in
    let w := update f_cardsInteractable false w in
    match source with
    | FromDiscardPile => DiscardPileManager_moveTopCardToPlayer player w
    | FromDeck => DeckManager_moveTopCardToPlayer player w
    end.

(** [onComplete] of the draw tween: the card joins the hand, then the
    callback built by [moveCardToPlayer] runs. *)
Definition draw_done (player : Player) (top : Sprite) (w : Scene) : Scene :=
  let w := addToPlayer player top w in
  let w := match player with
           | Player1 => setupPlayerCard top w
           | Player2 => w
           end in
  let w := update f_hasDrawnCard true w in
  let w := update f_hasDiscardedCard false w in
  let w := update f_mustDiscard true w in
  let w := updatePoints player w in
  let w := update f_isAnimating false w in
  if isPlayerTurn (gameState w) then update f_cardsInteractable true w else w.

(** ** Discarding (GameFlowManager.discardCard) *)

(** [DiscardPileManager.discardCardFromPlayer]. *)
Definition discardCardFromPlayer (card : Sprite) (player : Player) (w : Scene)
  : Scene :=
  let w :=
    set_playerContainer player
      (container_remove card (playerContainer player w)) w in
  let d := currentHighestDepth (discardPileContainer w) + 100 in
  tween 400 (DiscardDone player (with_depth d card)) w.

(** The guard of [discardCard]: [true] when the discard is refused. *)
Definition discard_refused (player : Player) (g : GameState) : bool :=
  (is_player1 player
   && (negb (isPlayerTurn g) || negb (mustDiscard g) || hasDiscardedCard g
       || knockButtonPressed g || isAnimating g))
  || (negb (is_player1 player) && (knockButtonPressed g || isAnimating g)).

Definition discardCard (card : Sprite) (player : Player) (w : Scene)
  : Completion :=
  if is_player1 player
     && (negb (isPlayerTurn (gameState w)) || negb (mustDiscard (gameState w))
         || hasDiscardedCard (gameState w)
         || knockButtonPressed (gameState w) || isAnimating (gameState w))
  then Returns w
  else if negb (is_player1 player)
          && (knockButtonPressed (gameState w) || isAnimating (gameState w))
  then Returns w
  else
    let w := update f_isAnimating true w in
    let w := update f_cardsInteractable false w in
    Returns (discardCardFromPlayer card player w).

(** [onComplete] of the discard tween. *)
Definition discard_done (player : Player) (card : Sprite) (w : Scene) : Scene :=
  let w := addToDiscardPile card w in
  let w := updatePoints player w in
  let w := update f_hasDiscardedCard true w in
  let w := update f_hasDrawnCard false w in
  let w := update f_mustDiscard false w in
  let w := update f_cardsInteractable false w in
  delayedCall 500 (DiscardUnlock player) w.

(** The callback of the unlock timer.  For player 1 the source also calls
    [disableInteractive()] on the cards of the deck and of the discard pile.
    A scene keeps no input flag per card: [handle] below accepts every click
    that the guards of the handlers accept, also some that Phaser would not
    deliver once a card has lost its input. *)
Definition discard_unlock (player : Player) (w : Scene) : Scene :=
  let w := update f_isAnimating false w in
  match player with
  | Player1 => update f_cardsInteractable true w
  | Player2 =>
      if isPlayerTurn (gameState w) then update f_cardsInteractable true w
      else w
  end.

(** ** The opponent's turn (GameOrchestrator.executePlayer2Turn) *)

Definition executePlayer2Turn (w : Scene) : Scene :=
  let bySuit := pointsBySuit (calculatePoints (player2Container w)) in
  delayedCall 1000 (Player2Draw bySuit) w.

Definition player2_draw (env : Ambient) (bySuit : JsObject Symbol Z)
  (w : Scene) : Scene :=
  let '(fromDiscard, calls) :=
    drawFromDiscard env (randomCalls w) bySuit (player2Container w)
                    (discardPileContainer w) in
  let w := set_randomCalls calls w in
  let w :=
    if fromDiscard
       && match discardPileContainer w with [] => false | _ => true end
    then scene_after (moveCardToPlayer FromDiscardPile Player2 w) w
    else scene_after (moveCardToPlayer FromDeck Player2 w) w in
  delayedCall 1500 Player2Discard w.

Definition player2_discard (env : Ambient) (w : Scene) : Scene :=
  match findWorstCardConsideringSuits (player2Container w) with
  | None => w
  | Some worstCard =>
      (* discardCardFromPlayer2: the card is turned over first *)
      let w := tween 400 (Player2FlipDone worstCard) w in
      let newPoints := maxPoints (calculatePoints (player2Container w)) in
      let estimatedPlayer1Points :=
        maxPoints (calculatePoints (player1Container w)) in
      let '(knock, calls) :=
        shouldKnock env (randomCalls w) newPoints estimatedPlayer1Points in
      let w := set_randomCalls calls w in
      if knock then delayedCall 1000 Player2Knock w
      else delayedCall 1000 StartPlayer1Turn w
  end.

Definition player2Knock (w : Scene) : Scene :=
  let w := update f_knockButtonPressed true w in
  let w := update f_cardsInteractable false w in
  let w := set_knockButtonInteractive false w in
  let w := set_endTurnButtonInteractive false w in
  delayedCall 2000 KnockTextFade w.

Definition startPlayer1Turn (w : Scene) : Scene :=
  let w := update f_isPlayerTurn true w in
  let w := update f_cardsInteractable true w in
  delayedCall 1500 TurnTextFade w.

(** ** Buttons of player 1 *)

(** The knock and end-turn handlers test the [isPlayerTurn] they were
    created with, the value [createUI] read from the new game state. *)
Definition isPlayerTurn_at_creation : bool := isPlayerTurn initialGameState.

(** The callback of [createKnockButton]. *)
Definition onKnock (w : Scene) : Scene :=
  let w := update f_knockButtonPressed true w in
  let w := update f_cardsInteractable false w in
  let w := set_endTurnButtonInteractive false w in
  let w := flipPlayer2Cards w in
  createRestartButton w.

(** The callback of [createEndTurnButton]. *)
Definition onEndTurn (w : Scene) : Scene :=
  let w := update f_isPlayerTurn false w in
  let w := update f_hasDrawnCard false w in
  let w := update f_hasDiscardedCard false w in
  let w := update f_mustDiscard false w in
  let w := update f_cardsInteractable false w in
  let w := set_endTurnButtonInteractive false w in
  delayedCall 1500 EndTurnTextFade w.

(** ** Sorting the hand of player 1 (CardSortingManager) *)

Definition suitOrder (s : Suit) : Z :=
  match s with
  | Hearts => 0 | Diamonds => 1 | Clubs => 2 | Spades => 3
  end.

Definition rank_before (a b : Sprite) : bool :=
  rankOrder (rank (cardData a)) - rankOrder (rank (cardData b)) <=? 0.

Definition suit_before (a b : Sprite) : bool :=
  let suitDiff := suitOrder (suit (cardData a)) - suitOrder (suit (cardData b)) in
  if negb (suitDiff =? 0) then suitDiff <=? 0
  else rankOrder (rank (cardData a)) - rankOrder (rank (cardData b)) <=? 0.

Definition sortCardsByRank (cards : list Sprite) : list Sprite :=
  js_sort rank_before cards.

Definition sortCardsBySuit (cards : list Sprite) : list Sprite :=
  js_sort suit_before cards.

Definition rearrangeCards (sortedCards : list Sprite) (w : Scene) : Scene :=
  tween 300 (RearrangeDone sortedCards) (set_player1Container sortedCards w).

Fixpoint rearrange_done (index : Z) (sortedCards : list Sprite) (w : Scene)
  : Scene :=
  match sortedCards with
  | [] => w
  | card :: r => rearrange_done (index + 1) r (setDepth card index w)
  end.

(** ** The scene at [create()] *)

Definition create (env : Ambient) (n calls : nat) : Scene :=
  let w :=
    {| gameState := initialGameState;
       player1Points := 0; player2Points := 0;
       deckContainer := createDeck (shuffled env n);
       player1Container := []; player2Container := [];
       discardPileContainer := [];
       knockButtonInteractive := true;
       endTurnButtonInteractive := true;
       restartButton := false; resultText := None;
       randomCalls := calls; session := n; pending := [] |} in
  (* createUI: createButton makes the knock button, the two sort buttons
     and the rules button; the end-turn button is a rectangle *)
  let w := createButton w in
  let w := createButton (createButton w) in
  let w := createButton w in
  let w := updateEndTurnButton w in
  (* initializeGame *)
  let w := update f_isAnimating true w in
  delayedCall 1500 InitializeGameDeal w.

(** ** Running a callback *)

Definition run_task (env : Ambient) (t : Task) (w : Scene) : Scene :=
  match t with
  | InitializeGameDeal => delayedCall 3000 InitializeGameFlags (dealCards w)
  | InitializeGameFlags =>
      let w := update f_cardsInteractable true w in
      let w := update f_mustDiscard false w in
      updateEndTurnButton (updateTotalPoints w)
  | DealCardDone sortedDeck cardIndex => dealCard_done sortedDeck cardIndex w
  | MoveToDiscardPileDone card => addToDiscardPile card w
  | DealCardsDone =>
      let w := update f_isAnimating false w in
      let w := update f_cardsInteractable true w in
      let w := update f_mustDiscard false w in
      updateTotalPoints w
  | DrawDone _ player top => draw_done player top w
  | DiscardDone player card => discard_done player card w
  | DiscardUnlock player => discard_unlock player w
  | EndTurnTextFade => tween 500 ExecutePlayer2Turn w
  | ExecutePlayer2Turn => executePlayer2Turn w
  | Player2Draw bySuit => player2_draw env bySuit w
  | Player2Discard => player2_discard env w
  | Player2FlipDone card => scene_after (discardCard card Player2 w) w
  | Player2Knock => player2Knock w
  | KnockTextFade => tween 500 KnockTextDone w
  | KnockTextDone => createRestartButton (flipPlayer2Cards w)
  | StartPlayer1Turn => startPlayer1Turn w
  | TurnTextFade => tween 500 TurnTextDone w
  | TurnTextDone => updateEndTurnButton w
  | FlipPlayer2Done => checkWinner (updateTotalPointsPlayer2 w)
  | RearrangeDone sortedCards => rearrange_done 0 sortedCards w
  | RestartGame => create env (S (session w)) (randomCalls w)
  end.

(** The next callback to fire, if any: time moves on by its delay. *)
Definition fire (env : Ambient) (w : Scene) : option Scene :=
  match pending w with
  | [] => None
  | (d, t) :: q => Some (run_task env t (set_pending (elapse d q) w))
  end.

(** ** Pointer events *)

Inductive Event :=
| ClickDeckCard (cardImage : Sprite)
| ClickDiscardPileCard (card : Sprite)
| ClickPlayerCard (card : Sprite)
| ClickKnock
| ClickEndTurn
| ClickRestart
| ClickSortByRank
| ClickSortBySuit.

Definition is_top (card : Sprite) (l : list Sprite) : bool :=
  match topCard l with
  | Some top => same_card card top
  | None => false
  end.

Definition handle (e : Event) (w : Scene) : Scene :=
  let g := gameState w in
  match e with
  | ClickDeckCard cardImage =>
      if is_top cardImage (deckContainer w) && cardsInteractable g
         && negb (mustDiscard g) && negb (isAnimating g)
      then scene_after (moveCardToPlayer FromDeck Player1 w) w
      else w
  | ClickDiscardPileCard card =>
      if is_top card (discardPileContainer w)
         && (cardsInteractable g && negb (isAnimating g)
             && negb (mustDiscard g))
      then scene_after (moveCardToPlayer FromDiscardPile Player1 w) w
      else w
  | ClickPlayerCard card =>
      if cardsInteractable g && negb (isAnimating g)
         && includes card (player1Container w) && mustDiscard g
      then scene_after (discardCard card Player1 w) w
      else w
  | ClickKnock =>
      if negb (knockButtonInteractive w) then w
      else if negb (animationComplete g)
              || (3 <? length (player1Container w))%nat
              || knockButtonPressed g || negb isPlayerTurn_at_creation
      then w
      else onKnock w
  | ClickEndTurn =>
      if endTurnButtonInteractive w && isPlayerTurn_at_creation
         && (length (player1Container w) =? 3)%nat
      then onEndTurn w
      else w
  | ClickRestart =>
      if restartButton w then delayedCall 500 RestartGame w else w
  | ClickSortByRank =>
      if cardsInteractable g && negb (knockButtonPressed g)
      then rearrangeCards (sortCardsByRank (player1Container w)) w
      else w
  | ClickSortBySuit =>
      if cardsInteractable g && negb (knockButtonPressed g)
      then rearrangeCards (sortCardsBySuit (player1Container w)) w
      else w
  end.

(** ** Executions

    A session starts at [create]; pending callbacks fire in order; the
    player clicks while no tween or timer is pending. *)

Inductive reachable (env : Ambient) : Scene -> Prop :=
| reach_create : reachable env (create env 0 0)
| reach_fire w w' :
    reachable env w -> fire env w = Some w' -> reachable env w'
| reach_click w e :
    reachable env w -> pending w = [] -> reachable env (handle e w).

(** Runs the pending callbacks, at most [n] of them. *)
Fixpoint settle (env : Ambient) (n : nat) (w : Scene) : Scene :=
  match n with
  | O => w
  | S n' =>
      match fire env w with
      | Some w' => settle env n' w'
      | None => w
      end
  end.

(** The list functions stay folded under [cbn] and [simpl]; examples are
    evaluated with [vm_compute]. *)
Arguments findWorstCardConsideringSuits : simpl never.
Arguments calculatePoints : simpl never.
Arguments drawFromDiscard : simpl never.
Arguments shouldKnock : simpl never.
Arguments js_sort : simpl never.
Arguments topCard : simpl never.
Arguments currentHighestDepth : simpl never.
Arguments getHighestDepth : simpl never.
Arguments includes : simpl never.
Arguments createDeck : simpl never.

(** * Statements checked against the code *)

(** A fixed ambient stream for the examples: every [Math.random()] is
    [1/2] and the shuffle leaves [newDeck] as it is. *)
Definition ambient0 : Ambient :=
  {| random := fun _ => (1 # 2)%Q; shuffled := fun _ => newDeck |}.

Definition ambient_low : Ambient :=
  {| random := fun _ => (1 # 10)%Q; shuffled := fun _ => newDeck |}.

Definition ambient_high : Ambient :=
  {| random := fun _ => (9 # 10)%Q; shuffled := fun _ => newDeck |}.

(** The session of [ambient0] once the cards are dealt. *)
Definition dealt0 : Scene := settle ambient0 12 (create ambient0 0 0).

(** The hand of the discard example, [2♠ 9♠ 7♥ A♥]. *)
Definition hand_2s_9s_7h_Ah : list Sprite :=
  [sprite R2 Spades 0; sprite R9 Spades 1; sprite R7 Hearts 2;
   sprite RA Hearts 3].

(** A draw or discard attempt, its guard and its execution. *)
Inductive Attempt :=
| AttemptDraw (source : Source) (player : Player)
| AttemptDiscard (card : Sprite) (player : Player).

Definition refused (a : Attempt) (g : GameState) : bool :=
  match a with
  | AttemptDraw _ player => draw_refused player g
  | AttemptDiscard _ player => discard_refused player g
  end.

Definition perform (a : Attempt) (w : Scene) : Completion :=
  match a with
  | AttemptDraw source player => moveCardToPlayer source player w
  | AttemptDiscard card player => discardCard card player w
  end.

(** One step of an execution: a pending callback fires, or the player
    clicks (here at any moment). *)
Inductive Step := Fire | Click (e : Event).

Definition step (env : Ambient) (s : Step) (w : Scene) : option Scene :=
  match s with
  | Fire => fire env w
  | Click e => Some (handle e w)
  end.

(** The step is the session restart: the callback of [restartGame] fires. *)
Definition restarts (s : Step) (w : Scene) : bool :=
  match s, pending w with
  | Fire, (_, RestartGame) :: _ => true
  | _, _ => false
  end.

Inductive runs_without_restart (env : Ambient) : Scene -> Scene -> Prop :=
| rwr_here w : runs_without_restart env w w
| rwr_step w s w1 w2 :
    step env s w = Some w1 -> restarts s w = false ->
    runs_without_restart env w1 w2 -> runs_without_restart env w w2.

(** The knock flag of a scene. *)
Definition knocked (w : Scene) : bool := knockButtonPressed (gameState w).

(** A scene whose deck has run out. *)
Definition emptyDeck0 : Scene := set_deckContainer [] dealt0.

(** A scene in which the opponent holds [10♥ J♥ 5♣] and the discard pile
    shows [A♦]. *)
Definition aceShown0 : Scene :=
  set_discardPileContainer [sprite RA Diamonds 11]
    (set_player2Container
       [sprite R10 Hearts 0; sprite RJ Hearts 1; sprite R5 Clubs 2] dealt0).

(** A stream that agrees with [ambient0] at the one value the draw step of
    [aceShown0] reads, and nowhere else. *)
Definition ambient_one_value : Ambient :=
  {| random := fun i => if (i =? randomCalls aceShown0)%nat
                        then (1 # 2)%Q else (9 # 10)%Q;
     shuffled := fun _ => rev newDeck |}.

(** The cards of a list are pairwise different. *)
Fixpoint distinct (l : list Card) : bool :=
  match l with
  | [] => true
  | c :: r => negb (existsb (Card_eqb c) r) && distinct r
  end.

(** [dealInitial] in the words of the specification, the deck given top
    card first: three cards to hand 1, the next three to hand 2, the seventh
    to the discard pile; [None] is its [EmptyDeckError]. *)
Definition spec_dealInitial (deckTopFirst : list Card)
  : option (list Card * list Card * list Card * list Card) :=
  match deckTopFirst with
  | c1 :: c2 :: c3 :: c4 :: c5 :: c6 :: c7 :: remaining =>
      Some ([c1; c2; c3], [c4; c5; c6], [c7], remaining)
  | _ => None
  end.

(** ** Hands read suit by suit *)

Definition has_suit (s : Suit) (c : Sprite) : bool :=
  Suit_eqb (suit (cardData c)) s.

(** The accumulated value of a suit in a hand. *)
Definition suitTotal (s : Suit) (cards : list Sprite) : Z :=
  fold_right Z.add 0 (map getCardValue (filter (has_suit s) cards)).

(** The number of cards of a suit in a hand. *)
Definition suitCount (s : Suit) (cards : list Sprite) : Z :=
  Z.of_nat (length (filter (has_suit s) cards)).

(** The suits of a hand, in the order they are first met. *)
Definition suitsOf (cards : list Sprite) : list Suit :=
  fold_left
    (fun seen c =>
       if existsb (Suit_eqb (suit (cardData c))) seen then seen
       else seen ++ [suit (cardData c)])
    cards [].

Definition entriesOf (s : Suit) (cards : list Sprite) : list Entry :=
  map (fun c => (c, getCardValue c)) (filter (has_suit s) cards).

(** The hand regrouped suit by suit: suits in the order they are first met,
    cards of one suit in hand order. *)
Definition groupedBySuit (cards : list Sprite) : list Sprite :=
  flat_map (fun s => filter (has_suit s) cards) (suitsOf cards).

(** The cards of a hand that are not of suit [s]. *)
Definition outside (s : Suit) (cards : list Sprite) : list Sprite :=
  filter (fun c => negb (has_suit s c)) cards.

Definition holds_suit (s : Suit) (hand : list Sprite) : Prop :=
  exists c, In c hand /\ suit (cardData c) = s.

(** [x] is the first element of [l] with the least [val]. *)
Definition first_min (A : Type) (val : A -> Z) (x : A) (l : list A) : Prop :=
  exists l1 l2,
    l = l1 ++ x :: l2
    /\ (forall y, In y l1 -> val x < val y)
    /\ (forall y, In y l2 -> val x <= val y).

(** [x] is the first element of [l] with the greatest [val]. *)
Definition first_max (A : Type) (val : A -> Z) (x : A) (l : list A) : Prop :=
  exists l1 l2,
    l = l1 ++ x :: l2
    /\ (forall y, In y l1 -> val y < val x)
    /\ (forall y, In y l2 -> val y <= val x).

(** [x] is the last element of [l] with the greatest [val]. *)
Definition last_max (A : Type) (val : A -> Z) (x : A) (l : list A) : Prop :=
  exists l1 l2,
    l = l1 ++ x :: l2
    /\ (forall y, In y l1 -> val y <= val x)
    /\ (forall y, In y l2 -> val y < val x).

(** The first card of lowest value in a list of cards. *)
Definition first_lowest (c : Sprite) (l : list Sprite) : Prop :=
  first_min getCardValue c l.

(** The strongest suit, a tie going to the suit met first. *)
Definition strongest_first (s : Suit) (cards : list Sprite) : Prop :=
  first_max (fun t => suitTotal t cards) s (suitsOf cards).

(** The strongest suit, a tie going to the suit met last. *)
Definition strongest_last (s : Suit) (cards : list Sprite) : Prop :=
  last_max (fun t => suitTotal t cards) s (suitsOf cards).

(** The step of the [reduce] of [executePlayer2Turn], on suits valued by
    [val]. *)
Definition keep_greater (val : Suit -> Z) (a b : Suit) : Suit :=
  if val a >? val b then a else b.

(** [strongestSuitName] of [executePlayer2Turn] for a hand. *)
Definition strongest_of (hand : list Sprite) : option Suit :=
  getSuitNameFromSymbol (strongestSuit_of (pointsBySuit (calculatePoints hand))).

(** The card the draw step inspects, [list[0]], is the top card of the
    discard pile (the one of highest depth). *)
Definition inspected_is_top (pile : list Sprite) : Prop :=
  topCard pile = hd_error pile.

(** [chooseDiscard] in the words of the specification: the lowest card
    outside the strongest suit, or of the whole hand when there is none,
    ties going to the first card in hand order. *)
Definition spec_chooseDiscard (cards : list Sprite) (c : Sprite) : Prop :=
  exists s,
    strongest_first s cards
    /\ (outside s cards <> [] -> first_lowest c (outside s cards))
    /\ (outside s cards = [] -> first_lowest c cards).

(** [chooseDrawSource] in the words of the specification, for the top card
    of the discard pile: ties between suits go to the first one met. *)
Definition spec_prefersDiscardPile (env : Ambient) (calls : nat)
  (hand : list Sprite) (top : Sprite) : Prop :=
  strongest_first (suit (cardData top)) hand
  \/ (10 <= getCardValue top /\ holds_suit (suit (cardData top)) hand)
  \/ (getCardValue top = 11 /\ (2 # 10 < random env calls)%Q).

Definition hand_3h_2d_2h_As : list Sprite :=
  [sprite R3 Hearts 0; sprite R2 Diamonds 1; sprite R2 Hearts 2;
   sprite RA Spades 3].

Definition hand_10h_10s_2d : list Sprite :=
  [sprite R10 Hearts 0; sprite R10 Spades 1; sprite R2 Diamonds 2].

(** ** The cards on the table *)

(** The number of images of card [x] in a container. *)
Fixpoint occ (x : Card) (l : list Sprite) : nat :=
  match l with
  | [] => 0%nat
  | s :: r => ((if Card_eqb (cardData s) x then 1 else 0) + occ x r)%nat
  end.

(** The images of card [x] in the four containers and among the cards in
    flight, the ones a discard tween carries to the pile. *)
Definition copies (x : Card) (inFlight : list Sprite) (w : Scene) : nat :=
  (occ x (deckContainer w) + occ x (player1Container w)
   + occ x (player2Container w) + occ x (discardPileContainer w)
   + occ x inFlight)%nat.

(** No card has two images. *)
Definition tidy (inFlight : list Sprite) (w : Scene) : Prop :=
  forall x, (copies x inFlight w <= 1)%nat.

Definition sizes (a b : nat) (w : Scene) : Prop :=
  length (player1Container w) = a /\ length (player2Container w) = b.

Definition sourceContainer (source : Source) (w : Scene) : list Sprite :=
  match source with
  | FromDeck => deckContainer w
  | FromDiscardPile => discardPileContainer w
  end.

(** [Phaser.Utils.Array.Shuffle] permutes the 52 cards of [createDeck]. *)
Definition well_shuffled (env : Ambient) : Prop :=
  forall n, distinct (shuffled env n) = true
            /\ length (shuffled env n) = 52%nat.

(** ** The phases of a session

    The callbacks pending while no card is on its way and neither player
    owes a discard. *)
Inductive quiet_queue : list (nat * Task) -> Prop :=
| qq_calm : quiet_queue []
| qq_unlock p : quiet_queue [(500%nat, DiscardUnlock p)]
| qq_sort l : quiet_queue [(300%nat, RearrangeDone l)]
| qq_end_text : quiet_queue [(1500%nat, EndTurnTextFade)]
| qq_end_fade : quiet_queue [(500%nat, ExecutePlayer2Turn)]
| qq_decide bySuit : quiet_queue [(1000%nat, Player2Draw bySuit)]
| qq_blocked : quiet_queue [(1500%nat, Player2Discard)]
| qq_next_start :
    quiet_queue [(200%nat, StartPlayer1Turn); (500%nat, DiscardUnlock Player2)]
| qq_next_knock :
    quiet_queue [(200%nat, Player2Knock); (500%nat, DiscardUnlock Player2)]
| qq_start_unlock :
    quiet_queue [(300%nat, DiscardUnlock Player2); (1500%nat, TurnTextFade)]
| qq_start_text : quiet_queue [(1200%nat, TurnTextFade)]
| qq_start_fade : quiet_queue [(500%nat, TurnTextDone)]
| qq_knock_unlock :
    quiet_queue [(300%nat, DiscardUnlock Player2); (2000%nat, KnockTextFade)]
| qq_knock_text : quiet_queue [(1700%nat, KnockTextFade)]
| qq_knock_fade : quiet_queue [(500%nat, KnockTextDone)]
| qq_flip : quiet_queue [(600%nat, FlipPlayer2Done)]
| qq_restart : quiet_queue [(500%nat, RestartGame)].

(** The callbacks pending while player 1 owes a discard. *)
Inductive owing_queue : list (nat * Task) -> Prop :=
| oq_calm : owing_queue []
| oq_sort l : owing_queue [(300%nat, RearrangeDone l)]
| oq_restart : owing_queue [(500%nat, RestartGame)].

(** What the opponent's discard step schedules next. *)
Definition closes_turn (t : Task) : Prop :=
  t = Player2Knock \/ t = StartPlayer1Turn.

Inductive Phase :=
| Quiet
| Owing
| Player1Draws (source : Source) (top : Sprite)
| Player1Discards (card : Sprite)
| Player2Draws (source : Source) (top : Sprite)
| Player2Holds
| Player2Flips (card : Sprite) (next : Task)
| Player2Discards (card : Sprite) (next : Task).

Definition in_phase (ph : Phase) (w : Scene) : Prop :=
  match ph with
  | Quiet =>
      sizes 3 3 w /\ mustDiscard (gameState w) = false
      /\ quiet_queue (pending w) /\ tidy [] w
  | Owing =>
      sizes 4 3 w /\ mustDiscard (gameState w) = true
      /\ owing_queue (pending w) /\ tidy [] w
  | Player1Draws source top =>
      sizes 3 3 w
      /\ pending w = [(500%nat, DrawDone source Player1 top)]
      /\ (1 <= occ (cardData top) (sourceContainer source w))%nat
      /\ tidy [] w
  | Player1Discards card =>
      sizes 3 3 w
      /\ pending w = [(400%nat, DiscardDone Player1 card)]
      /\ tidy [card] w
  | Player2Draws source top =>
      sizes 3 3 w
      /\ pending w = [(500%nat, DrawDone source Player2 top);
                      (1500%nat, Player2Discard)]
      /\ knockButtonPressed (gameState w) = false
      /\ (1 <= occ (cardData top) (sourceContainer source w))%nat
      /\ tidy [] w
  | Player2Holds =>
      sizes 3 4 w /\ mustDiscard (gameState w) = true
      /\ knockButtonPressed (gameState w) = false
      /\ isAnimating (gameState w) = false
      /\ pending w = [(1000%nat, Player2Discard)]
      /\ tidy [] w
  | Player2Flips card next =>
      sizes 3 4 w /\ mustDiscard (gameState w) = true
      /\ knockButtonPressed (gameState w) = false
      /\ isAnimating (gameState w) = false
      /\ pending w = [(400%nat, Player2FlipDone card); (1000%nat, next)]
      /\ closes_turn next
      /\ (1 <= occ (cardData card) (player2Container w))%nat
      /\ tidy [] w
  | Player2Discards card next =>
      sizes 3 3 w
      /\ pending w = [(400%nat, DiscardDone Player2 card); (600%nat, next)]
      /\ closes_turn next
      /\ tidy [card] w
  end.

(** The deal of a session is under way: fewer than ten of its callbacks
    have fired. *)
Definition dealing (env : Ambient) (w : Scene) : Prop :=
  exists n calls k,
    (k < 10)%nat /\ w = settle env k (create env n calls).

(** The scenes of a session: the deal, then the phases of play. *)
Definition in_play (env : Ambient) (w : Scene) : Prop :=
  dealing env w
  \/ (animationComplete (gameState w) = true /\ exists ph, in_phase ph w).

(** Two scenes with the same flags, the same pending callbacks and the same
    cards in each container: they differ in depths, points and buttons. *)
Definition same_table (w w' : Scene) : Prop :=
  gameState w' = gameState w
  /\ pending w' = pending w
  /\ map cardData (deckContainer w') = map cardData (deckContainer w)
  /\ map cardData (player1Container w') = map cardData (player1Container w)
  /\ map cardData (player2Container w') = map cardData (player2Container w)
  /\ map cardData (discardPileContainer w')
     = map cardData (discardPileContainer w).

(** A click of the player while nothing is pending; it is lost otherwise. *)
Definition click (e : Event) (w : Scene) : Scene :=
  match pending w with
  | [] => handle e w
  | _ :: _ => w
  end.

(** C6 as the specification states it, the flag of a player being the
    shared [mustDiscard] during that player's turn. *)
Definition spec_mustDiscard (p : Player) (w : Scene) : bool :=
  mustDiscard (gameState w)
  && Bool.eqb (isPlayerTurn (gameState w)) (is_player1 p).

Definition spec_hand_invariant (w : Scene) : Prop :=
  forall p,
    (length (playerContainer p w) = 3%nat
     \/ length (playerContainer p w) = 4%nat)
    /\ (length (playerContainer p w) = 4%nat <-> spec_mustDiscard p w = true).

(** Player 1 draws the top card of the deck, then clicks it in the hand. *)
Definition drawn0 : Scene :=
  match topCard (deckContainer dealt0) with
  | Some top => settle ambient0 5 (click (ClickDeckCard top) dealt0)
  | None => dealt0
  end.

Definition discarding0 : Scene :=
  match rev (player1Container drawn0) with
  | drawn :: _ => click (ClickPlayerCard drawn) drawn0
  | [] => drawn0
  end.

(** ** A game that the opponent ends

    In the session of [ambient0] player 1 holds [A♠ Q♠ 10♠] and the
    opponent [K♠ J♠ 9♠].  Player 1 draws [7♠] from the deck, discards it
    and ends the turn; the opponent takes it from the pile, discards it and
    decides to knock.  The scene when its knock is the next callback. *)
Definition knocking0 : Scene :=
  match topCard (deckContainer dealt0) with
  | Some top =>
      let w1 := settle ambient0 5 (click (ClickDeckCard top) dealt0) in
      match rev (player1Container w1) with
      | drawn :: _ =>
          let w2 := settle ambient0 5 (click (ClickPlayerCard drawn) w1) in
          settle ambient0 7 (click ClickEndTurn w2)
      | [] => w1
      end
  | None => dealt0
  end.

(** ** A game played until the deck runs out

    The deck, top card first: player 1 is dealt [A♠ K♠ Q♠], the opponent
    [9♥ 8♥ 7♥], the discard pile opens with [2♠]; the opponent then draws
    clubs and diamonds only. *)
Definition player1_draws : list Card :=
  map (fun r => mkCard r Spades) [RJ; R10; R9; R8; R7; R6; R5; R4; R3]
  ++ map (fun r => mkCard r Hearts) [RA; RK; RQ; RJ; R10; R6; R5; R4; R3; R2]
  ++ map (fun r => mkCard r Diamonds) [RJ; RQ; RK; RA].

Definition player2_draws : list Card :=
  map (fun r => mkCard r Clubs) ranks
  ++ map (fun r => mkCard r Diamonds) [R2; R3; R4; R5; R6; R7; R8; R9; R10].

Fixpoint interleave (a b : list Card) : list Card :=
  match a, b with
  | x :: a', y :: b' => x :: y :: interleave a' b'
  | _, [] => a
  | [], _ => b
  end.

Definition long_game_deck : list Card :=
  [mkCard RA Spades; mkCard R9 Hearts; mkCard RK Spades; mkCard R8 Hearts;
   mkCard RQ Spades; mkCard R7 Hearts; mkCard R2 Spades]
  ++ interleave player1_draws player2_draws.

Definition ambient_long : Ambient :=
  {| random := fun _ => (1 # 2)%Q; shuffled := fun _ => rev long_game_deck |}.

(** Player 1 draws the top card of the deck, discards the card drawn and
    clicks End Turn, each click once the scene is at rest. *)
Definition player1_plays (env : Ambient) (w : Scene) : Scene :=
  let w1 :=
    match topCard (deckContainer w) with
    | Some top => settle env 40 (click (ClickDeckCard top) w)
    | None => w
    end in
  let w2 :=
    match rev (player1Container w1) with
    | drawn :: _ => settle env 40 (click (ClickPlayerCard drawn) w1)
    | [] => w1
    end in
  click ClickEndTurn w2.

(** A round: the turn of player 1, then the opponent's turn to its end. *)
Definition play_round (env : Ambient) (w : Scene) : Scene :=
  settle env 40 (player1_plays env w).

(** The 23rd turn of the opponent, when its discard step is about to run,
    and the scene this step leaves. *)
Definition dealt_long : Scene :=
  settle ambient_long 12 (create ambient_long 0 0).

Definition stalling0 : Scene :=
  settle ambient_long 3
    (player1_plays ambient_long
       (Nat.iter 22 (play_round ambient_long) dealt_long)).

Definition stalled0 : Scene := settle ambient_long 1 stalling0.

(** The clicks of player 1 other than Knock and Restart. *)
Definition plays_on (e : Event) : bool :=
  match e with
  | ClickKnock | ClickRestart => false
  | _ => true
  end.

(** ** Scores and orders, for the properties of the scoring and sorting code *)

(** The best suit total of a hand, over the four suits. *)
Definition bestSuitTotal (cards : list Sprite) : Z :=
  Z.max (suitTotal Hearts cards)
    (Z.max (suitTotal Diamonds cards)
       (Z.max (suitTotal Clubs cards) (suitTotal Spades cards))).

(** A card of suit [s] is in the hand. *)
Definition suit_present (s : Suit) (cards : list Sprite) : bool :=
  existsb (has_suit s) cards.

(** [a] may stand before [b] in a hand sorted by rank. *)
Definition rank_le (a b : Sprite) : Prop := getCardValue a <= getCardValue b.

(** [a] may stand before [b] in a hand sorted by suit: suits in the order
    Hearts, Diamonds, Clubs, Spades, cards of one suit by rank. *)
Definition suit_rank_le (a b : Sprite) : Prop :=
  suitOrder (suit (cardData a)) < suitOrder (suit (cardData b))
  \/ (suitOrder (suit (cardData a)) = suitOrder (suit (cardData b))
      /\ getCardValue a <= getCardValue b).

(** The cards of a hand with a given value, and with a given suit and
    value, in hand order. *)
Definition of_value (v : Z) (cards : list Sprite) : list Sprite :=
  filter (fun c => getCardValue c =? v) cards.

Definition of_suit_value (s : Suit) (v : Z) (cards : list Sprite)
  : list Sprite :=
  filter (fun c => has_suit s c && (getCardValue c =? v)) cards.

(** The hand without the card the opponent discards. *)
Definition after_discard (cards : list Sprite) : list Sprite :=
  match findWorstCardConsideringSuits cards with
  | Some worstCard => container_remove worstCard cards
  | None => cards
  end.

(** ** The table and the state play starts from *)

(** The cards of the deck, of the two hands and of the discard pile. *)
Definition table (w : Scene)
  : list Card * list Card * list Card * list Card :=
  (map cardData (deckContainer w), map cardData (player1Container w),
   map cardData (player2Container w), map cardData (discardPileContainer w)).

(** The flags once the deal is over: it is the turn of player 1, who may
    click the cards. *)
Definition readyState : GameState :=
  {| animationComplete := true; cardsInteractable := true;
     hasDrawnCard := false; hasDiscardedCard := false; mustDiscard := false;
     knockButtonPressed := false; isAnimating := false;
     isPlayerTurn := true |}.

(** ** Where the cards are *)

(** The cards that a discard tween is carrying to the pile. *)
Definition inFlight (q : list (nat * Task)) : list Sprite :=
  flat_map (fun dt => match snd dt with
                      | DiscardDone _ card => [card]
                      | _ => []
                      end) q.

(** The images of card [x] in a scene: in the deck, in a hand, in the
    discard pile or on the way to it. *)
Definition census (x : Card) (w : Scene) : nat :=
  copies x (inFlight (pending w)) w.

(** The callbacks of the deal. *)
Definition deal_task (t : Task) : bool :=
  match t with
  | InitializeGameDeal | InitializeGameFlags | DealCardDone _ _
  | MoveToDiscardPileDone _ | DealCardsDone => true
  | _ => false
  end.

Definition deal_queue (q : list (nat * Task)) : bool :=
  forallb (fun dt => deal_task (snd dt)) q.


(** ** A hand after a sort *)

(** The cards of [l] with the depths [index], [index + 1], ... *)
Fixpoint renumber (index : Z) (l : list Sprite) : list Sprite :=
  match l with
  | [] => []
  | card :: r => with_depth index card :: renumber (index + 1) r
  end.

(** Scene [w'] shows the hand of player 1 as [sortedCards], the card at
    index [i] at depth [i], and is scene [w] otherwise, with nothing
    pending. *)
Definition rearranged (sortedCards : list Sprite) (w w' : Scene) : Prop :=
  map cardData (player1Container w') = map cardData sortedCards
  /\ map depth (player1Container w')
     = map Z.of_nat (seq 0 (length sortedCards))
  /\ deckContainer w' = deckContainer w
  /\ player2Container w' = player2Container w
  /\ discardPileContainer w' = discardPileContainer w
  /\ gameState w' = gameState w
  /\ pending w' = [].
(** * Properties *)

Ltac destruct_scene w :=
  let g := fresh "g" in
  destruct w as [g ? ? ? ? ? ? ? ? ? ? ? ? ?]; destruct g.

Ltac case_if :=
  match goal with
  | |- context [if ?b then _ else _] => destruct b
  end.

Ltac case_match :=
  match goal with
  | |- context [match ?x with _ => _ end] => destruct x
  end.

(** ** The knock flag *)

Lemma knocked_dealCard sorted i w :
  knocked w = true -> knocked (dealCard sorted i w) = true.
Proof.
  destruct_scene w. unfold dealCard, knocked.
  destruct (6 <=? i)%nat; destruct (nth_error sorted i); cbn; auto.
Qed.

Lemma knocked_dealCard_done sorted i w :
  knocked w = true -> knocked (dealCard_done sorted i w) = true.
Proof.
  intros H. unfold dealCard_done.
  destruct (nth_error sorted i); [|exact H].
  apply knocked_dealCard. destruct_scene w.
  destruct (Nat.even i); exact H.
Qed.

Lemma knocked_moveCardToPlayer source p w :
  knocked w = true ->
  knocked (scene_after (moveCardToPlayer source p w) w) = true.
Proof.
  destruct_scene w. unfold knocked, moveCardToPlayer. cbn. intros ->.
  repeat (case_if; cbn; try reflexivity).
  all: unfold DeckManager_moveTopCardToPlayer,
      DiscardPileManager_moveTopCardToPlayer; cbn;
    match goal with |- context [topCard ?l] => destruct (topCard l) end;
    reflexivity.
Qed.

Lemma knocked_discardCard c p w :
  knocked w = true -> knocked (scene_after (discardCard c p w) w) = true.
Proof.
  destruct_scene w. unfold knocked, discardCard. cbn. intros ->.
  repeat (case_if; cbn; try reflexivity).
  all: destruct p; reflexivity.
Qed.

Lemma knocked_draw_done p c w :
  knocked w = true -> knocked (draw_done p c w) = true.
Proof.
  destruct_scene w. unfold knocked, draw_done, updatePoints, updateEndTurnButton.
  cbn. intros ->.
  destruct p; cbn; repeat (case_if; cbn); reflexivity.
Qed.

Lemma knocked_discard_done p c w :
  knocked w = true -> knocked (discard_done p c w) = true.
Proof.
  destruct_scene w.
  unfold knocked, discard_done, updatePoints, updateEndTurnButton.
  cbn. intros ->.
  destruct p; cbn; repeat (case_if; cbn); reflexivity.
Qed.

Lemma knocked_player2_draw env bySuit w :
  knocked w = true -> knocked (player2_draw env bySuit w) = true.
Proof.
  intros H. unfold player2_draw.
  destruct (drawFromDiscard _ _ _ _ _) as [b calls].
  assert (H' : knocked (set_randomCalls calls w) = true)
    by (destruct_scene w; exact H).
  case_if.
  - pose proof (knocked_moveCardToPlayer FromDiscardPile Player2 _ H') as K.
    destruct (scene_after _ _) as [g ? ? ? ? ? ? ? ? ? ? ? ? ?]. exact K.
  - pose proof (knocked_moveCardToPlayer FromDeck Player2 _ H') as K.
    destruct (scene_after _ _) as [g ? ? ? ? ? ? ? ? ? ? ? ? ?]. exact K.
Qed.

Lemma knocked_player2_discard env w :
  knocked w = true -> knocked (player2_discard env w) = true.
Proof.
  intros H. unfold player2_discard.
  destruct (findWorstCardConsideringSuits _); [|exact H].
  destruct (shouldKnock _ _ _ _) as [k calls].
  destruct_scene w. destruct k; exact H.
Qed.

Lemma knocked_rearrange_done l : forall i w,
  knocked w = true -> knocked (rearrange_done i l w) = true.
Proof.
  induction l as [|c l IH]; intros i w H; cbn [rearrange_done]; [exact H|].
  apply IH. destruct_scene w. exact H.
Qed.

Lemma knocked_run_task env t w :
  t <> RestartGame -> knocked w = true -> knocked (run_task env t w) = true.
Proof.
  intros Ht H. destruct t; cbn [run_task]; try congruence.
  - unfold dealCards.
    match goal with
    | |- knocked (delayedCall _ _ (dealCard ?s ?i ?w0)) = true =>
        pose proof (@knocked_dealCard s i w0) as K;
        destruct (dealCard s i w0) as [g ? ? ? ? ? ? ? ? ? ? ? ? ?]
    end.
    apply K. destruct_scene w. exact H.
  - destruct_scene w. unfold knocked in *. cbn in *. subst.
    repeat (case_if; cbn); reflexivity.
  - apply knocked_dealCard_done, H.
  - destruct_scene w. exact H.
  - destruct_scene w. exact H.
  - apply knocked_draw_done, H.
  - apply knocked_discard_done, H.
  - destruct_scene w. unfold knocked in *. cbn in *. subst.
    destruct player; cbn; repeat (case_if; cbn); reflexivity.
  - destruct_scene w. exact H.
  - destruct_scene w. exact H.
  - apply knocked_player2_draw, H.
  - apply knocked_player2_discard, H.
  - apply knocked_discardCard, H.
  - destruct_scene w. reflexivity.
  - destruct_scene w. exact H.
  - destruct_scene w. unfold knocked in *. cbn in *. subst.
    unfold flipPlayer2Cards. cbn. repeat (case_match; cbn); reflexivity.
  - destruct_scene w. exact H.
  - destruct_scene w. exact H.
  - destruct_scene w. unfold knocked in *. cbn in *. subst.
    repeat (case_if; cbn); reflexivity.
  - destruct_scene w. exact H.
  - apply knocked_rearrange_done, H.
Qed.

Lemma knocked_handle e w : knocked w = true -> knocked (handle e w) = true.
Proof.
  intros H. destruct e; cbn [handle].
  - case_if; [apply knocked_moveCardToPlayer|]; exact H.
  - case_if; [apply knocked_moveCardToPlayer|]; exact H.
  - case_if; [apply knocked_discardCard|]; exact H.
  - destruct_scene w. unfold knocked, onKnock, flipPlayer2Cards in *.
    cbn in *. subst. repeat (case_match; cbn; try reflexivity).
  - destruct_scene w. unfold knocked, onEndTurn in *. cbn in *. subst.
    repeat (case_match; cbn; try reflexivity).
  - destruct_scene w. unfold knocked in *. cbn in *. subst.
    repeat (case_match; cbn; try reflexivity).
  - destruct_scene w. unfold knocked, rearrangeCards in *. cbn in *. subst.
    repeat (case_match; cbn; try reflexivity).
  - destruct_scene w. unfold knocked, rearrangeCards in *. cbn in *. subst.
    repeat (case_match; cbn; try reflexivity).
Qed.

Lemma knocked_step env s w w' :
  step env s w = Some w' -> restarts s w = false ->
  knocked w = true -> knocked w' = true.
Proof.
  destruct s as [|e]; cbn [step restarts]; intros Hs Hr H.
  - unfold fire in Hs. destruct (pending w) as [|[d t] q] eqn:E; [discriminate|].
    injection Hs as <-. apply knocked_run_task.
    + intros ->. discriminate.
    + destruct_scene w. exact H.
  - injection Hs as <-. apply knocked_handle, H.
Qed.

(** C7: once [knockButtonPressed] is true it stays true along every
    execution in which the restart callback does not fire: no callback and
    no click other than the session restart sets it back to false. *)
Theorem knockButtonPressed_monotonic env w w' :
  runs_without_restart env w w' -> knocked w = true -> knocked w' = true.
Proof.
  induction 1 as [w|w s w1 w2 Hs Hr _ IH]; intros H; [exact H|].
  apply IH. eapply knocked_step; eassumption.
Qed.

Lemma knockButtonPressed_monotonic_witness :
  knocked (handle ClickKnock dealt0) = true
  /\ knocked (handle ClickRestart (settle ambient0 1 (handle ClickKnock dealt0)))
     = true.
Proof.
  split; [vm_compute; reflexivity|].
  apply (@knockButtonPressed_monotonic ambient0 (handle ClickKnock dealt0));
    [|vm_compute; reflexivity].
  apply rwr_step with (s := Fire) (w1 := settle ambient0 1 (handle ClickKnock dealt0));
    [vm_compute; reflexivity|vm_compute; reflexivity|].
  apply rwr_step with (s := Click ClickRestart)
                      (w1 := handle ClickRestart
                               (settle ambient0 1 (handle ClickKnock dealt0)));
    [vm_compute; reflexivity|vm_compute; reflexivity|].
  apply rwr_here.
Defined.

(** ** Refused draws and discards *)

(** C5: when the guard of a draw ([moveCardToPlayer]) or of a discard
    ([discardCard]) fails, the call returns normally and the scene (game
    state, deck, both hands, discard pile, pending callbacks) is the one it
    was given. *)
Theorem refused_attempt_changes_nothing a w :
  refused a (gameState w) = true -> perform a w = Returns w.
Proof.
  destruct a as [source player|card player]; cbn [refused perform];
    unfold draw_refused, discard_refused, moveCardToPlayer, discardCard;
    intros H.
  - destruct (is_player1 player && _); [reflexivity|].
    destruct (negb (is_player1 player) && _); [reflexivity|discriminate].
  - destruct (is_player1 player && _); [reflexivity|].
    destruct (negb (is_player1 player) && _); [reflexivity|discriminate].
Qed.

Lemma refused_attempt_changes_nothing_witness :
  refused (AttemptDiscard (sprite RA Spades 51) Player1) (gameState dealt0) = true
  /\ perform (AttemptDiscard (sprite RA Spades 51) Player1) dealt0
     = Returns dealt0.
Proof.
  split; [vm_compute; reflexivity|].
  apply (@refused_attempt_changes_nothing
           (AttemptDiscard (sprite RA Spades 51) Player1) dealt0).
  vm_compute; reflexivity.
Defined.

(** ** The discard example *)

Lemma discard_example_counterexample :
  ~ (strongestSuit hand_2s_9s_7h_Ah = Some Spades
     /\ findWorstCardConsideringSuits hand_2s_9s_7h_Ah
        = Some (sprite R7 Hearts 2)).
Proof. intros [H _]. vm_compute in H. discriminate. Qed.

(** C1 (amended): for the hand [2♠ 9♠ 7♥ A♥] the strongest suit is Hearts
    (7 + 11 = 18 against 2 + 9 = 11 for Spades) and
    [findWorstCardConsideringSuits] returns [2♠], the lowest card outside
    Hearts. *)
Theorem discard_example d1 d2 d3 d4 :
  let hand := [sprite R2 Spades d1; sprite R9 Spades d2;
               sprite R7 Hearts d3; sprite RA Hearts d4] in
  snd (suitGroups hand) = [(Spades, 11); (Hearts, 18)]
  /\ strongestSuit hand = Some Hearts
  /\ findWorstCardConsideringSuits hand = Some (sprite R2 Spades d1).
Proof. repeat split. Qed.


(** ** Drawing the top card *)

Lemma map_cardData_depth_in c d l :
  map cardData (depth_in c d l) = map cardData l.
Proof.
  unfold depth_in. rewrite map_map. apply map_ext. intros a.
  destruct (same_card a c); reflexivity.
Qed.

Lemma length_depth_in c d l : length (depth_in c d l) = length l.
Proof. apply length_map. Qed.

Lemma highest_fold l : forall first,
  let top :=
    fold_left (fun highest current =>
                 if depth current >? depth highest then current else highest)
              l first in
  (top = first \/ In top l) /\ depth first <= depth top
  /\ (forall c, In c l -> depth c <= depth top).
Proof.
  induction l as [|x l IH]; intros first; cbn.
  - split; [now left|]. split; [lia|]. intros c [].
  - pose proof (IH x) as Hx. pose proof (IH first) as Hf. cbv zeta in Hx, Hf.
    destruct Hx as (Hx1 & Hx2 & Hx3). destruct Hf as (Hf1 & Hf2 & Hf3).
    destruct (Z.gtb_spec (depth x) (depth first)) as [Hgt|Hle].
    + split; [right; destruct Hx1 as [->|Hin]; [now left|now right]|].
      split; [lia|]. intros c [<-|Hc]; [exact Hx2|now apply Hx3].
    + split; [destruct Hf1 as [->|Hin]; [now left|right; now right]|].
      split; [exact Hf2|]. intros c [<-|Hc]; [lia|now apply Hf3].
Qed.

Lemma topCard_highest l top :
  topCard l = Some top ->
  In top l /\ forall c, In c l -> depth c <= depth top.
Proof.
  destruct l as [|first l]; [discriminate|]. unfold topCard.
  intros [= <-].
  pose proof (highest_fold (first :: l) first) as H. cbv zeta in H.
  destruct H as (H1 & _ & H3).
  split; [|exact H3]. destruct H1 as [H1|H1]; [left; symmetry; exact H1|exact H1].
Qed.

Lemma topCard_none l : topCard l = None -> l = [].
Proof. destruct l; [reflexivity|discriminate]. Qed.

Lemma deckContainer_draw_done p top w :
  map cardData (deckContainer (draw_done p top w))
  = map cardData (container_remove top (deckContainer w)).
Proof.
  destruct_scene w.
  unfold draw_done, updatePoints, updateEndTurnButton, setupPlayerCard.
  destruct p; cbn; repeat (case_if; cbn);
    rewrite ?map_cardData_depth_in; reflexivity.
Qed.

Lemma playerContainer_draw_done p top w :
  map cardData (playerContainer p (draw_done p top w))
  = map cardData (container_remove top (playerContainer p w)) ++ [cardData top].
Proof.
  destruct_scene w.
  unfold draw_done, updatePoints, updateEndTurnButton, setupPlayerCard.
  destruct p; cbn; repeat (case_if; cbn);
    rewrite ?map_cardData_depth_in, ?map_app; reflexivity.
Qed.

Lemma empty_deck_counterexample :
  deckContainer emptyDeck0 = []
  /\ ~ (DeckManager_moveTopCardToPlayer Player2 emptyDeck0
        = Throws EmptyDeckError).
Proof.
  split; [vm_compute; reflexivity|]. intros H. vm_compute in H. discriminate H.
Qed.

(** C8 (amended): [DeckManager.moveTopCardToPlayer] on a non-empty deck
    takes the card of highest depth: when its tween completes the card is
    last in the player's hand and the deck is the former deck without it.
    On an empty deck the call returns at once and leaves the scene as it
    was: no error is raised and no callback is registered. *)
Theorem moveTopCardToPlayer_outcome player w :
  (deckContainer w = []
   /\ DeckManager_moveTopCardToPlayer player w = Returns w)
  \/ (exists top,
         topCard (deckContainer w) = Some top
         /\ In top (deckContainer w)
         /\ (forall c, In c (deckContainer w) -> depth c <= depth top)
         /\ DeckManager_moveTopCardToPlayer player w
            = Returns (tween 500 (DrawDone FromDeck player top) w)
         /\ map cardData
              (deckContainer
                 (draw_done player top
                    (tween 500 (DrawDone FromDeck player top) w)))
            = map cardData (container_remove top (deckContainer w))
         /\ map cardData
              (playerContainer player
                 (draw_done player top
                    (tween 500 (DrawDone FromDeck player top) w)))
            = map cardData (container_remove top (playerContainer player w))
              ++ [cardData top]).
Proof.
  unfold DeckManager_moveTopCardToPlayer.
  destruct (topCard (deckContainer w)) as [top|] eqn:Htop.
  - right. exists top. destruct (topCard_highest _ Htop) as [Hin Hmax].
    repeat split; try assumption.
    + rewrite deckContainer_draw_done. destruct_scene w. reflexivity.
    + rewrite playerContainer_draw_done. destruct_scene w.
      destruct player; reflexivity.
  - left. split; [now apply topCard_none|reflexivity].
Qed.

(** ** The random source *)

Lemma ambient_random_counterexample :
  player2_draw ambient_low [(sym_hearts, 20); (sym_clubs, 5)] aceShown0
  <> player2_draw ambient_high [(sym_hearts, 20); (sym_clubs, 5)] aceShown0.
Proof.
  intros H.
  apply (f_equal (fun w => map snd (pending w))) in H.
  vm_compute in H. discriminate H.
Qed.

Lemma randomCalls_moveCardToPlayer source player w :
  randomCalls (scene_after (moveCardToPlayer source player w) w)
  = randomCalls w.
Proof.
  destruct_scene w.
  unfold moveCardToPlayer, DiscardPileManager_moveTopCardToPlayer,
    DeckManager_moveTopCardToPlayer.
  cbn. repeat (first [case_if | case_match]; cbn); reflexivity.
Qed.

Lemma randomCalls_delayedCall d t w :
  randomCalls (delayedCall d t w) = randomCalls w.
Proof. destruct_scene w. reflexivity. Qed.

Lemma randomCalls_set_randomCalls n w : randomCalls (set_randomCalls n w) = n.
Proof. destruct_scene w. reflexivity. Qed.

Lemma drawFromDiscard_calls env calls bySuit hand pile :
  (calls <= snd (drawFromDiscard env calls bySuit hand pile) <= S calls)%nat.
Proof.
  unfold drawFromDiscard. destruct pile as [|top pile]; cbn; [lia|].
  repeat (case_if; cbn); lia.
Qed.

Lemma shouldKnock_calls env calls newPoints estimatedPlayer1Points :
  (S calls <= snd (shouldKnock env calls newPoints estimatedPlayer1Points)
   <= S (S calls))%nat.
Proof. unfold shouldKnock. repeat (case_if; cbn); lia. Qed.

(** C9 (amended): the opponent's random choices are read from the ambient
    [Math.random]; nothing is injected or seeded.  The draw step reads at
    most one value, the next one of the stream, and the discard step (knock
    threshold, knock at 25 or more) at most two, the next two: two runs of
    the draw step from the same scene that are handed the same next value
    take the same decision, and so do two runs of the discard step that are
    handed the same next two values. *)
Theorem opponent_decisions_follow_random env1 env2 bySuit w :
  random env1 (randomCalls w) = random env2 (randomCalls w) ->
  player2_draw env1 bySuit w = player2_draw env2 bySuit w
  /\ (randomCalls w <= randomCalls (player2_draw env1 bySuit w)
      <= S (randomCalls w))%nat
  /\ (random env1 (S (randomCalls w)) = random env2 (S (randomCalls w)) ->
      player2_discard env1 w = player2_discard env2 w)
  /\ (randomCalls w <= randomCalls (player2_discard env1 w)
      <= S (S (randomCalls w)))%nat.
Proof.
  intros H0. split; [|split; [|split]].
  - unfold player2_draw, drawFromDiscard. rewrite H0. reflexivity.
  - unfold player2_draw.
    pose proof (drawFromDiscard_calls env1 (randomCalls w) bySuit
                  (player2Container w) (discardPileContainer w)) as Hc.
    destruct (drawFromDiscard env1 (randomCalls w) bySuit (player2Container w)
                (discardPileContainer w)) as [fromDiscard calls].
    cbn [snd] in Hc. rewrite randomCalls_delayedCall.
    destruct (fromDiscard && _);
      rewrite randomCalls_moveCardToPlayer, randomCalls_set_randomCalls;
      exact Hc.
  - intros H1. unfold player2_discard, shouldKnock.
    destruct (findWorstCardConsideringSuits (player2Container w)); [|reflexivity].
    replace (randomCalls (tween 400 (Player2FlipDone s) w))
      with (randomCalls w) by (destruct_scene w; reflexivity).
    rewrite H0, H1. reflexivity.
  - unfold player2_discard.
    destruct (findWorstCardConsideringSuits (player2Container w)) as [c|];
      [|lia].
    set (w1 := tween 400 (Player2FlipDone c) w).
    assert (E : randomCalls w1 = randomCalls w)
      by (unfold w1, tween; apply randomCalls_delayedCall).
    pose proof (shouldKnock_calls env1 (randomCalls w1)
                  (maxPoints (calculatePoints (player2Container w1)))
                  (maxPoints (calculatePoints (player1Container w1)))) as Hc.
    destruct (shouldKnock env1 (randomCalls w1) _ _) as [knock calls].
    cbn [snd] in Hc. rewrite E in Hc.
    destruct knock;
      rewrite randomCalls_delayedCall, randomCalls_set_randomCalls; lia.
Qed.

Lemma opponent_decisions_follow_random_witness :
  player2_draw ambient0 [(sym_hearts, 20); (sym_clubs, 5)] aceShown0
  = player2_draw ambient_one_value [(sym_hearts, 20); (sym_clubs, 5)] aceShown0.
Proof.
  apply (@opponent_decisions_follow_random ambient0 ambient_one_value
           [(sym_hearts, 20); (sym_clubs, 5)] aceShown0).
  vm_compute. reflexivity.
Defined.

(** ** The deal *)

Lemma createDeck_from_app l1 : forall i l2,
  createDeck_from i (l1 ++ l2)
  = createDeck_from i l1 ++ createDeck_from (i + Z.of_nat (length l1)) l2.
Proof.
  induction l1 as [|c l1 IH]; intros i l2; cbn [createDeck_from app length].
  - f_equal. lia.
  - rewrite IH. do 3 f_equal. lia.
Qed.

Lemma sort_insert_last x l :
  (forall y, In y l -> depth x < depth y) ->
  sort_insert depth_before x l = l ++ [x].
Proof.
  induction l as [|y l IH]; intros H; cbn; [reflexivity|].
  unfold depth_before at 1.
  destruct (Z.leb_spec (depth y - depth x) 0) as [Hle|Hgt].
  - specialize (H y (or_introl eq_refl)). lia.
  - f_equal. apply IH. intros z Hz. apply H. now right.
Qed.

Lemma createDeck_from_depth l : forall i s,
  In s (createDeck_from i l) -> i <= depth s.
Proof.
  induction l as [|c l IH]; intros i s; cbn; [intros []|].
  intros [<-|H]; [cbn; lia|]. apply IH in H. lia.
Qed.

Lemma js_sort_createDeck_from l : forall i,
  js_sort depth_before (createDeck_from i l) = rev (createDeck_from i l).
Proof.
  induction l as [|c l IH]; intros i; [reflexivity|].
  unfold js_sort. cbn [createDeck_from fold_right rev].
  change (fold_right (sort_insert depth_before) [] (createDeck_from (i + 1) l))
    with (js_sort depth_before (createDeck_from (i + 1) l)).
  rewrite IH. apply sort_insert_last.
  intros y Hy. apply in_rev in Hy. apply createDeck_from_depth in Hy. cbn. lia.
Qed.

Lemma Suit_eqb_sym a b : Suit_eqb a b = Suit_eqb b a.
Proof. destruct a, b; reflexivity. Qed.
Lemma Rank_eqb_sym a b : Rank_eqb a b = Rank_eqb b a.
Proof. destruct a, b; reflexivity. Qed.
Lemma Card_eqb_sym a b : Card_eqb a b = Card_eqb b a.
Proof. unfold Card_eqb. now rewrite Suit_eqb_sym, Rank_eqb_sym. Qed.

Lemma distinct_app l1 : forall l2,
  distinct (l1 ++ l2) = true ->
  distinct l2 = true
  /\ forall x y, In x l1 -> In y l2 -> Card_eqb x y = false.
Proof.
  induction l1 as [|c l1 IH]; intros l2 H; cbn in *.
  - split; [exact H|]. intros x y [].
  - apply andb_prop in H. destruct H as [Hc Hd].
    destruct (IH _ Hd) as [H2 Hout]. split; [exact H2|].
    intros x y [Hx|Hx] Hy; [subst x|now apply Hout].
    apply negb_true_iff in Hc.
    destruct (Card_eqb c y) eqn:E; [|reflexivity].
    assert (existsb (Card_eqb c) (l1 ++ l2) = true); [|congruence].
    apply existsb_exists. exists y. split; [|exact E].
    apply in_or_app. now right.
Qed.

Lemma container_remove_app_out c l1 : forall l2,
  (forall x, In x l1 -> same_card x c = false) ->
  container_remove c (l1 ++ l2) = l1 ++ container_remove c l2.
Proof.
  induction l1 as [|a l1 IH]; intros l2 H; cbn; [reflexivity|].
  rewrite (H a (or_introl eq_refl)). f_equal. apply IH.
  intros x Hx. apply H. now right.
Qed.

Lemma depth_in_out c d l :
  (forall x, In x l -> same_card x c = false) -> depth_in c d l = l.
Proof.
  unfold depth_in. induction l as [|a l IH]; intros H; cbn; [reflexivity|].
  rewrite (H a (or_introl eq_refl)). f_equal. apply IH.
  intros x Hx. apply H. now right.
Qed.

Lemma depth_in_app c d l1 l2 :
  depth_in c d (l1 ++ l2) = depth_in c d l1 ++ depth_in c d l2.
Proof. apply map_app. Qed.

Lemma createDeck_from_cards l : forall i,
  map cardData (createDeck_from i l) = l.
Proof. induction l as [|c l IH]; intros i; cbn; [reflexivity|]. now rewrite IH. Qed.


Lemma settle_fire env n w w' :
  fire env w = Some w' -> settle env (S n) w = settle env n w'.
Proof. intros H. cbn [settle]. now rewrite H. Qed.



Lemma Suit_eqb_refl a : Suit_eqb a a = true.
Proof. destruct a; reflexivity. Qed.
Lemma Rank_eqb_refl a : Rank_eqb a a = true.
Proof. destruct a; reflexivity. Qed.
Lemma Card_eqb_refl a : Card_eqb a a = true.
Proof. unfold Card_eqb. now rewrite Suit_eqb_refl, Rank_eqb_refl. Qed.

Ltac use_distinct :=
  repeat (cbn [container_remove app map]; unfold same_card;
          cbn [cardData with_depth];
          match goal with
          | H : Card_eqb _ _ = false |- _ => rewrite H
          | |- _ => rewrite Card_eqb_refl
          end).

Lemma distinct7 c1 c2 c3 c4 c5 c6 c7 :
  distinct [c7; c6; c5; c4; c3; c2; c1] = true ->
  forall a b l1 l2 l3, [c7; c6; c5; c4; c3; c2; c1] = l1 ++ a :: l2 ++ b :: l3 ->
  Card_eqb a b = false /\ Card_eqb b a = false.
Proof.
  intros Hd a b l1 l2 l3 E. rewrite E in Hd.
  apply distinct_app in Hd. destruct Hd as [Hd _]. cbn in Hd.
  apply andb_prop in Hd. destruct Hd as [Hd _]. apply negb_true_iff in Hd.
  assert (H : Card_eqb a b = false).
  { destruct (Card_eqb a b) eqn:Eab; [|reflexivity].
    assert (existsb (Card_eqb a) (l2 ++ b :: l3) = true); [|congruence].
    apply existsb_exists. exists b. split; [|exact Eab].
    apply in_or_app. right. now left. }
  split; [exact H|]. now rewrite Card_eqb_sym.
Qed.

Ltac fire_step HR :=
  unfold fire; cbn; unfold dealCard_done; cbn;
  unfold addToPlayer, addToDiscardPile, detach, setupPlayerCard, setDepth,
    moveCardToDiscardPile, dealCard, updateEndTurnButton,
    updateTotalPoints, currentHighestDepth, getHighestDepth; cbn;
  rewrite ?container_remove_app_out by (apply HR; assumption);
  use_distinct;
  rewrite ?depth_in_app; rewrite ?depth_in_out by (apply HR; assumption);
  unfold depth_in; use_distinct; reflexivity.

Lemma deal_trace env n calls rest c1 c2 c3 c4 c5 c6 c7 :
  shuffled env n = rest ++ [c7; c6; c5; c4; c3; c2; c1] ->
  distinct (shuffled env n) = true ->
  exists w1 w2 w3 w4 w5 w6 w7 w8 w9 w10,
    (fire env (create env n calls) = Some w1
     /\ fire env w1 = Some w2 /\ fire env w2 = Some w3
     /\ fire env w3 = Some w4 /\ fire env w4 = Some w5
     /\ fire env w5 = Some w6 /\ fire env w6 = Some w7
     /\ fire env w7 = Some w8 /\ fire env w8 = Some w9
     /\ fire env w9 = Some w10)
    /\ (animationComplete (gameState (create env n calls)) = false
        /\ animationComplete (gameState w1) = false
        /\ animationComplete (gameState w2) = false
        /\ animationComplete (gameState w3) = false
        /\ animationComplete (gameState w4) = false
        /\ animationComplete (gameState w5) = false
        /\ animationComplete (gameState w6) = false
        /\ animationComplete (gameState w7) = false)
    /\ (sizes 3 3 w8 /\ sizes 3 3 w9)
    /\ (map cardData (player1Container w10) = [c1; c3; c5]
        /\ map cardData (player2Container w10) = [c2; c4; c6]
        /\ map cardData (discardPileContainer w10) = [c7]
        /\ map cardData (deckContainer w10) = rest
        /\ pending w10 = [])
    /\ animationComplete (gameState w10) = true
    /\ mustDiscard (gameState w10) = false
    /\ (table w1 = (rest ++ [c7; c6; c5; c4; c3; c2; c1], [], [], [])
        /\ table w2 = (rest ++ [c7; c6; c5; c4; c3; c2], [c1], [], [])
        /\ table w3 = (rest ++ [c7; c6; c5; c4; c3], [c1], [c2], [])
        /\ table w4 = (rest ++ [c7; c6; c5; c4], [c1; c3], [c2], [])
        /\ table w5 = (rest ++ [c7; c6; c5], [c1; c3], [c2; c4], [])
        /\ table w6 = (rest ++ [c7; c6], [c1; c3; c5], [c2; c4], [])
        /\ table w7 = (rest ++ [c7; c6], [c1; c3; c5], [c2; c4], [])
        /\ table w8 = (rest ++ [c7], [c1; c3; c5], [c2; c4; c6], [])
        /\ table w9 = (rest, [c1; c3; c5], [c2; c4; c6], [c7]))
    /\ (session w1 = n /\ session w2 = n /\ session w3 = n
        /\ session w4 = n /\ session w5 = n /\ session w6 = n
        /\ session w7 = n /\ session w8 = n /\ session w9 = n
        /\ session w10 = n)
    /\ (gameState w10 = readyState
        /\ knockButtonInteractive w10 = true
        /\ endTurnButtonInteractive w10 = true
        /\ restartButton w10 = false
        /\ resultText w10 = None
        /\ player1Points w10
           = maxPoints (calculatePoints (player1Container w10))
        /\ randomCalls w10 = (4 + calls)%nat)
    /\ (inFlight (pending w1) = [] /\ inFlight (pending w2) = []
        /\ inFlight (pending w3) = [] /\ inFlight (pending w4) = []
        /\ inFlight (pending w5) = [] /\ inFlight (pending w6) = []
        /\ inFlight (pending w7) = [] /\ inFlight (pending w8) = []
        /\ inFlight (pending w9) = [])
    /\ (deal_queue (pending (create env n calls)) = true
        /\ deal_queue (pending w1) = true /\ deal_queue (pending w2) = true
        /\ deal_queue (pending w3) = true /\ deal_queue (pending w4) = true
        /\ deal_queue (pending w5) = true /\ deal_queue (pending w6) = true
        /\ deal_queue (pending w7) = true /\ deal_queue (pending w8) = true
        /\ deal_queue (pending w9) = true).
Proof.
  intros Hs Hd.
  rewrite Hs in Hd. apply distinct_app in Hd. destruct Hd as [Hd Hout].
  pose proof (@distinct7 _ _ _ _ _ _ _ Hd) as P.
  destruct (P c7 c6 [] [] [c5;c4;c3;c2;c1] eq_refl) as [H76 H67].
  destruct (P c7 c5 [] [c6] [c4;c3;c2;c1] eq_refl) as [H75 H57].
  destruct (P c7 c4 [] [c6;c5] [c3;c2;c1] eq_refl) as [H74 H47].
  destruct (P c7 c3 [] [c6;c5;c4] [c2;c1] eq_refl) as [H73 H37].
  destruct (P c7 c2 [] [c6;c5;c4;c3] [c1] eq_refl) as [H72 H27].
  destruct (P c7 c1 [] [c6;c5;c4;c3;c2] [] eq_refl) as [H71 H17].
  destruct (P c6 c5 [c7] [] [c4;c3;c2;c1] eq_refl) as [H65 H56].
  destruct (P c6 c4 [c7] [c5] [c3;c2;c1] eq_refl) as [H64 H46].
  destruct (P c6 c3 [c7] [c5;c4] [c2;c1] eq_refl) as [H63 H36].
  destruct (P c6 c2 [c7] [c5;c4;c3] [c1] eq_refl) as [H62 H26].
  destruct (P c6 c1 [c7] [c5;c4;c3;c2] [] eq_refl) as [H61 H16].
  destruct (P c5 c4 [c7;c6] [] [c3;c2;c1] eq_refl) as [H54 H45].
  destruct (P c5 c3 [c7;c6] [c4] [c2;c1] eq_refl) as [H53 H35].
  destruct (P c5 c2 [c7;c6] [c4;c3] [c1] eq_refl) as [H52 H25].
  destruct (P c5 c1 [c7;c6] [c4;c3;c2] [] eq_refl) as [H51 H15].
  destruct (P c4 c3 [c7;c6;c5] [] [c2;c1] eq_refl) as [H43 H34].
  destruct (P c4 c2 [c7;c6;c5] [c3] [c1] eq_refl) as [H42 H24].
  destruct (P c4 c1 [c7;c6;c5] [c3;c2] [] eq_refl) as [H41 H14].
  destruct (P c3 c2 [c7;c6;c5;c4] [] [c1] eq_refl) as [H32 H23].
  destruct (P c3 c1 [c7;c6;c5;c4] [c2] [] eq_refl) as [H31 H13].
  destruct (P c2 c1 [c7;c6;c5;c4;c3] [] [] eq_refl) as [H21 H12].
  clear P Hd.
  assert (HR : forall c d, In c [c7; c6; c5; c4; c3; c2; c1] ->
                forall x, In x (createDeck_from 0 rest) ->
                           same_card x {| cardData := c; depth := d |} = false).
  { intros c d Hc x Hx. apply Hout; [|exact Hc].
    rewrite <- (createDeck_from_cards rest 0). now apply in_map. }
  unfold create, createDeck.
  assert (Hsort : js_sort depth_before (createDeck_from 0 (shuffled env n))
                  = rev (createDeck_from 0 (shuffled env n)))
    by apply js_sort_createDeck_from.
  rewrite Hs, createDeck_from_app, rev_app_distr in Hsort.
  rewrite Hs, createDeck_from_app.
  cbn [createDeck_from rev app] in Hsort |- *.
  set (R := createDeck_from 0 rest) in *.
  set (d1 := 0 + Z.of_nat (length rest) + 1 + 1 + 1 + 1 + 1 + 1) in *.
  set (d2 := 0 + Z.of_nat (length rest) + 1 + 1 + 1 + 1 + 1) in *.
  set (d3 := 0 + Z.of_nat (length rest) + 1 + 1 + 1 + 1) in *.
  set (d4 := 0 + Z.of_nat (length rest) + 1 + 1 + 1) in *.
  set (d5 := 0 + Z.of_nat (length rest) + 1 + 1) in *.
  set (d6 := 0 + Z.of_nat (length rest) + 1) in *.
  set (d7 := 0 + Z.of_nat (length rest)) in *.
  assert (HRc : map cardData R = rest) by apply createDeck_from_cards.
  clearbody d1 d2 d3 d4 d5 d6 d7 R.
  assert (In1 : In c1 [c7; c6; c5; c4; c3; c2; c1]) by (cbn; tauto).
  assert (In2 : In c2 [c7; c6; c5; c4; c3; c2; c1]) by (cbn; tauto).
  assert (In3 : In c3 [c7; c6; c5; c4; c3; c2; c1]) by (cbn; tauto).
  assert (In4 : In c4 [c7; c6; c5; c4; c3; c2; c1]) by (cbn; tauto).
  assert (In5 : In c5 [c7; c6; c5; c4; c3; c2; c1]) by (cbn; tauto).
  assert (In6 : In c6 [c7; c6; c5; c4; c3; c2; c1]) by (cbn; tauto).
  assert (In7 : In c7 [c7; c6; c5; c4; c3; c2; c1]) by (cbn; tauto).
  do 10 eexists. split.
  - split.
    { unfold fire, updateEndTurnButton; cbn; unfold dealCards; cbn;
        rewrite Hsort; unfold dealCard; cbn; reflexivity. }
    do 8 (split; [fire_step HR|]).
    fire_step HR.
  - unfold sizes, table, readyState, inFlight, deal_queue. cbn.
    rewrite ?map_app, ?HRc. cbn. rewrite ?app_nil_r. repeat split.
Qed.

Lemma deal_counterexample :
  exists h1 h2 d r,
    spec_dealInitial (rev (shuffled ambient0 0)) = Some (h1, h2, d, r)
    /\ In (mkCard RK Spades) h1
    /\ ~ In (mkCard RK Spades) (map cardData (player1Container dealt0))
    /\ In (mkCard RK Spades) (map cardData (player2Container dealt0)).
Proof.
  eexists _, _, _, _. split; [vm_compute; reflexivity|].
  split; [right; left; reflexivity|].
  split; [|vm_compute; tauto].
  vm_compute. intros [H|[H|[H|[]]]]; discriminate H.
Qed.

(** C3 (amended): the deal hands the cards out alternately.  With [c1] the
    top card of the shuffled deck, [c2] the next one and so on, hand 1
    receives [c1], [c3], [c5], hand 2 receives [c2], [c4], [c6], the seventh
    card [c7] opens the discard pile, and the other cards stay in the deck
    in their order. *)
Theorem dealCards_alternates env rest c1 c2 c3 c4 c5 c6 c7 :
  shuffled env 0 = rest ++ [c7; c6; c5; c4; c3; c2; c1] ->
  distinct (shuffled env 0) = true ->
  map cardData (player1Container (settle env 10 (create env 0 0)))
  = [c1; c3; c5]
  /\ map cardData (player2Container (settle env 10 (create env 0 0)))
     = [c2; c4; c6]
  /\ map cardData (discardPileContainer (settle env 10 (create env 0 0)))
     = [c7]
  /\ map cardData (deckContainer (settle env 10 (create env 0 0))) = rest
  /\ pending (settle env 10 (create env 0 0)) = [].
Proof.
  intros Hs Hd.
  destruct (deal_trace env 0 0 rest c1 c2 c3 c4 c5 c6 c7 Hs Hd)
    as (w1 & w2 & w3 & w4 & w5 & w6 & w7 & w8 & w9 & w10
        & (F0 & F1 & F2 & F3 & F4 & F5 & F6 & F7 & F8 & F9)
        & _ & _ & H & _).
  repeat (erewrite settle_fire by eassumption). cbn [settle].
  exact H.
Qed.

Lemma dealCards_alternates_witness :
  map cardData (player1Container (settle ambient0 10 (create ambient0 0 0)))
  = [mkCard RA Spades; mkCard RQ Spades; mkCard R10 Spades]
  /\ map cardData (player2Container (settle ambient0 10 (create ambient0 0 0)))
     = [mkCard RK Spades; mkCard RJ Spades; mkCard R9 Spades]
  /\ map cardData (discardPileContainer (settle ambient0 10 (create ambient0 0 0)))
     = [mkCard R8 Spades]
  /\ map cardData (deckContainer (settle ambient0 10 (create ambient0 0 0)))
     = firstn 45 newDeck
  /\ pending (settle ambient0 10 (create ambient0 0 0)) = [].
Proof.
  apply (@dealCards_alternates ambient0 (firstn 45 newDeck)
           (mkCard RA Spades) (mkCard RK Spades) (mkCard RQ Spades)
           (mkCard RJ Spades) (mkCard R10 Spades) (mkCard R9 Spades)
           (mkCard R8 Spades)).
  - vm_compute; reflexivity.
  - vm_compute; reflexivity.
Defined.

(** ** The discard choice and the draw decision *)

Lemma Suit_eqb_eq a b : Suit_eqb a b = true <-> a = b.
Proof. destruct a, b; cbn; split; intros H; congruence. Qed.

Lemma Suit_eqb_neq a b : Suit_eqb a b = false <-> a <> b.
Proof.
  rewrite <- Suit_eqb_eq. destruct (Suit_eqb a b); split; congruence.
Qed.

Lemma mem_suit s l : existsb (Suit_eqb s) l = true <-> In s l.
Proof.
  rewrite existsb_exists. split.
  - intros (x & Hx & E). apply Suit_eqb_eq in E. now subst.
  - intros H. exists s. split; [exact H|]. now apply Suit_eqb_eq.
Qed.

Lemma suitsOf_snoc cards x :
  suitsOf (cards ++ [x])
  = if existsb (Suit_eqb (suit (cardData x))) (suitsOf cards)
    then suitsOf cards else suitsOf cards ++ [suit (cardData x)].
Proof. unfold suitsOf. now rewrite fold_left_app. Qed.

Lemma suitsOf_spec cards :
  NoDup (suitsOf cards)
  /\ forall s, In s (suitsOf cards) <-> exists c, In c cards /\ suit (cardData c) = s.
Proof.
  induction cards as [|x cards [IHn IHi]] using rev_ind.
  - split; [constructor|]. intros s. split; [intros []|intros (c & [] & _)].
  - rewrite suitsOf_snoc.
    destruct (existsb _ _) eqn:E.
    + split; [exact IHn|]. intros s. rewrite IHi. split.
      * intros (c & Hc & Hs). exists c. split; [apply in_or_app; now left|exact Hs].
      * intros (c & Hc & Hs). apply in_app_or in Hc. destruct Hc as [Hc|[<-|[]]].
        -- now exists c.
        -- apply IHi. subst s. now apply mem_suit.
    + assert (Hn : ~ In (suit (cardData x)) (suitsOf cards)).
      { intros H. apply mem_suit in H. congruence. }
      split.
      * apply NoDup_app; [exact IHn|repeat constructor; intros []|].
        intros a Ha [<-|[]]. contradiction.
      * intros s. rewrite in_app_iff, IHi. cbn. split.
        -- intros [(c & Hc & Hs)|[<-|[]]].
           ++ exists c. split; [apply in_or_app; now left|exact Hs].
           ++ exists x. split; [apply in_or_app; right; now left|reflexivity].
        -- intros (c & Hc & Hs). apply in_app_or in Hc.
           destruct Hc as [Hc|[<-|[]]]; [left; now exists c|right; now left].
Qed.

Section ObjMap.
Variables K V : Type.
Variable eqbK : K -> K -> bool.
Variable key : Suit -> K.
Hypothesis eqbK_key : forall s t, eqbK (key s) (key t) = Suit_eqb s t.
Variable f : Suit -> V.

Lemma obj_get_map s F :
  obj_get eqbK (key s) (map (fun t => (key t, f t)) F)
  = if existsb (Suit_eqb s) F then Some (f s) else None.
Proof.
  induction F as [|t F IH]; cbn; [reflexivity|].
  rewrite eqbK_key.
  destruct (Suit_eqb s t) eqn:E; cbn; [|exact IH].
  apply Suit_eqb_eq in E. now subst.
Qed.

Lemma obj_set_map_in s v F g :
  In s F -> NoDup F ->
  g s = v -> (forall t, t <> s -> g t = f t) ->
  obj_set eqbK (key s) v (map (fun t => (key t, f t)) F)
  = map (fun t => (key t, g t)) F.
Proof.
  intros Hin Hnd Hs Ho. induction F as [|t F IH]; [destruct Hin|].
  cbn. inversion Hnd as [|? ? Hnt Hnd']; subst. rewrite eqbK_key.
  destruct (Suit_eqb s t) eqn:E.
  - apply Suit_eqb_eq in E. subst t. f_equal.
    apply map_ext_in. intros a Ha. f_equal. symmetry. apply Ho.
    intros ->. contradiction.
  - apply Suit_eqb_neq in E. destruct Hin as [->|Hin]; [congruence|].
    rewrite (Ho t) by congruence. f_equal. now apply IH.
Qed.

Lemma obj_set_map_out s v F g :
  ~ In s F ->
  g s = v -> (forall t, t <> s -> g t = f t) ->
  obj_set eqbK (key s) v (map (fun t => (key t, f t)) F)
  = map (fun t => (key t, g t)) (F ++ [s]).
Proof.
  intros Hin Hs Ho. induction F as [|t F IH]; cbn.
  - now rewrite Hs.
  - rewrite eqbK_key. destruct (Suit_eqb s t) eqn:E.
    + apply Suit_eqb_eq in E. subst t. exfalso. apply Hin. now left.
    + apply Suit_eqb_neq in E. rewrite (Ho t) by congruence. f_equal.
      apply IH. intros H. apply Hin. now right.
Qed.
End ObjMap.

Lemma Suit_key s t : Suit_eqb ((fun x : Suit => x) s) ((fun x : Suit => x) t) = Suit_eqb s t.
Proof. reflexivity. Qed.

Lemma Symbol_key s t :
  Symbol_eqb (getSuitSymbol s) (getSuitSymbol t) = Suit_eqb s t.
Proof. destruct s, t; reflexivity. Qed.

Section BySuit.
Variable V : Type.
Variable f : Suit -> V.

Lemma suit_get s F :
  obj_get Suit_eqb s (map (fun t => (t, f t)) F)
  = if existsb (Suit_eqb s) F then Some (f s) else None.
Proof. exact (obj_get_map Suit_eqb (fun x => x) Suit_key f s F). Qed.

Lemma suit_set_in s v F g :
  In s F -> NoDup F -> g s = v -> (forall t, t <> s -> g t = f t) ->
  obj_set Suit_eqb s v (map (fun t => (t, f t)) F) = map (fun t => (t, g t)) F.
Proof. exact (@obj_set_map_in _ _ Suit_eqb (fun x => x) Suit_key f s v F g). Qed.

Lemma suit_set_out s v F g :
  ~ In s F -> g s = v -> (forall t, t <> s -> g t = f t) ->
  obj_set Suit_eqb s v (map (fun t => (t, f t)) F)
  = map (fun t => (t, g t)) (F ++ [s]).
Proof. exact (@obj_set_map_out _ _ Suit_eqb (fun x => x) Suit_key f s v F g). Qed.

Lemma symbol_get s F :
  obj_get Symbol_eqb (getSuitSymbol s) (map (fun t => (getSuitSymbol t, f t)) F)
  = if existsb (Suit_eqb s) F then Some (f s) else None.
Proof. exact (obj_get_map Symbol_eqb getSuitSymbol Symbol_key f s F). Qed.

Lemma symbol_set_in s v F g :
  In s F -> NoDup F -> g s = v -> (forall t, t <> s -> g t = f t) ->
  obj_set Symbol_eqb (getSuitSymbol s) v
          (map (fun t => (getSuitSymbol t, f t)) F)
  = map (fun t => (getSuitSymbol t, g t)) F.
Proof.
  exact (@obj_set_map_in _ _ Symbol_eqb getSuitSymbol Symbol_key f s v F g).
Qed.

Lemma symbol_set_out s v F g :
  ~ In s F -> g s = v -> (forall t, t <> s -> g t = f t) ->
  obj_set Symbol_eqb (getSuitSymbol s) v
          (map (fun t => (getSuitSymbol t, f t)) F)
  = map (fun t => (getSuitSymbol t, g t)) (F ++ [s]).
Proof.
  exact (@obj_set_map_out _ _ Symbol_eqb getSuitSymbol Symbol_key f s v F g).
Qed.
End BySuit.

Lemma has_suit_own x : has_suit (suit (cardData x)) x = true.
Proof. unfold has_suit. now apply Suit_eqb_eq. Qed.

Lemma has_suit_other t x : t <> suit (cardData x) -> has_suit t x = false.
Proof. intros H. unfold has_suit. apply Suit_eqb_neq. congruence. Qed.

Lemma filter_snoc (A : Type) (p : A -> bool) l x :
  filter p (l ++ [x]) = filter p l ++ (if p x then [x] else []).
Proof. rewrite filter_app. cbn. now destruct (p x). Qed.

Lemma entriesOf_snoc t cards x :
  entriesOf t (cards ++ [x])
  = entriesOf t cards ++ (if has_suit t x then [(x, getCardValue x)] else []).
Proof.
  unfold entriesOf. rewrite filter_snoc, map_app. now destruct (has_suit t x).
Qed.

Lemma sum_app l1 l2 :
  fold_right Z.add 0 (l1 ++ l2) = fold_right Z.add 0 l1 + fold_right Z.add 0 l2.
Proof. induction l1 as [|a l1 IH]; cbn; [reflexivity|]. rewrite IH. lia. Qed.

Lemma suitTotal_snoc t cards x :
  suitTotal t (cards ++ [x])
  = suitTotal t cards + (if has_suit t x then getCardValue x else 0).
Proof.
  unfold suitTotal. rewrite filter_snoc, map_app, sum_app.
  destruct (has_suit t x); cbn; lia.
Qed.

Lemma unseen_suit s cards :
  ~ In s (suitsOf cards) -> filter (has_suit s) cards = [].
Proof.
  intros H. destruct (filter (has_suit s) cards) as [|c l] eqn:E; [reflexivity|].
  exfalso. apply H. apply (proj2 (suitsOf_spec cards)).
  assert (Hc : In c (filter (has_suit s) cards)) by (rewrite E; now left).
  apply filter_In in Hc. destruct Hc as [Hc Hs]. exists c. split; [exact Hc|].
  now apply Suit_eqb_eq.
Qed.

Lemma suitGroups_spec cards :
  suitGroups cards
  = (map (fun s => (s, entriesOf s cards)) (suitsOf cards),
     map (fun s => (s, suitTotal s cards)) (suitsOf cards)).
Proof.
  induction cards as [|x cards IH] using rev_ind; [reflexivity|].
  unfold suitGroups in *. rewrite fold_left_app, IH. cbn [fold_left].
  unfold group_step. rewrite suitsOf_snoc.
  set (s := suit (cardData x)). set (v := getCardValue x).
  destruct (suitsOf_spec cards) as [Hnd _].
  assert (Hown : has_suit s x = true) by apply has_suit_own.
  assert (Hoth : forall t, t <> s -> has_suit t x = false)
    by (intros t Ht; now apply has_suit_other).
  rewrite !suit_get.
  destruct (existsb (Suit_eqb s) (suitsOf cards)) eqn:E.
  - assert (Hin : In s (suitsOf cards)) by now apply mem_suit.
    rewrite suit_get, E. f_equal.
    + apply suit_set_in; try assumption.
      * rewrite entriesOf_snoc. now rewrite Hown.
      * intros t Ht. rewrite entriesOf_snoc, Hoth by exact Ht.
        apply app_nil_r.
    + apply suit_set_in; try assumption.
      * rewrite suitTotal_snoc, Hown.
        fold v. destruct (suitTotal s cards); reflexivity.
      * intros t Ht. rewrite suitTotal_snoc, Hoth by exact Ht. lia.
  - assert (Hout : ~ In s (suitsOf cards)).
    { intros H. apply mem_suit in H. congruence. }
    assert (Hnd' : NoDup (suitsOf cards ++ [s])).
    { apply NoDup_app; [exact Hnd|repeat constructor; intros []|].
      intros a Ha [<-|[]]. contradiction. }
    assert (He : entriesOf s cards = []).
    { unfold entriesOf. now rewrite unseen_suit. }
    assert (Ht : suitTotal s cards = 0).
    { unfold suitTotal. now rewrite unseen_suit. }
    rewrite (@suit_set_out _ (fun t => entriesOf t cards) s []
               (suitsOf cards) (fun t => entriesOf t cards)); auto.
    rewrite suit_get.
    replace (existsb (Suit_eqb s) (suitsOf cards ++ [s])) with true
      by (symmetry; apply mem_suit, in_or_app; right; now left).
    f_equal.
    + apply suit_set_in; try assumption.
      * apply in_or_app. right. now left.
      * rewrite entriesOf_snoc, Hown, He. reflexivity.
      * intros t Hts. rewrite entriesOf_snoc, Hoth by exact Hts.
        apply app_nil_r.
    + apply suit_set_out; try assumption.
      * rewrite suitTotal_snoc, Hown, Ht. reflexivity.
      * intros t Hts. rewrite suitTotal_snoc, Hoth by exact Hts. lia.
Qed.

Lemma first_min_map (A B : Type) (g : A -> B) (val : B -> Z) y l :
  first_min val y (map g l) ->
  exists x, y = g x /\ first_min (fun a => val (g a)) x l.
Proof.
  intros (l1 & l2 & E & H1 & H2).
  apply map_eq_app in E. destruct E as (m1 & m2' & -> & <- & E2).
  apply map_eq_cons in E2. destruct E2 as (x & m2 & -> & <- & <-).
  exists x. split; [reflexivity|]. exists m1, m2. split; [reflexivity|].
  split; intros a Ha; [apply H1|apply H2]; now apply in_map.
Qed.

Lemma first_max_map (A B : Type) (g : A -> B) (val : B -> Z) y l :
  first_max val y (map g l) ->
  exists x, y = g x /\ first_max (fun a => val (g a)) x l.
Proof.
  intros (l1 & l2 & E & H1 & H2).
  apply map_eq_app in E. destruct E as (m1 & m2' & -> & <- & E2).
  apply map_eq_cons in E2. destruct E2 as (x & m2 & -> & <- & <-).
  exists x. split; [reflexivity|]. exists m1, m2. split; [reflexivity|].
  split; intros a Ha; [apply H1|apply H2]; now apply in_map.
Qed.

Lemma strongest_fold L : forall best high,
  (fold_left strongest_step L (best, high) = (best, high)
   /\ forall e, In e L -> snd e <= high)
  \/ (exists e,
         fold_left strongest_step L (best, high) = (Some (fst e), snd e)
         /\ high < snd e /\ first_max snd e L).
Proof.
  induction L as [|a L IH]; intros best high; cbn [fold_left].
  - left. split; [reflexivity|intros e []].
  - change (strongest_step (best, high) a)
      with (if snd a >? high then (Some (fst a), snd a) else (best, high)).
    destruct (Z.gtb_spec (snd a) high) as [Hgt|Hle].
    + right. destruct (IH (Some (fst a)) (snd a)) as [[E H]|(e & E & Hlt & l1 & l2 & -> & H1 & H2)].
      * exists a. split; [exact E|]. split; [lia|].
        exists [], L. split; [reflexivity|]. split; [intros y []|exact H].
      * exists e. split; [exact E|]. split; [lia|].
        exists (a :: l1), l2. split; [reflexivity|].
        split; [|exact H2]. intros y [<-|Hy]; [exact Hlt|now apply H1].
    + destruct (IH best high) as [[E H]|(e & E & Hlt & l1 & l2 & -> & H1 & H2)].
      * left. split; [exact E|]. intros e [<-|He]; [exact Hle|now apply H].
      * right. exists e. split; [exact E|]. split; [exact Hlt|].
        exists (a :: l1), l2. split; [reflexivity|].
        split; [|exact H2]. intros y [<-|Hy]; [lia|now apply H1].
Qed.

Lemma below_lt v l u : below v l = true -> u < v -> below u l = true.
Proof. destruct l as [l|]; cbn; [|reflexivity]. rewrite !Z.ltb_lt. lia. Qed.

Lemma lowest_fold (E : list Entry) : forall worst lowest,
  (fold_left lowest_step E (worst, lowest) = (worst, lowest)
   /\ forall e, In e E -> below (snd e) lowest = false)
  \/ (exists e,
         fold_left lowest_step E (worst, lowest) = (Some (fst e), Some (snd e))
         /\ below (snd e) lowest = true /\ first_min snd e E).
Proof.
  induction E as [|a E IH]; intros worst lowest; cbn [fold_left].
  - left. split; [reflexivity|intros e []].
  - change (lowest_step (worst, lowest) a)
      with (if below (snd a) lowest then (Some (fst a), Some (snd a))
            else (worst, lowest)).
    destruct (below (snd a) lowest) eqn:Hb.
    + right.
      destruct (IH (Some (fst a)) (Some (snd a)))
        as [[Eq H]|(e & Eq & Hlt & l1 & l2 & -> & H1 & H2)].
      * exists a. split; [exact Eq|]. split; [exact Hb|].
        exists [], E. split; [reflexivity|]. split; [intros y []|].
        intros y Hy. specialize (H y Hy). cbn in H. apply Z.ltb_ge in H. exact H.
      * cbn in Hlt. apply Z.ltb_lt in Hlt.
        exists e. split; [exact Eq|]. split; [now apply (below_lt _ Hb)|].
        exists (a :: l1), l2. split; [reflexivity|].
        split; [|exact H2]. intros y [<-|Hy]; [exact Hlt|now apply H1].
    + destruct (IH worst lowest) as [[Eq H]|(e & Eq & Hlt & l1 & l2 & -> & H1 & H2)].
      * left. split; [exact Eq|]. intros e [<-|He]; [exact Hb|now apply H].
      * right. exists e. split; [exact Eq|]. split; [exact Hlt|].
        exists (a :: l1), l2. split; [reflexivity|].
        split; [|exact H2]. intros y [<-|Hy]; [|now apply H1].
        destruct lowest as [l|]; [|discriminate]. cbn in Hb, Hlt.
        apply Z.ltb_ge in Hb. apply Z.ltb_lt in Hlt. lia.
Qed.

Lemma others_fold strongest (G : JsObject Suit (list Entry)) : forall acc,
  fold_left (others_step strongest) G acc
  = fold_left lowest_step
      (flat_map (fun g => if suit_differs (fst g) strongest then snd g else [])
                G) acc.
Proof.
  induction G as [|g G IH]; intros acc; cbn [fold_left flat_map]; [reflexivity|].
  rewrite fold_left_app, IH. unfold others_step at 1.
  destruct (suit_differs (fst g) strongest); reflexivity.
Qed.

Lemma js_sort_head (E : list Entry) :
  E <> [] ->
  exists e rest, js_sort entry_before E = e :: rest /\ first_min snd e E.
Proof.
  induction E as [|a E IH]; intros Hne; [congruence|].
  unfold js_sort. cbn [fold_right].
  change (fold_right (sort_insert entry_before) [] E)
    with (js_sort entry_before E).
  destruct E as [|b E].
  - exists a, []. split; [reflexivity|].
    exists [], []. split; [reflexivity|]. split; intros y [].
  - destruct IH as (h & rest & -> & l1 & l2 & El & H1 & H2); [discriminate|].
    cbn [sort_insert]. unfold entry_before at 1.
    destruct (Z.leb_spec (snd a - snd h) 0) as [Hle|Hgt].
    + exists a, (h :: rest). split; [reflexivity|].
      exists [], (b :: E). split; [reflexivity|]. split; [intros y []|].
      intros y Hy. rewrite El in Hy. apply in_app_or in Hy.
      destruct Hy as [Hy|[<-|Hy]];
        [specialize (H1 y Hy)| |specialize (H2 y Hy)]; lia.
    + exists h, (sort_insert entry_before a rest). split; [reflexivity|].
      exists (a :: l1), l2. split; [now rewrite El|].
      split; [|exact H2]. intros y [<-|Hy]; [lia|now apply H1].
Qed.

Lemma getCardValue_pos c : 0 < getCardValue c.
Proof. unfold getCardValue. destruct (rank (cardData c)); reflexivity. Qed.

Lemma sum_values_pos l : l <> [] -> 0 < fold_right Z.add 0 (map getCardValue l).
Proof.
  assert (H : forall l, 0 <= fold_right Z.add 0 (map getCardValue l)).
  { clear l. induction l as [|c l IH]; cbn; [lia|].
    pose proof (getCardValue_pos c). lia. }
  destruct l as [|c l]; [congruence|]. intros _. cbn.
  pose proof (getCardValue_pos c). specialize (H l). lia.
Qed.

Lemma suitTotal_pos s cards : In s (suitsOf cards) -> 0 < suitTotal s cards.
Proof.
  intros H. apply (proj2 (suitsOf_spec cards)) in H.
  destruct H as (c & Hc & Hs). unfold suitTotal. apply sum_values_pos.
  intros E. assert (Hin : In c (filter (has_suit s) cards)).
  { apply filter_In. split; [exact Hc|]. unfold has_suit. now apply Suit_eqb_eq. }
  rewrite E in Hin. destruct Hin.
Qed.

Lemma outside_filter s0 t cards :
  outside s0 (filter (has_suit t) cards)
  = if Suit_eqb t s0 then [] else filter (has_suit t) cards.
Proof.
  unfold outside. induction cards as [|c cards IH]; cbn.
  - now destruct (Suit_eqb t s0).
  - destruct (has_suit t c) eqn:Ht; [|exact IH]. cbn. rewrite IH.
    unfold has_suit in *. apply Suit_eqb_eq in Ht. rewrite Ht.
    destruct (Suit_eqb t s0); reflexivity.
Qed.

Lemma others_entries s0 cards F :
  flat_map (fun g : Suit * list Entry =>
              if suit_differs (fst g) (Some s0) then snd g else [])
           (map (fun s => (s, entriesOf s cards)) F)
  = map (fun c => (c, getCardValue c))
        (outside s0 (flat_map (fun s => filter (has_suit s) cards) F)).
Proof.
  induction F as [|t F IH]; [reflexivity|].
  cbn [map flat_map fst snd]. rewrite IH.
  unfold outside at 2. rewrite filter_app, map_app.
  fold (outside s0 (filter (has_suit t) cards)).
  fold (outside s0 (flat_map (fun s => filter (has_suit s) cards) F)).
  rewrite outside_filter. unfold suit_differs.
  destruct (Suit_eqb t s0); reflexivity.
Qed.

Lemma in_groupedBySuit c cards : In c (groupedBySuit cards) <-> In c cards.
Proof.
  unfold groupedBySuit. rewrite in_flat_map. split.
  - intros (s & _ & H). apply filter_In in H. tauto.
  - intros H. exists (suit (cardData c)). split.
    + apply (proj2 (suitsOf_spec cards)). now exists c.
    + apply filter_In. split; [exact H|apply has_suit_own].
Qed.

Lemma outside_nil s l : outside s l = [] <-> forall c, In c l -> has_suit s c = true.
Proof.
  unfold outside. split.
  - intros E c Hc. destruct (has_suit s c) eqn:Hs; [reflexivity|].
    assert (Hin : In c (filter (fun c => negb (has_suit s c)) l)).
    { apply filter_In. split; [exact Hc|]. now rewrite Hs. }
    rewrite E in Hin. destruct Hin.
  - intros H. induction l as [|c l IH]; [reflexivity|]. cbn.
    rewrite (H c (or_introl eq_refl)). cbn. apply IH.
    intros x Hx. apply H. now right.
Qed.

Lemma outside_grouped_nil s cards :
  outside s (groupedBySuit cards) = [] <-> outside s cards = [].
Proof.
  rewrite !outside_nil. split; intros H c Hc; apply H; now apply in_groupedBySuit.
Qed.

Lemma filter_all (A : Type) (p : A -> bool) l :
  (forall x, In x l -> p x = true) -> filter p l = l.
Proof.
  induction l as [|a l IH]; intros H; [reflexivity|]. cbn.
  rewrite (H a (or_introl eq_refl)). f_equal. apply IH.
  intros x Hx. apply H. now right.
Qed.

Lemma strongestSuit_first cards :
  cards <> [] ->
  exists s, strongestSuit cards = Some s /\ strongest_first s cards.
Proof.
  intros Hne. unfold strongestSuit, strongestSuit_in.
  rewrite suitGroups_spec. cbn [snd].
  destruct (strongest_fold
              (map (fun s => (s, suitTotal s cards)) (suitsOf cards)) None 0)
    as [[_ H]|(e & -> & _ & Hmax)].
  - exfalso. destruct cards as [|c cards]; [congruence|].
    assert (Hs : In (suit (cardData c)) (suitsOf (c :: cards))).
    { apply (proj2 (suitsOf_spec (c :: cards))). exists c. split; [now left|reflexivity]. }
    pose proof (suitTotal_pos _ _ Hs) as Hp.
    specialize (H (suit (cardData c), suitTotal (suit (cardData c)) (c :: cards))).
    cbn [snd] in H. assert (suitTotal (suit (cardData c)) (c :: cards) <= 0); [|lia].
    apply H. apply in_map_iff. now exists (suit (cardData c)).
  - apply first_max_map in Hmax. destruct Hmax as (s & -> & Hmax).
    exists s. split; [reflexivity|exact Hmax].
Qed.

Lemma findWorst_lowest cards :
  (3 < length cards)%nat ->
  exists s c,
    strongestSuit cards = Some s /\ strongest_first s cards
    /\ findWorstCardConsideringSuits cards = Some c
    /\ (outside s cards <> [] -> first_lowest c (outside s (groupedBySuit cards)))
    /\ (outside s cards = [] -> first_lowest c cards).
Proof.
  intros Hlen.
  assert (Hne : cards <> []) by (intros ->; cbn in Hlen; lia).
  destruct (strongestSuit_first Hne) as (s & Hs & Hfirst).
  exists s.
  assert (Hin : In s (suitsOf cards)).
  { destruct Hfirst as (l1 & l2 & -> & _). apply in_or_app. right. now left. }
  cut (exists c,
          findWorstCardConsideringSuits cards = Some c
          /\ (outside s cards <> [] ->
              first_lowest c (outside s (groupedBySuit cards)))
          /\ (outside s cards = [] -> first_lowest c cards)).
  { intros (c & H1 & H2 & H3). exists c. repeat split; assumption. }
  unfold findWorstCardConsideringSuits.
  replace (length cards <=? 3)%nat with false
    by (symmetry; apply Nat.leb_gt; exact Hlen).
  unfold strongestSuit in Hs. rewrite suitGroups_spec in *. cbn [snd] in Hs.
  rewrite Hs, others_fold, others_entries.
  fold (groupedBySuit cards).
  destruct (lowest_fold
              (map (fun c => (c, getCardValue c))
                   (outside s (groupedBySuit cards))) None None)
    as [[-> H]|(e & -> & _ & Hmin)].
  - assert (Hnil : outside s (groupedBySuit cards) = []).
    { destruct (outside s (groupedBySuit cards)) as [|c l]; [reflexivity|].
      specialize (H (c, getCardValue c) (or_introl eq_refl)). discriminate H. }
    apply (proj1 (outside_grouped_nil s cards)) in Hnil.
    rewrite suit_get.
    replace (existsb (Suit_eqb s) (suitsOf cards)) with true
      by (symmetry; now apply mem_suit).
    assert (Hall : filter (has_suit s) cards = cards).
    { apply filter_all. now apply outside_nil. }
    unfold entriesOf. rewrite Hall.
    destruct (@js_sort_head (map (fun c => (c, getCardValue c)) cards))
      as (e & rest & -> & Hmin).
    { destruct cards; [congruence|discriminate]. }
    apply first_min_map in Hmin. destruct Hmin as (c & -> & Hmin).
    exists c. split; [reflexivity|]. split; [intros Hc; contradiction|].
    intros _. exact Hmin.
  - apply first_min_map in Hmin. destruct Hmin as (c & -> & Hmin).
    exists c. split; [reflexivity|]. split; [intros _; exact Hmin|].
    intros Hnil. apply (proj2 (outside_grouped_nil s cards)) in Hnil.
    rewrite Hnil in Hmin.
    destruct Hmin as (l1 & l2 & E & _). destruct l1; discriminate E.
Qed.

(** C4 (amended): for every hand of more than three cards,
    [findWorstCardConsideringSuits] returns a card.  With [s] the strongest
    suit (highest total, a tie going to the suit met first), it is the
    lowest card outside [s], a tie going to the first such card in the
    order of the [suitCards] dictionary (suits as first met, then hand
    order); if every card is of suit [s] it is the first lowest card of the
    hand.  The last loop of the function is never reached. *)
Theorem findWorst_choice cards :
  (3 < length cards)%nat ->
  exists s c,
    strongestSuit cards = Some s /\ strongest_first s cards
    /\ findWorstCardConsideringSuits cards = Some c
    /\ (outside s cards <> [] -> first_lowest c (outside s (groupedBySuit cards)))
    /\ (outside s cards = [] -> first_lowest c cards).
Proof. exact (@findWorst_lowest cards). Qed.

Lemma chooseDiscard_counterexample :
  findWorstCardConsideringSuits hand_3h_2d_2h_As = Some (sprite R2 Hearts 2)
  /\ ~ spec_chooseDiscard hand_3h_2d_2h_As (sprite R2 Hearts 2).
Proof.
  split; [vm_compute; reflexivity|].
  intros (s & (l1 & l2 & E & Hb & Ha) & Hout & _).
  change (suitsOf hand_3h_2d_2h_As) with [Hearts; Diamonds; Spades] in E.
  assert (Hs : s = Spades).
  { destruct l1 as [|a [|b [|c l1]]]; cbn in E.
    - injection E as <- <-.
      specialize (Ha Spades (or_intror (or_introl eq_refl))).
      vm_compute in Ha. congruence.
    - injection E as <- <- <-.
      specialize (Ha Spades (or_introl eq_refl)).
      vm_compute in Ha. congruence.
    - injection E as <- <- <- <-. reflexivity.
    - injection E as _ _ _ E. destruct l1; discriminate E. }
  subst s.
  destruct Hout as (m1 & m2 & E' & Hlt & _); [vm_compute; discriminate|].
  change (outside Spades hand_3h_2d_2h_As)
    with [sprite R3 Hearts 0; sprite R2 Diamonds 1; sprite R2 Hearts 2] in E'.
  destruct m1 as [|a [|b [|c m1]]]; cbn in E'.
  - discriminate E'.
  - discriminate E'.
  - injection E' as <- <- <-.
    specialize (Hlt (sprite R2 Diamonds 1) (or_intror (or_introl eq_refl))).
    vm_compute in Hlt. congruence.
  - injection E' as _ _ _ E'. destruct m1; discriminate E'.
Qed.

(** ** The draw decision *)

Lemma points_fold_spec cards :
  fold_left points_step cards []
  = map (fun s => (getSuitSymbol s, suitTotal s cards)) (suitsOf cards).
Proof.
  induction cards as [|x cards IH] using rev_ind; [reflexivity|].
  rewrite fold_left_app, IH. cbn [fold_left].
  unfold points_step. rewrite suitsOf_snoc.
  set (s := suit (cardData x)).
  change (rankOrder (rank (cardData x))) with (getCardValue x).
  destruct (suitsOf_spec cards) as [Hnd _].
  assert (Hown : has_suit s x = true) by apply has_suit_own.
  assert (Hoth : forall t, t <> s -> has_suit t x = false)
    by (intros t Ht; now apply has_suit_other).
  rewrite symbol_get.
  destruct (existsb (Suit_eqb s) (suitsOf cards)) eqn:E.
  - assert (Hin : In s (suitsOf cards)) by now apply mem_suit.
    pose proof (suitTotal_pos _ _ Hin) as Hpos.
    destruct (suitTotal s cards) as [|p|p] eqn:ET; try lia.
    rewrite symbol_get, E. apply symbol_set_in; try assumption.
    + now rewrite suitTotal_snoc, Hown, ET.
    + intros t Ht. rewrite suitTotal_snoc, Hoth by exact Ht. lia.
  - assert (Hout : ~ In s (suitsOf cards)).
    { intros H. apply mem_suit in H. congruence. }
    assert (Hnd' : NoDup (suitsOf cards ++ [s])).
    { apply NoDup_app; [exact Hnd|repeat constructor; intros []|].
      intros a Ha [<-|[]]. contradiction. }
    assert (Ht : suitTotal s cards = 0).
    { unfold suitTotal. now rewrite unseen_suit. }
    rewrite (@symbol_set_out _ (fun t => suitTotal t cards) s 0
               (suitsOf cards) (fun t => suitTotal t cards)); auto.
    rewrite symbol_get.
    replace (existsb (Suit_eqb s) (suitsOf cards ++ [s])) with true
      by (symmetry; apply mem_suit, in_or_app; right; now left).
    apply symbol_set_in; try assumption.
    + apply in_or_app. right. now left.
    + now rewrite suitTotal_snoc, Hown.
    + intros t Hts. rewrite suitTotal_snoc, Hoth by exact Hts. lia.
Qed.

Lemma pointsBySuit_spec cards :
  pointsBySuit (calculatePoints cards)
  = map (fun s => (getSuitSymbol s, suitTotal s cards)) (suitsOf cards).
Proof.
  unfold calculatePoints. destruct cards as [|c cards]; [reflexivity|].
  cbn [pointsBySuit]. apply points_fold_spec.
Qed.

Lemma suitCount_snoc t cards x :
  suitCount t (cards ++ [x])
  = suitCount t cards + (if has_suit t x then 1 else 0).
Proof.
  unfold suitCount. rewrite filter_snoc, length_app.
  destruct (has_suit t x); cbn [length]; lia.
Qed.

Lemma counts_fold_spec cards :
  fold_left count_step cards []
  = map (fun s => (s, suitCount s cards)) (suitsOf cards).
Proof.
  induction cards as [|x cards IH] using rev_ind; [reflexivity|].
  rewrite fold_left_app, IH. cbn [fold_left].
  unfold count_step. rewrite suitsOf_snoc.
  set (s := suit (cardData x)).
  destruct (suitsOf_spec cards) as [Hnd _].
  assert (Hown : has_suit s x = true) by apply has_suit_own.
  assert (Hoth : forall t, t <> s -> has_suit t x = false)
    by (intros t Ht; now apply has_suit_other).
  rewrite suit_get.
  destruct (existsb (Suit_eqb s) (suitsOf cards)) eqn:E.
  - assert (Hin : In s (suitsOf cards)) by now apply mem_suit.
    apply suit_set_in; try assumption.
    + now rewrite suitCount_snoc, Hown.
    + intros t Ht. rewrite suitCount_snoc, Hoth by exact Ht. lia.
  - assert (Hout : ~ In s (suitsOf cards)).
    { intros H. apply mem_suit in H. congruence. }
    apply suit_set_out; try assumption.
    + rewrite suitCount_snoc, Hown. unfold suitCount.
      now rewrite unseen_suit.
    + intros t Ht. rewrite suitCount_snoc, Hoth by exact Ht. lia.
Qed.

Lemma counts_truthy s cards :
  truthy (obj_get Suit_eqb s (fold_left count_step cards [])) = true
  <-> exists c, In c cards /\ suit (cardData c) = s.
Proof.
  rewrite counts_fold_spec, suit_get.
  rewrite <- (proj2 (suitsOf_spec cards) s), <- mem_suit.
  destruct (existsb (Suit_eqb s) (suitsOf cards)) eqn:E; cbn.
  - split; [reflexivity|intros _].
    assert (Hin : In s (suitsOf cards)) by now apply mem_suit.
    apply (proj2 (suitsOf_spec cards)) in Hin. destruct Hin as (c & Hc & Hs).
    assert (H : In c (filter (has_suit s) cards)).
    { apply filter_In. split; [exact Hc|]. unfold has_suit. now apply Suit_eqb_eq. }
    unfold suitCount. destruct (filter (has_suit s) cards); [destruct H|].
    reflexivity.
  - split; discriminate.
Qed.

Section Reduce.
Variable val : Suit -> Z.

Lemma reduce_last_max L : forall a,
  (fold_left (keep_greater val) L a = a /\ forall t, In t L -> val t < val a)
  \/ (val a <= val (fold_left (keep_greater val) L a)
      /\ last_max val (fold_left (keep_greater val) L a) L).
Proof.
  induction L as [|b L IH]; intros a; cbn [fold_left].
  - left. split; [reflexivity|intros t []].
  - unfold keep_greater at 2 4 6.
    destruct (Z.gtb_spec (val a) (val b)) as [Hgt|Hle].
    + destruct (IH a) as [[E H]|[Hle (l1 & l2 & E & H1 & H2)]].
      * left. split; [exact E|]. intros t [<-|Ht]; [exact Hgt|now apply H].
      * right. split; [exact Hle|].
        exists (b :: l1), l2. split; [cbn; now rewrite <- E|].
        split; [|exact H2]. intros y [<-|Hy]; [lia|now apply H1].
    + right. destruct (IH b) as [[E H]|[Hle' (l1 & l2 & E & H1 & H2)]].
      * rewrite E. split; [exact Hle|].
        exists [], L. split; [reflexivity|]. split; [intros y []|exact H].
      * split; [lia|].
        exists (b :: l1), l2. split; [cbn; now rewrite <- E|].
        split; [|exact H2]. intros y [<-|Hy]; [exact Hle'|now apply H1].
Qed.
End Reduce.

Lemma getSuitNameFromSymbol_getSuitSymbol s :
  getSuitNameFromSymbol (Some (getSuitSymbol s)) = Some s.
Proof. destruct s; reflexivity. Qed.

Lemma reduce_symbols cards L : forall a,
  In a (suitsOf cards) -> incl L (suitsOf cards) ->
  fold_left
    (fun a b =>
       if points_gt
            (map (fun s => (getSuitSymbol s, suitTotal s cards)) (suitsOf cards))
            a b
       then a else Some b)
    (map getSuitSymbol L) (Some (getSuitSymbol a))
  = Some (getSuitSymbol
            (fold_left (keep_greater (fun t => suitTotal t cards)) L a)).
Proof.
  induction L as [|b L IH]; intros a Ha HL; [reflexivity|].
  cbn [map fold_left].
  assert (Hb : In b (suitsOf cards)) by (apply HL; now left).
  assert (HL' : incl L (suitsOf cards)) by (intros t Ht; apply HL; now right).
  unfold points_gt at 2. rewrite !symbol_get.
  replace (existsb (Suit_eqb a) (suitsOf cards)) with true
    by (symmetry; now apply mem_suit).
  replace (existsb (Suit_eqb b) (suitsOf cards)) with true
    by (symmetry; now apply mem_suit).
  unfold keep_greater at 2.
  destruct (suitTotal a cards >? suitTotal b cards); now apply IH.
Qed.

Lemma hd_error_map (A B : Type) (f : A -> B) l :
  hd_error (map f l) = option_map f (hd_error l).
Proof. destruct l; reflexivity. Qed.

Lemma strongestSuit_of_last cards :
  match getSuitNameFromSymbol (strongestSuit_of (pointsBySuit (calculatePoints cards))) with
  | Some s => strongest_last s cards
  | None => cards = []
  end.
Proof.
  rewrite pointsBySuit_spec. unfold strongestSuit_of, obj_keys.
  rewrite map_map. cbn [fst].
  change (map (fun x : Suit => getSuitSymbol x) (suitsOf cards))
    with (map getSuitSymbol (suitsOf cards)).
  rewrite hd_error_map.
  destruct (hd_error (suitsOf cards)) as [a|] eqn:Ehd; cbn [option_map].
  - assert (Ha : In a (suitsOf cards)).
    { destruct (suitsOf cards); [discriminate|]. injection Ehd as ->. now left. }
    rewrite reduce_symbols; [|exact Ha|apply incl_refl].
    rewrite getSuitNameFromSymbol_getSuitSymbol.
    destruct (reduce_last_max (fun t => suitTotal t cards) (suitsOf cards) a)
      as [[_ H]|[_ H]].
    + exfalso. specialize (H a Ha). lia.
    + exact H.
  - assert (E : suitsOf cards = []) by (destruct (suitsOf cards); [reflexivity|discriminate]).
    rewrite E. cbn. destruct cards as [|c cards]; [reflexivity|].
    assert (H : In (suit (cardData c)) (suitsOf (c :: cards))).
    { apply (proj2 (suitsOf_spec (c :: cards))). exists c. split; [now left|reflexivity]. }
    rewrite E in H. destruct H.
Qed.

Lemma Qgtb_lt x y : Qgtb x y = true <-> (y < x)%Q.
Proof.
  unfold Qgtb. rewrite negb_true_iff. split.
  - intros H. apply Qnot_le_lt. intros Hle. apply Qle_bool_iff in Hle. congruence.
  - intros H. destruct (Qle_bool x y) eqn:E; [|reflexivity].
    apply Qle_bool_iff in E. exfalso. apply (Qlt_not_le _ _ H E).
Qed.

Lemma option_Suit_eqb_eq s o : option_Suit_eqb s o = true <-> o = Some s.
Proof.
  destruct o as [t|]; cbn; [|split; discriminate].
  rewrite Suit_eqb_eq. split; congruence.
Qed.

(** C2 (amended): when the card the draw step inspects is the top card of
    the discard pile, the step computes the strongest suit of the hand as
    the suit of highest total, a tie going to the suit met last, and takes
    the discard pile exactly when the top card is of that suit, or is worth
    10 or more and the hand holds its suit, or is worth 11 and
    [Math.random()] exceeds 0.2, the double that the literal denotes; with
    an empty pile it takes the deck. *)
Theorem drawFromDiscard_decision env calls hand pile :
  inspected_is_top pile ->
  match strongest_of hand with
  | Some s => strongest_last s hand
  | None => hand = []
  end
  /\ match topCard pile with
     | None =>
         drawFromDiscard env calls (pointsBySuit (calculatePoints hand)) hand pile
         = (false, calls)
     | Some top =>
         fst (drawFromDiscard env calls (pointsBySuit (calculatePoints hand))
                              hand pile) = true
         <-> (strongest_of hand = Some (suit (cardData top))
              \/ (10 <= getCardValue top
                  /\ holds_suit (suit (cardData top)) hand)
              \/ (getCardValue top = 11
                  /\ (binary64 (2 # 10) < random env calls)%Q))
     end.
Proof.
  intros Htop. split; [apply strongestSuit_of_last|].
  unfold inspected_is_top in Htop. rewrite Htop.
  destruct pile as [|c pile]; [reflexivity|]. cbn [hd_error].
  unfold drawFromDiscard, holds_suit. fold (strongest_of hand).
  rewrite <- option_Suit_eqb_eq, <- counts_truthy, <- Qgtb_lt.
  destruct (option_Suit_eqb (suit (cardData c)) (strongest_of hand));
    [cbn; tauto|].
  destruct (Z.geb_spec (getCardValue c) 10) as [Hge|Hlt]; cbn [andb].
  - destruct (truthy _); cbn [fst].
    + split; [intros _; right; left; split; [lia|reflexivity]|reflexivity].
    + destruct (Z.eqb_spec (getCardValue c) 11) as [E|E]; cbn [fst].
      * split; [intros H; right; right; now split|].
        intros [H|[[_ H]|[_ H]]]; congruence.
      * split; [discriminate|]. intros [H|[[_ H]|[H _]]]; congruence.
  - cbn [fst]. destruct (Z.eqb_spec (getCardValue c) 11) as [E|E]; [lia|].
    cbn [fst]. split; [discriminate|]. intros [H|[[H _]|[H _]]]; try congruence; lia.
Qed.

Lemma drawFromDiscard_decision_witness :
  inspected_is_top [sprite R3 Hearts 11]
  /\ (match strongest_of hand_10h_10s_2d with
      | Some s => strongest_last s hand_10h_10s_2d
      | None => hand_10h_10s_2d = []
      end
      /\ match topCard [sprite R3 Hearts 11] with
         | None =>
             drawFromDiscard ambient0 0
               (pointsBySuit (calculatePoints hand_10h_10s_2d))
               hand_10h_10s_2d [sprite R3 Hearts 11] = (false, 0%nat)
         | Some top =>
             fst (drawFromDiscard ambient0 0
                    (pointsBySuit (calculatePoints hand_10h_10s_2d))
                    hand_10h_10s_2d [sprite R3 Hearts 11]) = true
             <-> (strongest_of hand_10h_10s_2d = Some (suit (cardData top))
                  \/ (10 <= getCardValue top
                      /\ holds_suit (suit (cardData top)) hand_10h_10s_2d)
                  \/ (getCardValue top = 11
                      /\ (binary64 (2 # 10) < random ambient0 0)%Q))
         end).
Proof.
  split; [reflexivity|].
  apply (@drawFromDiscard_decision ambient0 0 hand_10h_10s_2d
           [sprite R3 Hearts 11]).
  reflexivity.
Defined.

Lemma drawSource_counterexample :
  inspected_is_top [sprite R3 Hearts 11]
  /\ topCard [sprite R3 Hearts 11] = Some (sprite R3 Hearts 11)
  /\ spec_prefersDiscardPile ambient0 0 hand_10h_10s_2d (sprite R3 Hearts 11)
  /\ fst (drawFromDiscard ambient0 0
            (pointsBySuit (calculatePoints hand_10h_10s_2d)) hand_10h_10s_2d
            [sprite R3 Hearts 11]) = false.
Proof.
  split; [reflexivity|]. split; [reflexivity|]. split; [|vm_compute; reflexivity].
  left. exists [], [Spades; Diamonds]. split; [reflexivity|].
  split; [intros y []|].
  intros y [<-|[<-|[]]]; vm_compute; discriminate.
Qed.

Lemma findWorst_choice_witness :
  exists s c,
    strongestSuit hand_3h_2d_2h_As = Some s
    /\ strongest_first s hand_3h_2d_2h_As
    /\ findWorstCardConsideringSuits hand_3h_2d_2h_As = Some c
    /\ (outside s hand_3h_2d_2h_As <> [] ->
        first_lowest c (outside s (groupedBySuit hand_3h_2d_2h_As)))
    /\ (outside s hand_3h_2d_2h_As = [] -> first_lowest c hand_3h_2d_2h_As).
Proof.
  apply (@findWorst_choice hand_3h_2d_2h_As). vm_compute. lia.
Defined.

(** ** Counting card images *)

Lemma Rank_eqb_eq a b : Rank_eqb a b = true -> a = b.
Proof. destruct a, b; cbn; intros H; congruence. Qed.

Lemma Card_eqb_eq a b : Card_eqb a b = true -> a = b.
Proof.
  destruct a as [sa ra], b as [sb rb]. unfold Card_eqb. cbn.
  intros H. apply andb_prop in H. destruct H as [Hs Hr].
  apply Suit_eqb_eq in Hs. apply Rank_eqb_eq in Hr. congruence.
Qed.

Lemma occ_app x l1 l2 : occ x (l1 ++ l2) = (occ x l1 + occ x l2)%nat.
Proof. induction l1 as [|a l1 IH]; cbn; [reflexivity|]. rewrite IH. lia. Qed.

Lemma occ_map x l l' : map cardData l = map cardData l' -> occ x l = occ x l'.
Proof.
  revert l'. induction l as [|a l IH]; intros [|b l'] H; try discriminate H.
  - reflexivity.
  - cbn in H. injection H as Hab H. cbn. rewrite Hab. f_equal. now apply IH.
Qed.

Lemma occ_depth_in x c d l : occ x (depth_in c d l) = occ x l.
Proof. apply occ_map. apply map_cardData_depth_in. Qed.

Lemma occ_container_remove x c l :
  occ x (container_remove c l)
  = if Card_eqb (cardData c) x then Nat.pred (occ x l) else occ x l.
Proof.
  induction l as [|a l IH]; cbn; [now destruct (Card_eqb (cardData c) x)|].
  unfold same_card at 1. destruct (Card_eqb (cardData a) (cardData c)) eqn:Eac.
  - apply Card_eqb_eq in Eac. rewrite Eac.
    destruct (Card_eqb (cardData c) x); reflexivity.
  - cbn. rewrite IH. destruct (Card_eqb (cardData c) x) eqn:Ecx; [|reflexivity].
    apply Card_eqb_eq in Ecx. subst x. rewrite Eac. reflexivity.
Qed.

Lemma container_remove_out c l :
  occ (cardData c) l = 0%nat -> container_remove c l = l.
Proof.
  induction l as [|a l IH]; cbn [container_remove occ]; [reflexivity|].
  unfold same_card at 1. destruct (Card_eqb (cardData a) (cardData c)).
  - intros H. discriminate H.
  - intros H. f_equal. apply IH. exact H.
Qed.

Lemma length_container_remove c l :
  (1 <= occ (cardData c) l)%nat ->
  length (container_remove c l) = Nat.pred (length l).
Proof.
  induction l as [|a l IH]; cbn [container_remove length occ]; [lia|].
  unfold same_card at 1. destruct (Card_eqb (cardData a) (cardData c)).
  - reflexivity.
  - intros H. cbn [length]. rewrite IH by exact H.
    destruct l; [cbn in H; lia|reflexivity].
Qed.

Lemma In_occ c l : In c l -> (1 <= occ (cardData c) l)%nat.
Proof.
  induction l as [|a l IH]; cbn; [intros []|].
  intros [->|H]; [rewrite Card_eqb_refl; lia|]. apply IH in H. lia.
Qed.

Lemma includes_occ c l : includes c l = true -> (1 <= occ (cardData c) l)%nat.
Proof.
  unfold includes. intros H. apply existsb_exists in H.
  destruct H as (a & Ha & E). unfold same_card in E.
  apply Card_eqb_eq in E. rewrite E. now apply In_occ.
Qed.

Lemma occ_sort_insert (before : Sprite -> Sprite -> bool) x a l :
  occ x (sort_insert before a l) = occ x (a :: l).
Proof.
  induction l as [|b l IH]; cbn; [reflexivity|].
  destruct (before a b); cbn; [reflexivity|]. cbn in IH. rewrite IH. lia.
Qed.

Lemma occ_js_sort (before : Sprite -> Sprite -> bool) x l :
  occ x (js_sort before l) = occ x l.
Proof.
  unfold js_sort. induction l as [|a l IH]; cbn; [reflexivity|].
  rewrite occ_sort_insert. cbn. now rewrite IH.
Qed.

Lemma length_sort_insert (before : Sprite -> Sprite -> bool) a l :
  length (sort_insert before a l) = S (length l).
Proof.
  induction l as [|b l IH]; cbn; [reflexivity|].
  destruct (before a b); cbn; [reflexivity|]. now rewrite IH.
Qed.

Lemma length_js_sort (before : Sprite -> Sprite -> bool) l :
  length (js_sort before l) = length l.
Proof.
  unfold js_sort. induction l as [|a l IH]; cbn; [reflexivity|].
  rewrite length_sort_insert. now rewrite IH.
Qed.

Lemma occ_absent x l : forall i,
  existsb (Card_eqb x) l = false -> occ x (createDeck_from i l) = 0%nat.
Proof.
  induction l as [|a l IH]; intros i H; cbn in *; [reflexivity|].
  apply orb_false_iff in H. destruct H as [Ha Hl].
  rewrite Card_eqb_sym, Ha. cbn. now apply IH.
Qed.

Lemma distinct_occ l : forall i x,
  distinct l = true -> (occ x (createDeck_from i l) <= 1)%nat.
Proof.
  induction l as [|a l IH]; intros i x H; cbn in *; [lia|].
  apply andb_prop in H. destruct H as [Ha Hl]. apply negb_true_iff in Ha.
  destruct (Card_eqb a x) eqn:E.
  - apply Card_eqb_eq in E. subst x. rewrite (@occ_absent a l (i + 1) Ha). lia.
  - cbn. now apply IH.
Qed.

(** ** Callbacks and clicks, phase by phase *)

Lemma fire_pending env w w' : fire env w = Some w' -> pending w <> [].
Proof.
  unfold fire. destruct (pending w); [discriminate|]. intros _ H.
  discriminate H.
Qed.

Ltac open_scene w :=
  destruct w as [[ac ci hd hdc md kn an pt] pts1 pts2 deck hand1 hand2 pile
                   knockOn endTurnOn restartOn result calls sess queue].

Lemma findWorst_short cards :
  (length cards <= 3)%nat -> findWorstCardConsideringSuits cards = None.
Proof.
  intros H. unfold findWorstCardConsideringSuits.
  apply Nat.leb_le in H. now rewrite H.
Qed.

Lemma length_cards l l' :
  map cardData l = map cardData l' -> length l = length l'.
Proof. intros H. rewrite <- (length_map cardData l), H. apply length_map. Qed.

Lemma same_table_refl w : same_table w w.
Proof. repeat split. Qed.

Lemma same_table_trans w1 w2 w3 :
  same_table w1 w2 -> same_table w2 w3 -> same_table w1 w3.
Proof.
  intros (A1 & A2 & A3 & A4 & A5 & A6) (B1 & B2 & B3 & B4 & B5 & B6).
  repeat split; congruence.
Qed.

Lemma same_table_setDepth c d w : same_table w (setDepth c d w).
Proof.
  open_scene w. unfold same_table, setDepth. cbn.
  rewrite !map_cardData_depth_in. repeat split.
Qed.

Lemma same_table_rearrange_done l : forall i w,
  same_table w (rearrange_done i l w).
Proof.
  induction l as [|c l IH]; intros i w; cbn [rearrange_done].
  - apply same_table_refl.
  - eapply same_table_trans; [apply same_table_setDepth|apply IH].
Qed.

Lemma in_phase_same ph w w' :
  same_table w w' -> in_phase ph w -> in_phase ph w'.
Proof.
  intros (Hg & Hp & Hd & H1 & H2 & Hpile).
  assert (Hs : forall a b, sizes a b w -> sizes a b w').
  { unfold sizes. intros a b [Ha Hb].
    rewrite (length_cards _ _ H1), (length_cards _ _ H2). now split. }
  assert (Ht : forall fl, tidy fl w -> tidy fl w').
  { unfold tidy, copies. intros fl H x.
    rewrite (occ_map x _ _ Hd), (occ_map x _ _ H1), (occ_map x _ _ H2),
      (occ_map x _ _ Hpile). apply H. }
  assert (Hsrc : forall src x,
             occ x (sourceContainer src w') = occ x (sourceContainer src w)).
  { intros [] x; cbn; apply occ_map; assumption. }
  destruct ph; cbn; rewrite ?Hg, ?Hp, ?Hsrc, ?(occ_map _ _ _ H2);
    intuition auto.
Qed.

Ltac queue_ok :=
  lazymatch goal with
  | |- quiet_queue [] => exact qq_calm
  | |- quiet_queue [(_, DiscardUnlock _)] => apply qq_unlock
  | |- quiet_queue [(_, RearrangeDone _)] => apply qq_sort
  | |- quiet_queue [(_, EndTurnTextFade)] => exact qq_end_text
  | |- quiet_queue [(_, ExecutePlayer2Turn)] => exact qq_end_fade
  | |- quiet_queue [(_, Player2Draw _)] => apply qq_decide
  | |- quiet_queue [(_, Player2Discard)] => exact qq_blocked
  | |- quiet_queue [(_, StartPlayer1Turn); _] => exact qq_next_start
  | |- quiet_queue [(_, Player2Knock); _] => exact qq_next_knock
  | |- quiet_queue [_; (_, TurnTextFade)] => exact qq_start_unlock
  | |- quiet_queue [(_, TurnTextFade)] => exact qq_start_text
  | |- quiet_queue [(_, TurnTextDone)] => exact qq_start_fade
  | |- quiet_queue [_; (_, KnockTextFade)] => exact qq_knock_unlock
  | |- quiet_queue [(_, KnockTextFade)] => exact qq_knock_text
  | |- quiet_queue [(_, KnockTextDone)] => exact qq_knock_fade
  | |- quiet_queue [(_, FlipPlayer2Done)] => exact qq_flip
  | |- quiet_queue [(_, RestartGame)] => exact qq_restart
  | |- owing_queue [] => exact oq_calm
  | |- owing_queue [(_, RearrangeDone _)] => apply oq_sort
  | |- owing_queue [(_, RestartGame)] => exact oq_restart
  end.

Ltac stays_quiet :=
  right; cbn; repeat (case_if; cbn);
  (split; [reflexivity|]); exists Quiet; cbn; unfold sizes, tidy, copies; cbn;
  repeat split; first [assumption | queue_ok].

Lemma quiet_fire env w w' :
  animationComplete (gameState w) = true ->
  in_phase Quiet w ->
  fire env w = Some w' ->
  (w' = create env (S (session w)) (randomCalls w))
  \/ (animationComplete (gameState w') = true /\ exists ph, in_phase ph w').
Proof.
  intros Hac H.
  open_scene w. cbn in *. destruct H as (Hs & Hmd & Hq & Ht).
  unfold sizes in Hs. cbn in Hs. destruct Hs as [Hs1 Hs2]. subst.
  unfold tidy, copies in Ht. cbn in Ht.
  inversion Hq; subst; unfold fire; cbn; intros [= <-]; clear Hq.
  - (* DiscardUnlock *) unfold discard_unlock. destruct p; stays_quiet.
  - (* RearrangeDone *)
    right.
    match goal with
    | |- context [rearrange_done 0 l ?W] =>
        pose proof (same_table_rearrange_done l 0 W) as Hsame
    end.
    split; [destruct Hsame as (-> & _); reflexivity|].
    exists Quiet. eapply in_phase_same; [exact Hsame|].
    cbn. unfold sizes, tidy, copies. cbn. repeat split; try assumption.
    queue_ok.
  - stays_quiet.
  - unfold executePlayer2Turn. stays_quiet.
  - (* Player2Draw *)
    unfold player2_draw. cbn.
    destruct (drawFromDiscard env calls bySuit hand2
                              pile) as [fromDiscard calls'].
    cbn.
    destruct (fromDiscard && _); destruct kn, an;
      cbn;
      unfold DiscardPileManager_moveTopCardToPlayer,
        DeckManager_moveTopCardToPlayer; cbn;
      try stays_quiet.
    + destruct (topCard pile) as [top|] eqn:Etop; cbn;
        [|stays_quiet].
      right. split; [reflexivity|].
      exists (Player2Draws FromDiscardPile top). cbn.
      unfold sizes, tidy, copies. cbn. repeat split; try assumption.
      apply In_occ. now apply topCard_highest.
    + destruct (topCard deck) as [top|] eqn:Etop; cbn;
        [|stays_quiet].
      right. split; [reflexivity|].
      exists (Player2Draws FromDeck top). cbn.
      unfold sizes, tidy, copies. cbn. repeat split; try assumption.
      apply In_occ. now apply topCard_highest.
  - unfold player2_discard. cbn. rewrite findWorst_short by (cbn; lia). stays_quiet.
  - unfold startPlayer1Turn. stays_quiet.
  - unfold player2Knock. stays_quiet.
  - unfold discard_unlock. stays_quiet.
  - stays_quiet.
  - unfold updateEndTurnButton. stays_quiet.
  - unfold discard_unlock. stays_quiet.
  - stays_quiet.
  - unfold flipPlayer2Cards. cbn. destruct hand2; [discriminate Hs2|]. stays_quiet.
  - stays_quiet.
  - left. reflexivity.
Qed.

Ltac open_phase H :=
  cbn in H; unfold sizes, tidy, copies in H; cbn in H.

Ltac show_phase ph :=
  right; split; [reflexivity|]; exists ph; cbn; unfold sizes, tidy, copies; cbn.

Lemma owing_fire env w w' :
  animationComplete (gameState w) = true ->
  in_phase Owing w ->
  fire env w = Some w' ->
  (w' = create env (S (session w)) (randomCalls w))
  \/ (animationComplete (gameState w') = true /\ exists ph, in_phase ph w').
Proof.
  intros Hac H.
  open_scene w. cbn in Hac. open_phase H.
  destruct H as ((Hs1 & Hs2) & Hmd & Hq & Ht). subst.
  inversion Hq; subst; unfold fire; cbn; intros [= <-]; clear Hq.
  - right.
    match goal with
    | |- context [rearrange_done 0 l ?W] =>
        pose proof (same_table_rearrange_done l 0 W) as Hsame
    end.
    split; [destruct Hsame as (-> & _); reflexivity|].
    exists Owing. eapply in_phase_same; [exact Hsame|].
    cbn. unfold sizes, tidy, copies. cbn. repeat split; try assumption.
    queue_ok.
  - left. reflexivity.
Qed.

Lemma player1Draws_fire env source top w w' :
  animationComplete (gameState w) = true ->
  in_phase (Player1Draws source top) w ->
  fire env w = Some w' ->
  animationComplete (gameState w') = true /\ in_phase Owing w'.
Proof.
  intros Hac H.
  open_scene w. cbn in Hac. open_phase H.
  destruct H as ((Hs1 & Hs2) & Hq & Hsrc & Ht). subst.
  unfold fire; cbn; intros [= <-].
  pose proof (Ht (cardData top)) as Htop.
  assert (H1 : occ (cardData top) hand1 = 0%nat)
    by (destruct source; cbn in Hsrc; lia).
  assert (H2 : occ (cardData top) hand2 = 0%nat)
    by (destruct source; cbn in Hsrc; lia).
  unfold draw_done, addToPlayer, detach, setupPlayerCard, setDepth,
    updatePoints, updateEndTurnButton, updateTotalPoints. cbn.
  rewrite (container_remove_out _ _ H1), (container_remove_out _ _ H2).
  repeat (case_if; cbn); (split; [reflexivity|]);
    cbn; unfold sizes, tidy, copies; cbn;
    rewrite ?length_depth_in, ?length_app; cbn [length];
    (repeat split; [lia|lia|queue_ok|]);
    intros x; rewrite ?occ_depth_in, ?occ_app, ?occ_container_remove;
    cbn [occ]; specialize (Ht x);
    (destruct (Card_eqb (cardData top) x) eqn:E;
     [apply Card_eqb_eq in E; subst x; destruct source; cbn in Hsrc; lia|lia]).
Qed.

Lemma first_min_in (A : Type) (val : A -> Z) x l : first_min val x l -> In x l.
Proof. intros (l1 & l2 & -> & _). apply in_or_app. right. now left. Qed.

Lemma findWorst_in cards :
  (3 < length cards)%nat ->
  exists c, findWorstCardConsideringSuits cards = Some c /\ In c cards.
Proof.
  intros H. destruct (@findWorst_lowest cards H) as (s & c & _ & _ & E & Ho & Ha).
  exists c. split; [exact E|].
  destruct (outside s cards) eqn:Eo.
  - apply first_min_in with (val := getCardValue). now apply Ha.
  - assert (Hin : In c (outside s (groupedBySuit cards))).
    { apply first_min_in with (val := getCardValue). apply Ho. discriminate. }
    unfold outside in Hin. apply filter_In in Hin. destruct Hin as [Hin _].
    now apply in_groupedBySuit.
Qed.

Lemma player1Discards_fire env card w w' :
  animationComplete (gameState w) = true ->
  in_phase (Player1Discards card) w ->
  fire env w = Some w' ->
  animationComplete (gameState w') = true /\ in_phase Quiet w'.
Proof.
  intros Hac H.
  open_scene w. cbn in Hac. open_phase H.
  destruct H as ((Hs1 & Hs2) & Hq & Ht). subst.
  unfold fire; cbn; intros [= <-].
  pose proof (Ht (cardData card)) as Hc. rewrite Card_eqb_refl in Hc.
  assert (H0 : occ (cardData card) deck = 0%nat) by lia.
  assert (H1 : occ (cardData card) hand1 = 0%nat) by lia.
  assert (H2 : occ (cardData card) hand2 = 0%nat) by lia.
  assert (H3 : occ (cardData card) pile = 0%nat) by lia.
  unfold discard_done, addToDiscardPile, detach, setDepth,
    updatePoints, updateEndTurnButton, updateTotalPoints. cbn.
  rewrite (container_remove_out _ _ H0), (container_remove_out _ _ H1),
    (container_remove_out _ _ H2), (container_remove_out _ _ H3).
  repeat (case_if; cbn); (split; [reflexivity|]);
    cbn; unfold sizes, tidy, copies; cbn;
    rewrite ?length_depth_in;
    (repeat split; [assumption|assumption|queue_ok|]);
    intros x; rewrite ?occ_depth_in, ?occ_app; cbn [occ];
    specialize (Ht x); lia.
Qed.

Lemma player2Draws_fire env source top w w' :
  animationComplete (gameState w) = true ->
  in_phase (Player2Draws source top) w ->
  fire env w = Some w' ->
  animationComplete (gameState w') = true /\ in_phase Player2Holds w'.
Proof.
  intros Hac H.
  open_scene w. cbn in Hac. open_phase H.
  destruct H as ((Hs1 & Hs2) & Hq & Hkn & Hsrc & Ht). subst.
  unfold fire; cbn; intros [= <-].
  pose proof (Ht (cardData top)) as Htop.
  assert (H1 : occ (cardData top) hand1 = 0%nat)
    by (destruct source; cbn in Hsrc; lia).
  assert (H2 : occ (cardData top) hand2 = 0%nat)
    by (destruct source; cbn in Hsrc; lia).
  unfold draw_done, addToPlayer, detach, updatePoints,
    updateTotalPointsPlayer2. cbn.
  rewrite (container_remove_out _ _ H1), (container_remove_out _ _ H2).
  repeat (case_if; cbn); (split; [reflexivity|]);
    cbn; unfold sizes, tidy, copies; cbn;
    rewrite ?length_app; cbn [length];
    (repeat split; [lia|lia|]);
    intros x; rewrite ?occ_app, ?occ_container_remove;
    cbn [occ]; specialize (Ht x);
    (destruct (Card_eqb (cardData top) x) eqn:E;
     [apply Card_eqb_eq in E; subst x; destruct source; cbn in Hsrc; lia|lia]).
Qed.

Lemma player2Holds_fire env w w' :
  animationComplete (gameState w) = true ->
  in_phase Player2Holds w ->
  fire env w = Some w' ->
  animationComplete (gameState w') = true
  /\ exists card next, in_phase (Player2Flips card next) w'.
Proof.
  intros Hac H.
  open_scene w. cbn in Hac. open_phase H.
  destruct H as ((Hs1 & Hs2) & Hmd & Hkn & Han & Hq & Ht). subst.
  unfold fire; cbn; intros [= <-].
  destruct (@findWorst_in hand2) as (c & Ec & Hin); [lia|].
  unfold player2_discard. cbn. rewrite Ec. cbn.
  destruct (shouldKnock env calls _ _) as [knock calls']. cbn.
  destruct knock; cbn; (split; [reflexivity|]).
  - exists c, Player2Knock. cbn. unfold sizes, tidy, copies, closes_turn. cbn.
    repeat split; try assumption; [now left|now apply In_occ].
  - exists c, StartPlayer1Turn. cbn. unfold sizes, tidy, copies, closes_turn. cbn.
    repeat split; try assumption; [now right|now apply In_occ].
Qed.

Lemma player2Flips_fire env card next w w' :
  animationComplete (gameState w) = true ->
  in_phase (Player2Flips card next) w ->
  fire env w = Some w' ->
  animationComplete (gameState w') = true
  /\ exists card', in_phase (Player2Discards card' next) w'.
Proof.
  intros Hac H.
  open_scene w. cbn in Hac. open_phase H.
  destruct H as ((Hs1 & Hs2) & Hmd & Hkn & Han & Hq & Hnext & Hin & Ht). subst.
  unfold fire; cbn; intros [= <-].
  unfold discardCard, discardCardFromPlayer. cbn.
  split; [reflexivity|]. eexists. cbn. unfold sizes, tidy, copies. cbn.
  rewrite length_container_remove by exact Hin.
  repeat split; try assumption; [lia|].
  intros x. rewrite occ_container_remove. specialize (Ht x).
  unfold with_depth. cbn [cardData].
  destruct (Card_eqb (cardData card) x) eqn:E; [|lia].
  apply Card_eqb_eq in E. subst x. lia.
Qed.

Lemma player2Discards_fire env card next w w' :
  animationComplete (gameState w) = true ->
  in_phase (Player2Discards card next) w ->
  fire env w = Some w' ->
  animationComplete (gameState w') = true /\ in_phase Quiet w'.
Proof.
  intros Hac H.
  open_scene w. cbn in Hac. open_phase H.
  destruct H as ((Hs1 & Hs2) & Hq & Hnext & Ht). subst.
  unfold fire; cbn; intros [= <-].
  pose proof (Ht (cardData card)) as Hc. rewrite Card_eqb_refl in Hc.
  assert (H0 : occ (cardData card) deck = 0%nat) by lia.
  assert (H1 : occ (cardData card) hand1 = 0%nat) by lia.
  assert (H2 : occ (cardData card) hand2 = 0%nat) by lia.
  assert (H3 : occ (cardData card) pile = 0%nat) by lia.
  unfold discard_done, addToDiscardPile, detach, setDepth,
    updatePoints, updateTotalPointsPlayer2. cbn.
  rewrite (container_remove_out _ _ H0), (container_remove_out _ _ H1),
    (container_remove_out _ _ H2), (container_remove_out _ _ H3).
  destruct Hnext as [-> | ->];
  repeat (case_if; cbn); (split; [reflexivity|]);
    cbn; unfold sizes, tidy, copies; cbn;
    rewrite ?length_depth_in;
    (repeat split; [assumption|assumption|queue_ok|]);
    intros x; rewrite ?occ_depth_in, ?occ_app; cbn [occ];
    specialize (Ht x); lia.
Qed.

Ltac keeps ph :=
  cbn; repeat (case_if; cbn);
  (split; [reflexivity|]); exists ph; cbn; unfold sizes, tidy, copies; cbn;
  repeat split; first [assumption | queue_ok].

Lemma quiet_click e w :
  animationComplete (gameState w) = true ->
  in_phase Quiet w ->
  pending w = [] ->
  animationComplete (gameState (handle e w)) = true
  /\ exists ph, in_phase ph (handle e w).
Proof.
  intros Hac H Hp.
  open_scene w. cbn in Hac, Hp. open_phase H.
  destruct H as ((Hs1 & Hs2) & Hmd & _ & Ht). subst.
  destruct e; unfold handle; cbn.
  - (* deck *)
    case_if; [|keeps Quiet].
    unfold moveCardToPlayer. cbn. case_if; [keeps Quiet|]. cbn.
    unfold DeckManager_moveTopCardToPlayer. cbn.
    destruct (topCard deck) as [top|] eqn:Etop; [|keeps Quiet].
    cbn. split; [reflexivity|]. exists (Player1Draws FromDeck top).
    cbn. unfold sizes, tidy, copies. cbn. repeat split; try assumption.
    apply In_occ. now apply topCard_highest.
  - (* discard pile *)
    case_if; [|keeps Quiet].
    unfold moveCardToPlayer. cbn. case_if; [keeps Quiet|]. cbn.
    unfold DiscardPileManager_moveTopCardToPlayer. cbn.
    destruct (topCard pile) as [top|] eqn:Etop; [|keeps Quiet].
    cbn. split; [reflexivity|]. exists (Player1Draws FromDiscardPile top).
    cbn. unfold sizes, tidy, copies. cbn. repeat split; try assumption.
    apply In_occ. now apply topCard_highest.
  - (* a card of the hand *)
    rewrite andb_false_r. keeps Quiet.
  - (* knock *)
    unfold onKnock, flipPlayer2Cards. rewrite Hs1. cbn.
    destruct hand2; [discriminate Hs2|]. keeps Quiet.
  - (* end turn *)
    unfold onEndTurn. keeps Quiet.
  - (* restart *)
    keeps Quiet.
  - (* sort by rank *)
    unfold rearrangeCards, sortCardsByRank.
    cbn; repeat (case_if; cbn); (split; [reflexivity|]); exists Quiet; cbn;
      unfold sizes, tidy, copies; cbn;
      rewrite ?length_js_sort;
      (repeat split; first [assumption | queue_ok | idtac]);
      intros x; rewrite ?occ_js_sort; apply Ht.
  - unfold rearrangeCards, sortCardsBySuit.
    cbn; repeat (case_if; cbn); (split; [reflexivity|]); exists Quiet; cbn;
      unfold sizes, tidy, copies; cbn;
      rewrite ?length_js_sort;
      (repeat split; first [assumption | queue_ok | idtac]);
      intros x; rewrite ?occ_js_sort; apply Ht.
Qed.

Lemma owing_click e w :
  animationComplete (gameState w) = true ->
  in_phase Owing w ->
  pending w = [] ->
  animationComplete (gameState (handle e w)) = true
  /\ exists ph, in_phase ph (handle e w).
Proof.
  intros Hac H Hp.
  open_scene w. cbn in Hac, Hp. open_phase H.
  destruct H as ((Hs1 & Hs2) & Hmd & _ & Ht). subst.
  destruct e; unfold handle; cbn.
  - rewrite andb_false_r. cbn. keeps Owing.
  - rewrite !andb_false_r. keeps Owing.
  - (* a card of the hand *)
    destruct (includes card hand1) eqn:Hin;
      [|rewrite andb_false_r; cbn; keeps Owing].
    case_if; [|keeps Owing].
    unfold discardCard. cbn. case_if; [keeps Owing|]. cbn.
    unfold discardCardFromPlayer. cbn.
    split; [reflexivity|]. eexists (Player1Discards _).
    cbn. unfold sizes, tidy, copies. cbn.
    apply includes_occ in Hin.
    rewrite length_container_remove by exact Hin.
    repeat split; try assumption; [lia|].
    intros x. rewrite occ_container_remove. specialize (Ht x).
    unfold with_depth. cbn [cardData].
    destruct (Card_eqb (cardData card) x) eqn:E; [|lia].
    apply Card_eqb_eq in E. subst x. lia.
  - rewrite Hs1. cbn. keeps Owing.
  - rewrite Hs1. cbn. rewrite andb_false_r. keeps Owing.
  - keeps Owing.
  - unfold rearrangeCards, sortCardsByRank.
    cbn; repeat (case_if; cbn); (split; [reflexivity|]); exists Owing; cbn;
      unfold sizes, tidy, copies; cbn;
      rewrite ?length_js_sort;
      (repeat split; first [assumption | queue_ok | idtac]);
      intros x; rewrite ?occ_js_sort; apply Ht.
  - unfold rearrangeCards, sortCardsBySuit.
    cbn; repeat (case_if; cbn); (split; [reflexivity|]); exists Owing; cbn;
      unfold sizes, tidy, copies; cbn;
      rewrite ?length_js_sort;
      (repeat split; first [assumption | queue_ok | idtac]);
      intros x; rewrite ?occ_js_sort; apply Ht.
Qed.

(** ** The scenes of a session *)

Lemma last_seven (l : list Card) :
  length l = 52%nat ->
  exists rest c1 c2 c3 c4 c5 c6 c7, l = rest ++ [c7; c6; c5; c4; c3; c2; c1].
Proof.
  intros H. rewrite <- (firstn_skipn 45 l).
  assert (Hk : length (skipn 45 l) = 7%nat) by (rewrite length_skipn; lia).
  destruct (skipn 45 l) as [|c7 [|c6 [|c5 [|c4 [|c3 [|c2 [|c1 [|]]]]]]]];
    try discriminate Hk.
  now exists (firstn 45 l), c1, c2, c3, c4, c5, c6, c7.
Qed.

Lemma dealing_step env n calls k :
  well_shuffled env -> (k < 10)%nat ->
  fire env (settle env k (create env n calls))
  = Some (settle env (S k) (create env n calls))
  /\ (animationComplete (gameState (settle env k (create env n calls))) = true
      -> sizes 3 3 (settle env k (create env n calls))).
Proof.
  intros Hw Hk. destruct (Hw n) as [Hd Hlen].
  destruct (last_seven _ Hlen) as (rest & c1 & c2 & c3 & c4 & c5 & c6 & c7 & Hs).
  destruct (deal_trace env n calls rest c1 c2 c3 c4 c5 c6 c7 Hs Hd)
    as (w1 & w2 & w3 & w4 & w5 & w6 & w7 & w8 & w9 & w10
        & (F0 & F1 & F2 & F3 & F4 & F5 & F6 & F7 & F8 & F9)
        & (A0 & A1 & A2 & A3 & A4 & A5 & A6 & A7) & (S8 & S9) & _).
  do 10 (destruct k as [|k];
         [repeat (erewrite settle_fire by eassumption); cbn [settle];
          split; [assumption|intros Hac; first [assumption|congruence]]|]).
  lia.
Qed.

Lemma dealt_quiet env n calls :
  well_shuffled env ->
  animationComplete (gameState (settle env 10 (create env n calls))) = true
  /\ in_phase Quiet (settle env 10 (create env n calls)).
Proof.
  intros Hw. destruct (Hw n) as [Hd Hlen].
  destruct (last_seven _ Hlen) as (rest & c1 & c2 & c3 & c4 & c5 & c6 & c7 & Hs).
  destruct (deal_trace env n calls rest c1 c2 c3 c4 c5 c6 c7 Hs Hd)
    as (w1 & w2 & w3 & w4 & w5 & w6 & w7 & w8 & w9 & w10
        & (F0 & F1 & F2 & F3 & F4 & F5 & F6 & F7 & F8 & F9)
        & _ & _ & (H1 & H2 & Hp & Hdk & Hq) & Hac & Hmd & _).
  repeat (erewrite settle_fire by eassumption). cbn [settle].
  split; [exact Hac|]. cbn. unfold sizes, tidy, copies.
  rewrite Hq.
  rewrite (length_cards (player1Container w10) (createDeck_from 0 [c1; c3; c5]))
    by (rewrite H1; reflexivity).
  rewrite (length_cards (player2Container w10) (createDeck_from 0 [c2; c4; c6]))
    by (rewrite H2; reflexivity).
  repeat split; try assumption; [exact qq_calm|].
  intros x.
  rewrite (occ_map x _ (createDeck_from 0 rest))
    by (rewrite Hdk, createDeck_from_cards; reflexivity).
  rewrite (occ_map x (player1Container w10) (createDeck_from 0 [c1; c3; c5]))
    by (rewrite H1; reflexivity).
  rewrite (occ_map x (player2Container w10) (createDeck_from 0 [c2; c4; c6]))
    by (rewrite H2; reflexivity).
  rewrite (occ_map x (discardPileContainer w10) (createDeck_from 0 [c7]))
    by (rewrite Hp; reflexivity).
  rewrite Hs in Hd.
  pose proof (distinct_occ (rest ++ [c7; c6; c5; c4; c3; c2; c1]) 0 x Hd) as Ho.
  rewrite createDeck_from_app, occ_app in Ho. cbn in Ho |- *. lia.
Qed.

Lemma phase_fire env ph w w' :
  animationComplete (gameState w) = true ->
  in_phase ph w ->
  fire env w = Some w' ->
  (w' = create env (S (session w)) (randomCalls w))
  \/ (animationComplete (gameState w') = true /\ exists ph', in_phase ph' w').
Proof.
  intros Hac H F. destruct ph.
  - exact (@quiet_fire env w w' Hac H F).
  - exact (@owing_fire env w w' Hac H F).
  - right. destruct (@player1Draws_fire env _ _ w w' Hac H F) as [A B].
    split; [exact A|]. now exists Owing.
  - right. destruct (@player1Discards_fire env _ w w' Hac H F) as [A B].
    split; [exact A|]. now exists Quiet.
  - right. destruct (@player2Draws_fire env _ _ w w' Hac H F) as [A B].
    split; [exact A|]. now exists Player2Holds.
  - right. destruct (@player2Holds_fire env w w' Hac H F) as [A (c & t & B)].
    split; [exact A|]. now exists (Player2Flips c t).
  - right. destruct (@player2Flips_fire env _ _ w w' Hac H F) as [A (c & B)].
    split; [exact A|]. now exists (Player2Discards c next).
  - right. destruct (@player2Discards_fire env _ _ w w' Hac H F) as [A B].
    split; [exact A|]. now exists Quiet.
Qed.

Lemma phase_click ph e w :
  animationComplete (gameState w) = true ->
  in_phase ph w ->
  pending w = [] ->
  animationComplete (gameState (handle e w)) = true
  /\ exists ph', in_phase ph' (handle e w).
Proof.
  intros Hac H Hp. destruct ph.
  - now apply quiet_click.
  - now apply owing_click.
  - cbn in H. destruct H as (_ & Hq & _). congruence.
  - cbn in H. destruct H as (_ & Hq & _). congruence.
  - cbn in H. destruct H as (_ & Hq & _). congruence.
  - cbn in H. destruct H as (_ & _ & _ & _ & Hq & _). congruence.
  - cbn in H. destruct H as (_ & _ & _ & _ & Hq & _). congruence.
  - cbn in H. destruct H as (_ & Hq & _). congruence.
Qed.

Lemma in_play_create env n calls : in_play env (create env n calls).
Proof. left. exists n, calls, 0%nat. split; [lia|reflexivity]. Qed.

Lemma in_play_reachable env w :
  well_shuffled env -> reachable env w -> in_play env w.
Proof.
  intros Hw H. induction H as [|w w' H IH F|w e H IH Hp].
  - apply in_play_create.
  - destruct IH as [(n & calls & k & Hk & ->)|[Hac [ph Hph]]].
    + destruct (@dealing_step env n calls k Hw Hk) as [F' _].
      rewrite F' in F. injection F as <-.
      destruct (Nat.eq_dec k 9) as [->|Hne].
      * right. destruct (@dealt_quiet env n calls Hw) as [A B].
        split; [exact A|]. now exists Quiet.
      * left. exists n, calls, (S k). split; [lia|reflexivity].
    + destruct (@phase_fire env ph w w' Hac Hph F) as [->|Hr].
      * apply in_play_create.
      * right. exact Hr.
  - destruct IH as [(n & calls & k & Hk & ->)|[Hac [ph Hph]]].
    + destruct (@dealing_step env n calls k Hw Hk) as [F' _].
      apply fire_pending in F'. contradiction.
    + right. now apply phase_click with (ph := ph).
Qed.

Lemma in_play_sizes env w :
  well_shuffled env -> in_play env w ->
  animationComplete (gameState w) = true ->
  sizes 3 3 w
  \/ ((sizes 4 3 w \/ sizes 3 4 w) /\ mustDiscard (gameState w) = true).
Proof.
  intros Hw [(n & calls & k & Hk & ->)|[_ [ph Hph]]] Hac.
  - left. destruct (@dealing_step env n calls k Hw Hk) as [_ Hs]. now apply Hs.
  - destruct ph; cbn in Hph; intuition auto.
Qed.

Lemma reachable_settle env n : forall w,
  reachable env w -> reachable env (settle env n w).
Proof.
  induction n as [|n IH]; intros w H; cbn [settle]; [exact H|].
  destruct (fire env w) as [w'|] eqn:F; [|exact H].
  apply IH. now apply reach_fire with (w := w).
Qed.

Lemma reachable_click env e w :
  reachable env w -> reachable env (click e w).
Proof.
  intros H. unfold click. destruct (pending w) eqn:Hp; [|exact H].
  now apply reach_click.
Qed.

Lemma well_shuffled_ambient0 : well_shuffled ambient0.
Proof. intros n. split; vm_compute; reflexivity. Qed.

Lemma reachable_dealt0 : reachable ambient0 dealt0.
Proof. apply reachable_settle. apply reach_create. Qed.

Lemma reachable_drawn0 : reachable ambient0 drawn0.
Proof.
  unfold drawn0. destruct (topCard (deckContainer dealt0)).
  - apply reachable_settle, reachable_click, reachable_dealt0.
  - apply reachable_dealt0.
Qed.

Lemma reachable_discarding0 : reachable ambient0 discarding0.
Proof.
  unfold discarding0. destruct (rev (player1Container drawn0)).
  - apply reachable_drawn0.
  - apply reachable_click, reachable_drawn0.
Qed.

Lemma reachable_knocking0 : reachable ambient0 knocking0.
Proof.
  unfold knocking0. destruct (topCard (deckContainer dealt0)) as [top|].
  - cbv zeta.
    set (w1 := settle ambient0 5 (click (ClickDeckCard top) dealt0)).
    assert (H1 : reachable ambient0 w1).
    { unfold w1. apply reachable_settle. apply reachable_click.
      apply reachable_dealt0. }
    clearbody w1. destruct (rev (player1Container w1)) as [|drawn l].
    + exact H1.
    + apply reachable_settle. apply reachable_click.
      apply reachable_settle. apply reachable_click. exact H1.
  - apply reachable_dealt0.
Qed.

(** Player 1 has drawn and clicked a card of the hand: the card is on its
    way to the pile, the hand is back to three cards and [mustDiscard] stays
    true until the tween completes. *)
Lemma hand_invariant_counterexample :
  reachable ambient0 discarding0
  /\ length (player1Container discarding0) = 3%nat
  /\ mustDiscard (gameState discarding0) = true
  /\ isPlayerTurn (gameState discarding0) = true
  /\ ~ spec_hand_invariant discarding0.
Proof.
  split; [apply reachable_discarding0|].
  split; [vm_compute; reflexivity|].
  split; [vm_compute; reflexivity|].
  split; [vm_compute; reflexivity|].
  intros H. destruct (H Player1) as [_ [_ Hflag]].
  assert (E : length (playerContainer Player1 discarding0) = 4%nat).
  { apply Hflag. vm_compute. reflexivity. }
  vm_compute in E. discriminate E.
Qed.

(** C6 (amended): while the player clicks only when no tween or timer is
    pending, once the deal has handed out the cards ([animationComplete])
    both hands hold three cards, or one of them holds four and the other
    three, and a hand holds four cards only while [mustDiscard] is true. *)
Theorem hand_sizes env w :
  well_shuffled env -> reachable env w ->
  animationComplete (gameState w) = true ->
  sizes 3 3 w
  \/ ((sizes 4 3 w \/ sizes 3 4 w) /\ mustDiscard (gameState w) = true).
Proof.
  intros Hw H. apply in_play_sizes with (env := env); [exact Hw|].
  now apply in_play_reachable.
Qed.

Lemma hand_sizes_witness :
  sizes 3 3 drawn0
  \/ ((sizes 4 3 drawn0 \/ sizes 3 4 drawn0)
      /\ mustDiscard (gameState drawn0) = true).
Proof.
  apply (@hand_sizes ambient0 drawn0).
  - intros n. split; vm_compute; reflexivity.
  - apply reachable_drawn0.
  - vm_compute. reflexivity.
Defined.

(** ** The opponent's turn with three cards *)

Lemma player2_discard_short env w :
  (length (player2Container w) <= 3)%nat ->
  findWorstCardConsideringSuits (player2Container w) = None
  /\ player2_discard env w = w.
Proof.
  intros H. pose proof (findWorst_short _ H) as E.
  split; [exact E|]. unfold player2_discard. now rewrite E.
Qed.

Lemma stalled_turn env d w :
  (length (player2Container w) <= 3)%nat ->
  pending w = [(d, Player2Discard)] ->
  exists w',
    fire env w = Some w'
    /\ w' = set_pending [] w
    /\ fire env w' = None.
Proof.
  intros H Hp. exists (set_pending [] w).
  unfold fire. rewrite Hp. cbn [elapse run_task].
  destruct (@player2_discard_short env (set_pending [] w)) as [_ E].
  { open_scene w. exact H. }
  rewrite E. split; [reflexivity|]. split; [reflexivity|].
  open_scene w. reflexivity.
Qed.

Lemma stalled_clicks e w :
  isPlayerTurn (gameState w) = false ->
  cardsInteractable (gameState w) = false ->
  endTurnButtonInteractive w = false ->
  plays_on e = true ->
  handle e w = w.
Proof.
  intros Hpt Hci Het He. open_scene w. cbn in Hpt, Hci, Het. subst.
  destruct e; try discriminate He; unfold handle; cbn;
    rewrite ?andb_false_r; reflexivity.
Qed.

Lemma reachable_player1_plays env w :
  reachable env w -> reachable env (player1_plays env w).
Proof.
  intros H. unfold player1_plays. cbv zeta.
  apply reachable_click.
  set (w1 := match topCard (deckContainer w) with
             | Some top => settle env 40 (click (ClickDeckCard top) w)
             | None => w
             end).
  assert (H1 : reachable env w1).
  { unfold w1. destruct (topCard (deckContainer w)).
    - apply reachable_settle. apply reachable_click. exact H.
    - exact H. }
  clearbody w1.
  destruct (rev (player1Container w1)).
  - exact H1.
  - apply reachable_settle. apply reachable_click. exact H1.
Qed.

Lemma reachable_rounds env n : forall w,
  reachable env w -> reachable env (Nat.iter n (play_round env) w).
Proof.
  induction n as [|n IH]; intros w H; cbn [Nat.iter]; [exact H|].
  unfold play_round at 1.
  apply reachable_settle. apply reachable_player1_plays. apply IH. exact H.
Qed.

Lemma reachable_dealt_long : reachable ambient_long dealt_long.
Proof. unfold dealt_long. apply reachable_settle. apply reach_create. Qed.

(** After one round of that game the discard pile holds [2♠ J♠ 2♣], oldest
    card first: [list[0]], the card the opponent's draw step inspects, is
    the [2♠] the deal put there, not the [2♣] on top. *)
Remark inspected_card_is_oldest :
  reachable ambient_long (play_round ambient_long dealt_long)
  /\ map cardData
       (discardPileContainer (play_round ambient_long dealt_long))
     = [mkCard R2 Spades; mkCard RJ Spades; mkCard R2 Clubs]
  /\ option_map cardData
       (topCard (discardPileContainer (play_round ambient_long dealt_long)))
     = Some (mkCard R2 Clubs)
  /\ ~ inspected_is_top
         (discardPileContainer (play_round ambient_long dealt_long)).
Proof.
  split.
  { unfold play_round. apply reachable_settle. apply reachable_player1_plays.
    apply reachable_dealt_long. }
  split; [vm_compute; reflexivity|].
  split; [vm_compute; reflexivity|].
  unfold inspected_is_top. vm_compute. intros H. discriminate H.
Qed.

Lemma reachable_stalling0 : reachable ambient_long stalling0.
Proof.
  unfold stalling0.
  apply reachable_settle. apply reachable_player1_plays.
  apply reachable_rounds. apply reachable_dealt_long.
Qed.

(** C10: a game the deck runs out in.  The shuffle is a deck of 52
    different cards; at the opponent's 23rd turn the draw finds the deck
    empty, the discard step runs with three cards in the opponent's hand
    and leaves nothing pending; the Knock button of player 1 still answers:
    the knock is recorded and the opponent's cards are turned over. *)
Theorem stalled_turn_knock :
  (distinct long_game_deck = true /\ length long_game_deck = 52%nat)
  /\ reachable ambient_long stalling0
  /\ deckContainer stalling0 = []
  /\ length (player2Container stalling0) = 3%nat
  /\ pending stalling0 = [(1500%nat, Player2Discard)]
  /\ findWorstCardConsideringSuits (player2Container stalling0) = None
  /\ fire ambient_long stalling0 = Some stalled0
  /\ pending stalled0 = []
  /\ isPlayerTurn (gameState stalled0) = false
  /\ knocked stalled0 = false
  /\ knocked (handle ClickKnock stalled0) = true
  /\ pending (handle ClickKnock stalled0) = [(600%nat, FlipPlayer2Done)]
  /\ restartButton (handle ClickKnock stalled0) = true.
Proof.
  split; [split; vm_compute; reflexivity|].
  split; [apply reachable_stalling0|].
  do 10 (split; [vm_compute; reflexivity|]).
  vm_compute; reflexivity.
Qed.

(** * Further properties of the code *)

(** ** Scoring (DeckManager.calculatePoints) *)

Lemma math_max_spec p r :
  In (math_max (p :: r)) (p :: r)
  /\ forall x, In x (p :: r) -> x <= math_max (p :: r).
Proof.
  cbn [math_max]. revert p. induction r as [|a r IH]; intros p; cbn [fold_left].
  - split; [now left|]. intros x [<-|[]]. lia.
  - destruct (IH (Z.max p a)) as [Hin Hle]. split.
    + destruct Hin as [Hin|Hin]; [|right; now right].
      rewrite <- Hin.
      destruct (Z.max_spec p a) as [[_ ->]|[_ ->]]; [right; now left|now left].
    + pose proof (Hle (Z.max p a) (or_introl eq_refl)) as Hm.
      intros x [E|[E|Hx]]; [lia|lia|]. apply Hle. now right.
Qed.

Lemma suitTotal_absent s cards :
  ~ In s (suitsOf cards) -> suitTotal s cards = 0.
Proof.
  intros H. unfold suitTotal.
  replace (filter (has_suit s) cards) with (@nil Sprite); [reflexivity|].
  symmetry. induction cards as [|c cards IH]; [reflexivity|].
  cbn [filter]. destruct (has_suit s c) eqn:E.
  - exfalso. apply H. apply (proj2 (suitsOf_spec (c :: cards))).
    exists c. split; [now left|]. unfold has_suit in E. now apply Suit_eqb_eq.
  - apply IH. intros Hin. apply H.
    apply (proj2 (suitsOf_spec cards)) in Hin. destruct Hin as (d & Hd & Hs).
    apply (proj2 (suitsOf_spec (c :: cards))). exists d. split; [now right|exact Hs].
Qed.

Lemma suitTotal_nonneg s cards : 0 <= suitTotal s cards.
Proof.
  unfold suitTotal. induction (filter (has_suit s) cards) as [|c l IH]; cbn; [lia|].
  pose proof (getCardValue_pos c). lia.
Qed.

Lemma maxPoints_spec cards :
  maxPoints (calculatePoints cards) = bestSuitTotal cards.
Proof.
  destruct cards as [|c0 cards0]; [reflexivity|].
  change (maxPoints (calculatePoints (c0 :: cards0)))
    with (math_max (obj_values (fold_left points_step (c0 :: cards0) []))).
  set (cards := c0 :: cards0).
  rewrite points_fold_spec. unfold obj_values. rewrite map_map. cbn [snd].
  assert (Hne : suitsOf cards <> []).
  { intros E.
    assert (Hin : In (suit (cardData c0)) (suitsOf cards)).
    { apply (proj2 (suitsOf_spec cards)). exists c0. split; [now left|reflexivity]. }
    rewrite E in Hin. destruct Hin. }
  destruct (suitsOf cards) as [|s0 S] eqn:ES; [congruence|]. cbn [map].
  destruct (math_max_spec (suitTotal s0 cards)
              (map (fun s => suitTotal s cards) S)) as [Hin Hle].
  set (m := math_max _) in *.
  assert (Hall : forall s, suitTotal s cards <= m).
  { intros s.
    assert (Hdec : In s (s0 :: S) \/ ~ In s (s0 :: S)).
    { destruct (existsb (Suit_eqb s) (s0 :: S)) eqn:E.
      - left. now apply mem_suit.
      - right. intros Hs. apply mem_suit in Hs. congruence. }
    destruct Hdec as [Hs|Hs].
    - apply Hle. change (In (suitTotal s cards)
                            (map (fun s => suitTotal s cards) (s0 :: S))).
      exact (in_map (fun t => suitTotal t cards) (s0 :: S) s Hs).
    - rewrite <- ES in Hs. rewrite (suitTotal_absent _ _ Hs).
      specialize (Hle _ (or_introl eq_refl)).
      pose proof (suitTotal_nonneg s0 cards). lia. }
  assert (Hex : exists s, m = suitTotal s cards).
  { change (In m (map (fun s => suitTotal s cards) (s0 :: S))) in Hin.
    apply in_map_iff in Hin. destruct Hin as (s & E & _). now exists s. }
  unfold bestSuitTotal.
  pose proof (Hall Hearts). pose proof (Hall Diamonds).
  pose proof (Hall Clubs). pose proof (Hall Spades).
  destruct Hex as ([] & E); lia.
Qed.

(** X1: [maxPoints] is the best suit total of the hand, 0 for the empty
    hand. *)
Theorem calculatePoints_best_suit cards :
  maxPoints (calculatePoints cards) = bestSuitTotal cards.
Proof. exact (maxPoints_spec cards). Qed.

Lemma suit_present_suitsOf s cards :
  suit_present s cards = existsb (Suit_eqb s) (suitsOf cards).
Proof.
  unfold suit_present.
  destruct (existsb (Suit_eqb s) (suitsOf cards)) eqn:E.
  - apply mem_suit in E. apply (proj2 (suitsOf_spec cards)) in E.
    destruct E as (c & Hc & Hs). apply existsb_exists. exists c.
    split; [exact Hc|]. unfold has_suit. now apply Suit_eqb_eq.
  - destruct (existsb (has_suit s) cards) eqn:E'; [|reflexivity].
    apply existsb_exists in E'. destruct E' as (c & Hc & Hs).
    assert (Hin : In s (suitsOf cards)).
    { apply (proj2 (suitsOf_spec cards)). exists c. split; [exact Hc|].
      unfold has_suit in Hs. now apply Suit_eqb_eq. }
    apply mem_suit in Hin. congruence.
Qed.

(** X2: [pointsBySuit] has one key per suit present in the hand, holding the
    total of that suit; the symbol of a suit that is not in the hand is a
    missing key. *)
Theorem pointsBySuit_lookup s cards :
  obj_get Symbol_eqb (getSuitSymbol s) (pointsBySuit (calculatePoints cards))
  = if suit_present s cards then Some (suitTotal s cards) else None.
Proof.
  rewrite pointsBySuit_spec, symbol_get, suit_present_suitsOf. reflexivity.
Qed.

Lemma occ_distinct l :
  distinct (map cardData l) = true -> forall x, (occ x l <= 1)%nat.
Proof.
  induction l as [|a l IH]; intros H x; cbn in *; [lia|].
  apply andb_prop in H. destruct H as [Ha Hl]. apply negb_true_iff in Ha.
  specialize (IH Hl x).
  destruct (Card_eqb (cardData a) x) eqn:E; [|lia].
  apply Card_eqb_eq in E. subst x.
  assert (H0 : occ (cardData a) l = 0%nat); [|lia].
  clear IH Hl. induction l as [|b l IH]; [reflexivity|].
  cbn in Ha |- *. apply orb_false_iff in Ha. destruct Ha as [Hb Hl].
  rewrite Card_eqb_sym, Hb. cbn. now apply IH.
Qed.

Lemma suitTotal_bound s l :
  suitTotal s l
  <= 10 * Z.of_nat (length (filter (has_suit s) l))
     + Z.of_nat (occ (mkCard RA s) l).
Proof.
  unfold suitTotal, mkCard. induction l as [|c l IH]; [cbn; lia|].
  cbn [filter occ]. destruct (has_suit s c) eqn:Hs.
  - destruct c as [[cs cr] d]. unfold has_suit in Hs. cbn [cardData suit] in Hs.
    apply Suit_eqb_eq in Hs. subst cs.
    cbn [map fold_right length]. unfold getCardValue at 1.
    unfold Card_eqb. cbn [cardData suit rank].
    rewrite Suit_eqb_refl. cbn [andb].
    destruct cr; cbn [Rank_eqb rankOrder]; lia.
  - assert (E : Card_eqb (cardData c) {| suit := s; rank := RA |} = false).
    { unfold Card_eqb. unfold has_suit in Hs. simpl. rewrite Hs. reflexivity. }
    rewrite E. lia.
Qed.

Lemma length_filter_le (A : Type) (f : A -> bool) l :
  (length (filter f l) <= length l)%nat.
Proof. induction l as [|a l IH]; cbn; [lia|]. destruct (f a); cbn; lia. Qed.

(** X3: a hand of at most three different cards scores at most 31. *)
Theorem maxPoints_at_most_31 cards :
  distinct (map cardData cards) = true ->
  (length cards <= 3)%nat ->
  maxPoints (calculatePoints cards) <= 31.
Proof.
  intros Hd Hlen. rewrite maxPoints_spec. unfold bestSuitTotal.
  assert (H : forall s, suitTotal s cards <= 31).
  { intros s. pose proof (suitTotal_bound s cards) as Hb.
    pose proof (occ_distinct cards Hd (mkCard RA s)) as Ho.
    pose proof (length_filter_le (has_suit s) cards) as Hf. lia. }
  pose proof (H Hearts). pose proof (H Diamonds).
  pose proof (H Clubs). pose proof (H Spades). lia.
Qed.

Lemma maxPoints_at_most_31_witness :
  maxPoints (calculatePoints
               [sprite RA Spades 0; sprite RK Spades 1; sprite RQ Spades 2])
  <= 31.
Proof.
  apply (@maxPoints_at_most_31
           [sprite RA Spades 0; sprite RK Spades 1; sprite RQ Spades 2]).
  - vm_compute. reflexivity.
  - simpl. lia.
Defined.

(** ** Sorting the hand (CardSortingManager) *)

Section SortByKey.
Variable A : Type.
Variable before : A -> A -> bool.
Variable key : A -> Z.
Hypothesis before_key : forall a b, before a b = (key a <=? key b).

Lemma sort_insert_perm x l : Permutation (sort_insert before x l) (x :: l).
Proof.
  induction l as [|y l IH]; cbn; [apply Permutation_refl|].
  destruct (before x y); [apply Permutation_refl|].
  eapply Permutation_trans; [apply perm_skip, IH|apply perm_swap].
Qed.

Lemma js_sort_perm l : Permutation (js_sort before l) l.
Proof.
  unfold js_sort. induction l as [|x l IH]; cbn; [constructor|].
  eapply Permutation_trans; [apply sort_insert_perm|]. now apply perm_skip.
Qed.

Lemma sort_insert_sorted x l :
  StronglySorted (fun a b => key a <= key b) l ->
  StronglySorted (fun a b => key a <= key b) (sort_insert before x l).
Proof.
  induction l as [|y l IH]; intros H; cbn.
  - constructor; constructor.
  - rewrite before_key. inversion H as [|? ? Hl Hy]; subst.
    destruct (Z.leb_spec (key x) (key y)) as [Hle|Hgt].
    + constructor; [exact H|]. constructor; [exact Hle|].
      rewrite Forall_forall in *. intros z Hz. specialize (Hy z Hz). lia.
    + constructor; [now apply IH|].
      rewrite Forall_forall in *. intros z Hz.
      apply (Permutation_in _ (sort_insert_perm x l)) in Hz.
      destruct Hz as [<-|Hz]; [lia|now apply Hy].
Qed.

Lemma js_sort_sorted l :
  StronglySorted (fun a b => key a <= key b) (js_sort before l).
Proof.
  unfold js_sort. induction l as [|x l IH]; cbn; [constructor|].
  now apply sort_insert_sorted.
Qed.

Variable p : A -> bool.
Variable k : Z.
Hypothesis p_key : forall a, p a = true -> key a = k.

Lemma sort_insert_stable x l :
  filter p (sort_insert before x l) = filter p (x :: l).
Proof.
  induction l as [|y l IH]; [reflexivity|].
  cbn [sort_insert]. rewrite before_key.
  destruct (Z.leb_spec (key x) (key y)) as [Hle|Hgt]; [reflexivity|].
  cbn [filter] in IH |- *. rewrite IH.
  destruct (p x) eqn:Px; [|reflexivity].
  destruct (p y) eqn:Py; [|reflexivity].
  apply p_key in Px. apply p_key in Py. lia.
Qed.

Lemma js_sort_stable l : filter p (js_sort before l) = filter p l.
Proof.
  unfold js_sort. induction l as [|x l IH]; [reflexivity|].
  cbn [fold_right]. rewrite sort_insert_stable. cbn [filter]. now rewrite IH.
Qed.
End SortByKey.

Lemma rank_before_key a b :
  rank_before a b = (getCardValue a <=? getCardValue b).
Proof.
  unfold rank_before, getCardValue.
  destruct (Z.leb_spec (rankOrder (rank (cardData a))
                        - rankOrder (rank (cardData b))) 0);
    destruct (Z.leb_spec (rankOrder (rank (cardData a)))
                         (rankOrder (rank (cardData b)))); lia.
Qed.

(** The key of the order by suit, then by rank. *)
Lemma suit_before_key a b :
  suit_before a b
  = (100 * suitOrder (suit (cardData a)) + getCardValue a
     <=? 100 * suitOrder (suit (cardData b)) + getCardValue b).
Proof.
  unfold suit_before, getCardValue.
  assert (Ha : 2 <= rankOrder (rank (cardData a)) <= 11)
    by (destruct (rank (cardData a)); cbn; lia).
  assert (Hb : 2 <= rankOrder (rank (cardData b)) <= 11)
    by (destruct (rank (cardData b)); cbn; lia).
  cbv zeta.
  destruct (Z.eqb_spec (suitOrder (suit (cardData a))
                        - suitOrder (suit (cardData b))) 0) as [E|E]; cbn [negb].
  - destruct (Z.leb_spec (rankOrder (rank (cardData a))
                          - rankOrder (rank (cardData b))) 0);
      match goal with |- _ = (?x <=? ?y) => destruct (Z.leb_spec x y) end; lia.
  - destruct (Z.leb_spec (suitOrder (suit (cardData a))
                          - suitOrder (suit (cardData b))) 0);
      match goal with |- _ = (?x <=? ?y) => destruct (Z.leb_spec x y) end; lia.
Qed.

(** X4: [sortCardsByRank] returns the cards of the hand, lowest value first;
    cards of equal value (10, J, Q, K among them) keep their order. *)
Theorem sortCardsByRank_sorted cards :
  Permutation (sortCardsByRank cards) cards
  /\ StronglySorted rank_le (sortCardsByRank cards)
  /\ forall v, of_value v (sortCardsByRank cards) = of_value v cards.
Proof.
  unfold sortCardsByRank. split; [apply js_sort_perm|]. split.
  - apply (js_sort_sorted rank_before getCardValue rank_before_key).
  - intros v. unfold of_value.
    apply (js_sort_stable rank_before getCardValue rank_before_key) with (k := v).
    intros a H. now apply Z.eqb_eq.
Qed.

(** X5: [sortCardsBySuit] returns the cards of the hand grouped by suit in
    the order Hearts, Diamonds, Clubs, Spades, each suit lowest value first;
    cards of one suit and value keep their order. *)
Theorem sortCardsBySuit_sorted cards :
  Permutation (sortCardsBySuit cards) cards
  /\ StronglySorted suit_rank_le (sortCardsBySuit cards)
  /\ forall s v,
       of_suit_value s v (sortCardsBySuit cards) = of_suit_value s v cards.
Proof.
  unfold sortCardsBySuit. split; [apply js_sort_perm|]. split.
  - pose proof (js_sort_sorted suit_before _ suit_before_key cards) as H.
    induction H as [|a l Hl IH Ha]; constructor; [exact IH|].
    rewrite Forall_forall in *. intros b Hb. specialize (Ha b Hb).
    unfold suit_rank_le.
    assert (Hva : 2 <= getCardValue a <= 11)
      by (unfold getCardValue; destruct (rank (cardData a)); cbn; lia).
    assert (Hvb : 2 <= getCardValue b <= 11)
      by (unfold getCardValue; destruct (rank (cardData b)); cbn; lia).
    lia.
  - intros s v. unfold of_suit_value.
    apply (js_sort_stable suit_before _ suit_before_key)
      with (k := 100 * suitOrder s + v).
    intros a H. apply andb_prop in H. destruct H as [Hs Hv].
    unfold has_suit in Hs. apply Suit_eqb_eq in Hs. apply Z.eqb_eq in Hv.
    rewrite Hs, Hv. reflexivity.
Qed.

Lemma suitTotal_perm s l l' :
  Permutation l l' -> suitTotal s l = suitTotal s l'.
Proof.
  unfold suitTotal. induction 1 as [|x l l' _ IH|x y l|l l' l'' _ IH1 _ IH2].
  - reflexivity.
  - cbn [filter]. destruct (has_suit s x); cbn; lia.
  - cbn [filter]. destruct (has_suit s x), (has_suit s y); cbn; lia.
  - lia.
Qed.

Lemma maxPoints_perm cards cards' :
  Permutation cards cards' ->
  maxPoints (calculatePoints cards') = maxPoints (calculatePoints cards).
Proof.
  intros H. rewrite !maxPoints_spec. unfold bestSuitTotal.
  now rewrite !(suitTotal_perm _ H).
Qed.

(** X6: sorting the hand, by rank or by suit, leaves its score as it is. *)
Theorem sorting_keeps_score cards :
  maxPoints (calculatePoints (sortCardsByRank cards))
  = maxPoints (calculatePoints cards)
  /\ maxPoints (calculatePoints (sortCardsBySuit cards))
     = maxPoints (calculatePoints cards).
Proof.
  split; apply maxPoints_perm, Permutation_sym, js_sort_perm.
Qed.

(** ** The top card of a container *)

Section KeepGreater.
Variable A : Type.
Variable val : A -> Z.

Lemma keep_first_max l : forall h,
  first_max val
    (fold_left (fun highest current =>
                  if val current >? val highest then current else highest) l h)
    (h :: l).
Proof.
  induction l as [|a l IH]; intros h; cbn [fold_left].
  - exists [], []. split; [reflexivity|]. split; intros y [].
  - destruct (Z.gtb_spec (val a) (val h)) as [Hgt|Hle].
    + destruct (IH a) as (l1 & l2 & E & Hb & Ha).
      exists (h :: l1), l2. split; [cbn; f_equal; exact E|]. split; [|exact Ha].
      assert (Hr : val a <= val (fold_left
                     (fun highest current =>
                        if val current >? val highest then current else highest)
                     l a)).
      { destruct l1 as [|b l1]; cbn in E.
        - injection E as E _. rewrite <- E. lia.
        - injection E as E _. subst b.
          specialize (Hb a (or_introl eq_refl)). lia. }
      intros y [<-|Hy]; [lia|now apply Hb].
    + destruct (IH h) as (l1 & l2 & E & Hb & Ha).
      destruct l1 as [|b l1]; cbn in E.
      * injection E as E E2. exists [], (a :: l2).
        split; [cbn; f_equal; [exact E|f_equal; exact E2]|]. split; [intros y []|].
        intros y [<-|Hy]; [rewrite <- E; lia|now apply Ha].
      * injection E as E E2. subst b. exists (h :: a :: l1), l2.
        split; [cbn; do 2 f_equal; exact E2|]. split; [|exact Ha].
        pose proof (Hb h (or_introl eq_refl)) as Hh.
        intros y [<-|[<-|Hy]]; [exact Hh|lia|].
        apply Hb. now right.
Qed.
End KeepGreater.

Lemma topCard_first_max l top :
  topCard l = Some top -> first_max depth top l.
Proof.
  destruct l as [|first rest]; [discriminate|]. unfold topCard.
  intros [= <-]. cbn [fold_left].
  replace (depth first >? depth first) with false
    by (symmetry; rewrite Z.gtb_ltb; apply Z.ltb_irrefl).
  apply keep_first_max.
Qed.

(** X7: the top card of a container is the card of greatest depth, the
    first one in the list when several share it; only an empty container
    has none. *)
Theorem topCard_first_highest l :
  match topCard l with
  | None => l = []
  | Some top => first_max depth top l
  end.
Proof.
  destruct (topCard l) as [top|] eqn:E.
  - now apply topCard_first_max.
  - now apply topCard_none.
Qed.

Lemma createDeck_from_last l : forall i c h,
  depth h < i ->
  fold_left (fun highest current =>
               if depth current >? depth highest then current else highest)
            (createDeck_from i (l ++ [c])) h
  = {| cardData := c; depth := i + Z.of_nat (length l) |}.
Proof.
  induction l as [|a l IH]; intros i c h Hh; cbn [app createDeck_from fold_left].
  - cbn [depth]. replace (i >? depth h) with true
      by (symmetry; apply Z.gtb_lt; lia).
    cbn. f_equal. lia.
  - cbn [depth]. replace (i >? depth h) with true
      by (symmetry; apply Z.gtb_lt; lia).
    rewrite IH by (cbn; lia). f_equal. cbn [length]. lia.
Qed.

Lemma length_createDeck_from l : forall i,
  length (createDeck_from i l) = length l.
Proof. induction l as [|a l IH]; intros i; cbn; [reflexivity|]. now rewrite IH. Qed.

(** X8: [createDeck] makes one image per card of the shuffled array, in
    array order, the image of index [i] at depth [i]; the top card of the
    new deck is the last card of the array. *)
Theorem createDeck_top l c :
  map cardData (createDeck (l ++ [c])) = l ++ [c]
  /\ (forall i s, nth_error (createDeck (l ++ [c])) i = Some s ->
                  depth s = Z.of_nat i)
  /\ topCard (createDeck (l ++ [c]))
     = Some {| cardData := c; depth := Z.of_nat (length l) |}.
Proof.
  unfold createDeck. split; [apply createDeck_from_cards|]. split.
  - generalize (l ++ [c]). intros d.
    assert (H : forall d k i s, nth_error (createDeck_from k d) i = Some s ->
                                depth s = k + Z.of_nat i).
    { clear. induction d as [|a d IH]; intros k i s; cbn.
      - destruct i; discriminate.
      - destruct i as [|i]; cbn.
        + intros [= <-]. cbn. lia.
        + intros H. apply IH in H. lia. }
    intros i s Hs. now apply H in Hs.
  - unfold topCard. destruct l as [|a l]; [reflexivity|].
    cbn [app createDeck_from fold_left].
    replace (depth {| cardData := a; depth := 0 |}
             >? depth {| cardData := a; depth := 0 |}) with false by reflexivity.
    rewrite createDeck_from_last by (cbn; lia). f_equal. f_equal.
    cbn [length]. lia.
Qed.

(** ** Depths in the discard pile (DiscardPileManager) *)

Lemma getHighestDepth_spec l :
  l <> [] ->
  (exists c, In c l /\ getHighestDepth l = depth c)
  /\ forall c, In c l -> depth c <= getHighestDepth l.
Proof.
  destruct l as [|a l]; [congruence|]. intros _. unfold getHighestDepth.
  cbn [map].
  destruct (math_max_spec (depth a) (map (fun c => depth c) l)) as [Hin Hle].
  split.
  - change (In (math_max (depth a :: map (fun c => depth c) l))
               (map (fun c => depth c) (a :: l))) in Hin.
    apply in_map_iff in Hin. destruct Hin as (c & E & Hc). now exists c.
  - intros c Hc. apply Hle.
    change (In (depth c) (map (fun c => depth c) (a :: l))).
    exact (in_map (fun c => depth c) (a :: l) c Hc).
Qed.

Lemma currentHighestDepth_fold l : forall m,
  m <= fold_left (fun highest current => Z.max highest (depth current)) l m
  /\ (forall c, In c l ->
       depth c
       <= fold_left (fun highest current => Z.max highest (depth current)) l m)
  /\ (fold_left (fun highest current => Z.max highest (depth current)) l m = m
      \/ exists c,
           In c l
           /\ fold_left (fun highest current => Z.max highest (depth current))
                        l m = depth c).
Proof.
  induction l as [|a l IH]; intros m; cbn [fold_left].
  - split; [lia|]. split; [intros c []|now left].
  - destruct (IH (Z.max m (depth a))) as (H1 & H2 & H3).
    split; [lia|]. split.
    + intros c [<-|Hc]; [lia|now apply H2].
    + destruct H3 as [E|(c & Hc & E)].
      * destruct (Z.max_spec m (depth a)) as [[_ Hm]|[_ Hm]].
        -- right. exists a. split; [now left|]. now rewrite E.
        -- left. now rewrite E.
      * right. exists c. split; [now right|exact E].
Qed.

(** X9: [getHighestDepth] is 0 for an empty container and otherwise the
    greatest depth of its cards; the inline reduce of the discard code,
    which starts from 0, gives the same number unless every depth is
    negative, and then 0. *)
Theorem getHighestDepth_greatest l :
  getHighestDepth [] = 0
  /\ (l <> [] ->
      (exists c, In c l /\ getHighestDepth l = depth c)
      /\ forall c, In c l -> depth c <= getHighestDepth l)
  /\ currentHighestDepth l = Z.max 0 (getHighestDepth l).
Proof.
  split; [reflexivity|]. split; [apply getHighestDepth_spec|].
  unfold currentHighestDepth.
  destruct (currentHighestDepth_fold l 0) as (H1 & H2 & H3).
  destruct l as [|a l]; [reflexivity|].
  destruct (@getHighestDepth_spec (a :: l)) as [(c & Hc & E) Hle]; [discriminate|].
  specialize (H2 c Hc).
  destruct H3 as [E0|(d & Hd & Ed)].
  - lia.
  - specialize (Hle d Hd). lia.
Qed.

Lemma occ_zero_out c l :
  occ (cardData c) l = 0%nat -> forall x, In x l -> same_card x c = false.
Proof.
  induction l as [|a l IH]; intros H x; [intros []|].
  cbn [occ] in H. unfold same_card.
  destruct (Card_eqb (cardData a) (cardData c)) eqn:E; [discriminate H|].
  intros [<-|Hx]; [exact E|]. apply IH; [exact H|exact Hx].
Qed.

Lemma topCard_last l c :
  (forall x, In x l -> depth x < depth c) -> topCard (l ++ [c]) = Some c.
Proof.
  intros H. destruct (topCard (l ++ [c])) as [top|] eqn:E.
  - apply topCard_first_max in E. destruct E as (l1 & l2 & E & _ & Ha).
    destruct l2 as [|b l2] using rev_ind.
    + apply app_inj_tail in E. destruct E as [_ ->]. reflexivity.
    + clear IHl2. change (l1 ++ top :: l2 ++ [b]) with (l1 ++ (top :: l2) ++ [b]) in E.
      rewrite app_assoc in E. apply app_inj_tail in E. destruct E as [E ->].
      assert (Hin : In top l) by (rewrite E; apply in_or_app; right; now left).
      specialize (H top Hin).
      assert (Hb : depth b <= depth top).
      { apply Ha. apply in_or_app. right. now left. }
      lia.
  - apply topCard_none in E. destruct l; discriminate E.
Qed.

(** X10: when the discard tween completes on a card that is in no
    container, the card becomes the last child of the discard pile, at a
    depth above every card of the pile: it is the pile's top card, the one
    the next draw from the pile takes.  The deck and the hands keep their
    cards. *)
Theorem discard_lands_on_top player card w :
  copies (cardData card) [] w = 0%nat ->
  exists d,
    discardPileContainer (discard_done player card w)
    = discardPileContainer w ++ [with_depth d card]
    /\ (forall c, In c (discardPileContainer w) -> depth c < d)
    /\ topCard (discardPileContainer (discard_done player card w))
       = Some (with_depth d card)
    /\ deckContainer (discard_done player card w) = deckContainer w
    /\ player1Container (discard_done player card w) = player1Container w
    /\ player2Container (discard_done player card w) = player2Container w.
Proof.
  intros H. open_scene w. unfold copies in H. cbn in H.
  assert (H0 : occ (cardData card) deck = 0%nat) by lia.
  assert (H1 : occ (cardData card) hand1 = 0%nat) by lia.
  assert (H2 : occ (cardData card) hand2 = 0%nat) by lia.
  assert (H3 : occ (cardData card) pile = 0%nat) by lia.
  exists (getHighestDepth (pile ++ [card]) + 10).
  assert (Hlt : forall c, In c pile ->
                  depth c < getHighestDepth (pile ++ [card]) + 10).
  { intros c Hc.
    destruct (@getHighestDepth_spec (pile ++ [card])) as [_ Hle].
    { destruct pile; discriminate. }
    specialize (Hle c (in_or_app _ _ _ (or_introl Hc))). lia. }
  assert (Hpile : depth_in card (getHighestDepth (pile ++ [card]) + 10)
                    (pile ++ [card])
                  = pile ++ [with_depth (getHighestDepth (pile ++ [card]) + 10) card]).
  { rewrite depth_in_app, (depth_in_out _ _ _ (occ_zero_out _ _ H3)).
    unfold depth_in. cbn [map]. unfold same_card. now rewrite Card_eqb_refl. }
  unfold discard_done, addToDiscardPile, detach, setDepth, updatePoints,
    updateEndTurnButton, updateTotalPoints, updateTotalPointsPlayer2. cbn.
  rewrite (container_remove_out _ _ H0), (container_remove_out _ _ H1),
    (container_remove_out _ _ H2), (container_remove_out _ _ H3).
  rewrite Hpile, (depth_in_out _ _ _ (occ_zero_out _ _ H0)),
    (depth_in_out _ _ _ (occ_zero_out _ _ H1)),
    (depth_in_out _ _ _ (occ_zero_out _ _ H2)).
  destruct player; cbn; repeat (case_if; cbn);
    (split; [reflexivity|]); (split; [exact Hlt|]);
    (split; [apply topCard_last; exact Hlt|]); repeat split.
Qed.

Lemma discard_lands_on_top_witness :
  exists d,
    discardPileContainer (discard_done Player1 (sprite R7 Spades 111) discarding0)
    = discardPileContainer discarding0 ++ [with_depth d (sprite R7 Spades 111)]
    /\ (forall c, In c (discardPileContainer discarding0) -> depth c < d)
    /\ topCard (discardPileContainer
                  (discard_done Player1 (sprite R7 Spades 111) discarding0))
       = Some (with_depth d (sprite R7 Spades 111))
    /\ deckContainer (discard_done Player1 (sprite R7 Spades 111) discarding0)
       = deckContainer discarding0
    /\ player1Container (discard_done Player1 (sprite R7 Spades 111) discarding0)
       = player1Container discarding0
    /\ player2Container (discard_done Player1 (sprite R7 Spades 111) discarding0)
       = player2Container discarding0.
Proof.
  apply (@discard_lands_on_top Player1 (sprite R7 Spades 111) discarding0).
  vm_compute. reflexivity.
Defined.

(** ** After a knock *)

(** X11: once the knock flag is set, no click moves a card: whatever the
    player clicks, the deck, the hands and the discard pile stay as they
    are. *)
Theorem knocked_clicks_keep_cards e w :
  knocked w = true ->
  deckContainer (handle e w) = deckContainer w
  /\ player1Container (handle e w) = player1Container w
  /\ player2Container (handle e w) = player2Container w
  /\ discardPileContainer (handle e w) = discardPileContainer w.
Proof.
  intros H. open_scene w. unfold knocked in H. cbn in H. subst kn.
  destruct e; unfold handle; cbn.
  - case_if; [|repeat split]. unfold moveCardToPlayer. cbn.
    rewrite !orb_true_r. cbn. repeat split.
  - case_if; [|repeat split]. unfold moveCardToPlayer. cbn.
    rewrite !orb_true_r. cbn. repeat split.
  - case_if; [|repeat split]. unfold discardCard. cbn.
    rewrite !orb_true_r. cbn. repeat split.
  - rewrite !orb_true_r. case_if; repeat split.
  - unfold onEndTurn. case_if; cbn; repeat split.
  - case_if; cbn; repeat split.
  - rewrite andb_false_r. repeat split.
  - rewrite andb_false_r. repeat split.
Qed.

Lemma knocked_clicks_keep_cards_witness :
  deckContainer (handle ClickEndTurn (handle ClickKnock dealt0))
  = deckContainer (handle ClickKnock dealt0)
  /\ player1Container (handle ClickEndTurn (handle ClickKnock dealt0))
     = player1Container (handle ClickKnock dealt0)
  /\ player2Container (handle ClickEndTurn (handle ClickKnock dealt0))
     = player2Container (handle ClickKnock dealt0)
  /\ discardPileContainer (handle ClickEndTurn (handle ClickKnock dealt0))
     = discardPileContainer (handle ClickKnock dealt0).
Proof.
  apply (@knocked_clicks_keep_cards ClickEndTurn (handle ClickKnock dealt0)).
  vm_compute. reflexivity.
Defined.

(** X12: a Knock click that the handler accepts, in a scene at rest whose
    opponent holds cards, turns the opponent's cards over; when the flip
    completes the opponent's points are those of its hand, the result text
    compares them with the points shown for player 1, and the Restart
    button is there. *)
Theorem knock_shows_result env w :
  pending w = [] ->
  knockButtonInteractive w = true ->
  animationComplete (gameState w) = true ->
  (length (player1Container w) <= 3)%nat ->
  knocked w = false ->
  player2Container w <> [] ->
  pending (handle ClickKnock w) = [(600%nat, FlipPlayer2Done)]
  /\ knocked (settle env 1 (handle ClickKnock w)) = true
  /\ player2Points (settle env 1 (handle ClickKnock w))
     = maxPoints (calculatePoints (player2Container w))
  /\ resultText (settle env 1 (handle ClickKnock w))
     = Some (checkWinner_text (player1Points w)
               (maxPoints (calculatePoints (player2Container w))))
  /\ restartButton (settle env 1 (handle ClickKnock w)) = true
  /\ pending (settle env 1 (handle ClickKnock w)) = [].
Proof.
  intros Hp Hk Hac Hlen Hkn Hne. open_scene w.
  unfold knocked in *. cbn in Hp, Hk, Hac, Hlen, Hkn, Hne. subst.
  destruct hand2 as [|c hand2]; [congruence|].
  destruct hand1 as [|a1 [|a2 [|a3 [|a4 hand1]]]];
    try (cbn in Hlen; lia);
    unfold handle; cbn; unfold onKnock, flipPlayer2Cards; cbn; repeat split.
Qed.

Lemma knock_shows_result_witness :
  pending (handle ClickKnock dealt0) = [(600%nat, FlipPlayer2Done)]
  /\ knocked (settle ambient0 1 (handle ClickKnock dealt0)) = true
  /\ player2Points (settle ambient0 1 (handle ClickKnock dealt0))
     = maxPoints (calculatePoints (player2Container dealt0))
  /\ resultText (settle ambient0 1 (handle ClickKnock dealt0))
     = Some (checkWinner_text (player1Points dealt0)
               (maxPoints (calculatePoints (player2Container dealt0))))
  /\ restartButton (settle ambient0 1 (handle ClickKnock dealt0)) = true
  /\ pending (settle ambient0 1 (handle ClickKnock dealt0)) = [].
Proof.
  apply (@knock_shows_result ambient0 dealt0).
  - vm_compute. reflexivity.
  - vm_compute. reflexivity.
  - vm_compute. reflexivity.
  - vm_compute. lia.
  - vm_compute. reflexivity.
  - vm_compute. discriminate.
Defined.

(** ** The suit symbols *)

(** X13: [getSuitNameFromSymbol] undoes [getSuitSymbol], every symbol is the
    symbol of one suit, and [undefined] is mapped to [undefined]. *)
Theorem suit_symbol_roundtrip :
  (forall s, getSuitNameFromSymbol (Some (getSuitSymbol s)) = Some s)
  /\ (forall y, exists s,
        getSuitNameFromSymbol (Some y) = Some s /\ getSuitSymbol s = y)
  /\ getSuitNameFromSymbol None = None.
Proof.
  split; [intros []; reflexivity|]. split; [|reflexivity].
  intros []; [exists Hearts|exists Diamonds|exists Clubs|exists Spades];
    split; reflexivity.
Qed.

(** ** [DeckManager.findWorstCard] *)

Lemma first_max_neg (A : Type) (val : A -> Z) x l :
  first_max (fun a => - val a) x l -> first_min val x l.
Proof.
  intros (l1 & l2 & E & Hb & Ha). exists l1, l2. split; [exact E|].
  split; intros y Hy; [specialize (Hb y Hy)|specialize (Ha y Hy)]; lia.
Qed.

Lemma findWorstCard_fold l : forall h,
  fold_left (fun acc card =>
               if getCardValue card <? snd acc
               then (card, getCardValue card) else acc)
            l (h, getCardValue h)
  = (fold_left (fun highest current =>
                  if - getCardValue current >? - getCardValue highest
                  then current else highest) l h,
     getCardValue
       (fold_left (fun highest current =>
                     if - getCardValue current >? - getCardValue highest
                     then current else highest) l h)).
Proof.
  induction l as [|a l IH]; intros h; cbn [fold_left snd]; [reflexivity|].
  destruct (Z.ltb_spec (getCardValue a) (getCardValue h));
    destruct (Z.gtb_spec (- getCardValue a) (- getCardValue h)); try lia;
    apply IH.
Qed.

(** X14: [findWorstCard] gives nothing for a hand of three cards or fewer
    and otherwise the card of lowest value, the first such card of the
    hand. *)
Theorem findWorstCard_first_lowest cards :
  match findWorstCard cards with
  | None => (length cards <= 3)%nat
  | Some c => (3 < length cards)%nat /\ first_lowest c cards
  end.
Proof.
  unfold findWorstCard. destruct cards as [|first rest]; [cbn; lia|].
  destruct (Nat.leb_spec (length (first :: rest)) 3) as [Hle|Hgt]; [exact Hle|].
  split; [exact Hgt|]. cbn [fold_left snd].
  rewrite Z.ltb_irrefl, findWorstCard_fold. cbn [fst].
  apply first_max_neg. apply keep_first_max.
Qed.

(** ** The opponent's knock decision *)

Lemma round_half_even_nonneg x : (0 <= x)%Q -> 0 <= round_half_even x.
Proof.
  intros H. unfold round_half_even.
  assert (F : 0 <= Qfloor x).
  { change 0 with (Qfloor 0). now apply Qfloor_resp_le. }
  destruct (x - inject_Z (Qfloor x) ?= 1 # 2)%Q; [destruct (Z.even _)| |]; lia.
Qed.

Lemma round_half_even_le x k :
  (x <= inject_Z k)%Q -> round_half_even x <= k.
Proof.
  intros H. unfold round_half_even.
  assert (F : Qfloor x <= k).
  { rewrite <- (Qfloor_Z k). now apply Qfloor_resp_le. }
  assert (G : (0 < x - inject_Z (Qfloor x))%Q -> Qfloor x + 1 <= k).
  { intros P. destruct (Z.eq_dec (Qfloor x) k) as [E|E]; [|lia].
    exfalso. rewrite E in P.
    apply (Qlt_not_le _ _ P). apply Qle_minus_iff in H.
    apply Qle_minus_iff.
    setoid_replace (0 + - (x - inject_Z k))%Q with (inject_Z k + - x)%Q by ring.
    exact H. }
  destruct (x - inject_Z (Qfloor x) ?= 1 # 2)%Q eqn:C.
  - apply Qeq_alt in C. destruct (Z.even _); [exact F|].
    apply G. rewrite C. reflexivity.
  - exact F.
  - apply Qgt_alt in C. apply G. eapply Qlt_trans; [|exact C]. reflexivity.
Qed.

Lemma ilog2_small q : (0 < q)%Q -> (q < 8)%Q -> ilog2 q <= 2.
Proof.
  intros Hp Hq. unfold ilog2.
  destruct (Qle_bool _ q) eqn:E.
  - apply Qle_bool_iff in E.
    assert (L : (2 ^ (Z.log2 (Qnum q) - Z.log2 (Z.pos (Qden q))) < 2 ^ 3)%Q).
    { eapply Qle_lt_trans; [exact E|]. exact Hq. }
    apply Qpower_lt_compat_l_inv in L; [lia|reflexivity].
  - destruct q as [n d]. unfold Qlt in Hp, Hq.
    cbn [Qnum Qden] in *. clear E.
    assert (Hn : 0 < n) by lia.
    assert (L : Z.log2 n <= Z.log2 (Z.pos d * 2 ^ 3)).
    { apply Z.log2_le_mono. change (2 ^ 3) with 8. lia. }
    rewrite Z.log2_mul_pow2 in L by lia. lia.
Qed.

Lemma binary64_range q k :
  (0 <= q)%Q -> (q <= inject_Z k)%Q -> k < 8 ->
  (0 <= binary64 q)%Q /\ (binary64 q <= inject_Z k)%Q.
Proof.
  intros H0 Hk K8. unfold binary64.
  destruct (Qnum q) eqn:En.
  - split; [apply Qle_refl|]. eapply Qle_trans; [exact H0|exact Hk].
  - assert (Hp : (0 < q)%Q) by (destruct q; unfold Qlt; cbn in *; lia).
    assert (H8 : (q < 8)%Q).
    { eapply Qle_lt_trans; [exact Hk|]. unfold Qlt. cbn. lia. }
    pose proof (@ilog2_small q Hp H8) as He.
    unfold binary64_pos.
    set (e := Z.max (ilog2 q) (-1022)).
    assert (Hn : 0 <= 52 - e) by (unfold e; lia).
    set (ulp := (2 ^ (e - 52))%Q).
    assert (Hu : (0 < ulp)%Q) by (apply Qpower_0_lt; reflexivity).
    assert (Eu : (inject_Z (2 ^ (52 - e)) * ulp == 1)%Q).
    { rewrite Zpower_Qpower by exact Hn. unfold ulp.
      rewrite <- Qpower_plus by discriminate.
      replace (52 - e + (e - 52)) with 0 by lia. reflexivity. }
    assert (Hx0 : (0 <= q / ulp)%Q).
    { apply Qle_shift_div_l; [exact Hu|]. now rewrite Qmult_0_l. }
    assert (Hxk : (q / ulp <= inject_Z (k * 2 ^ (52 - e)))%Q).
    { apply Qle_shift_div_r; [exact Hu|].
      rewrite inject_Z_mult, <- Qmult_assoc, Eu, Qmult_1_r. exact Hk. }
    pose proof (@round_half_even_nonneg _ Hx0) as M0.
    pose proof (@round_half_even_le _ _ Hxk) as Mk.
    set (m := round_half_even (q / ulp)) in *.
    split.
    + apply Qmult_le_0_compat; [|now apply Qlt_le_weak].
      change 0%Q with (inject_Z 0). now rewrite <- Zle_Qle.
    + setoid_replace (inject_Z k)
        with (inject_Z (k * 2 ^ (52 - e)) * ulp)%Q
        by (rewrite inject_Z_mult, <- Qmult_assoc, Eu, Qmult_1_r; reflexivity).
      apply Qmult_le_compat_r; [|now apply Qlt_le_weak].
      now rewrite <- Zle_Qle.
  - exfalso. destruct q as [n d]. unfold Qle in H0. cbn in *. lia.
Qed.

(** [Math.floor(Math.random() * 5)]: the product of a number below 1 and 5
    is rounded to a double, which is at most 5. *)
Lemma knockThreshold_range r :
  (0 <= r)%Q -> (r < 1)%Q -> 0 <= Qfloor (number_mul r 5) <= 5.
Proof.
  intros H0 H1. unfold number_mul.
  destruct (@binary64_range (r * 5) 5) as [A B].
  - apply Qmult_le_0_compat; [exact H0|discriminate].
  - setoid_replace (inject_Z 5) with (1 * 5)%Q by reflexivity.
    apply Qmult_le_compat_r; [now apply Qlt_le_weak|discriminate].
  - lia.
  - split.
    + change 0 with (Qfloor 0). now apply Qfloor_resp_le.
    + rewrite <- (Qfloor_Z 5). now apply Qfloor_resp_le.
Qed.

(** The doubles that the literals [0.2] and [0.7] denote: the first is
    above 2/10, the second below 7/10. *)
Remark number_literals :
  (binary64 (2 # 10) == 3602879701896397 # 18014398509481984
   /\ binary64 (7 # 10) == 3152519739159347 # 4503599627370496
   /\ 2 # 10 < binary64 (2 # 10)
   /\ binary64 (7 # 10) < 7 # 10)%Q.
Proof. repeat split; vm_compute; reflexivity. Qed.

(** The product is rounded before [Math.floor]: for the double nearest to
    0.6 it is 3, where the exact product is below 3, so the threshold is 23
    and the opponent does not knock at 22 points against 10. *)
Remark knockThreshold_rounded :
  let r := (5404319552844595 # 9007199254740992)%Q in
  binary64 (6 # 10) == r
  /\ Qfloor (r * 5) = 2
  /\ Qfloor (number_mul r 5) = 3
  /\ shouldKnock {| random := fun _ => r; shuffled := fun _ => newDeck |}
       0 22 10 = (false, 1%nat).
Proof. cbv zeta. repeat split; vm_compute; reflexivity. Qed.

(** X15: with [Math.random()] in [0, 1), and its product with 5 rounded to
    a double before [Math.floor], the opponent knocks at 27 points or more,
    and at 25 or 26 when it has more points than player 1; it does not
    knock under 20 points, nor under 25 when player 1 has at least as many
    points.  Each of these decisions reads one random number. *)
Theorem shouldKnock_thresholds env calls newPoints estimatedPlayer1Points :
  (0 <= random env calls)%Q -> (random env calls < 1)%Q ->
  (27 <= newPoints ->
   shouldKnock env calls newPoints estimatedPlayer1Points = (true, S calls))
  /\ (25 <= newPoints -> estimatedPlayer1Points < newPoints ->
      shouldKnock env calls newPoints estimatedPlayer1Points = (true, S calls))
  /\ (newPoints < 20 ->
      shouldKnock env calls newPoints estimatedPlayer1Points = (false, S calls))
  /\ (newPoints < 25 -> newPoints <= estimatedPlayer1Points ->
      shouldKnock env calls newPoints estimatedPlayer1Points = (false, S calls)).
Proof.
  intros H0 H1. pose proof (@knockThreshold_range _ H0 H1) as Ht.
  unfold shouldKnock. cbv zeta.
  set (t := Qfloor (number_mul (random env calls) 5)) in *.
  repeat split; intros;
    repeat match goal with
      | |- context [?a >=? ?b] =>
          destruct (Z.geb_spec a b); try lia
      | |- context [?a >? ?b] =>
          destruct (Z.gtb_spec a b); try lia
      end; cbn; try reflexivity.
Qed.

Lemma shouldKnock_thresholds_witness :
  (27 <= 28 -> shouldKnock ambient0 0 28 20 = (true, 1%nat))
  /\ (25 <= 28 -> 20 < 28 -> shouldKnock ambient0 0 28 20 = (true, 1%nat))
  /\ (28 < 20 -> shouldKnock ambient0 0 28 20 = (false, 1%nat))
  /\ (28 < 25 -> 28 <= 20 -> shouldKnock ambient0 0 28 20 = (false, 1%nat)).
Proof.
  apply (@shouldKnock_thresholds ambient0 0%nat 28 20).
  - vm_compute. discriminate.
  - vm_compute. reflexivity.
Defined.

(** ** What the opponent's discard costs *)

Lemma suitTotal_remove t c cards :
  In c cards ->
  suitTotal t (container_remove c cards)
  = suitTotal t cards - (if has_suit t c then getCardValue c else 0).
Proof.
  unfold suitTotal. induction cards as [|a cards IH]; [intros []|].
  intros Hin. cbn [container_remove]. unfold same_card at 1.
  destruct (Card_eqb (cardData a) (cardData c)) eqn:E.
  - apply Card_eqb_eq in E. cbn [filter].
    replace (has_suit t a) with (has_suit t c) by (unfold has_suit; now rewrite E).
    destruct (has_suit t c); [|lia]. cbn [map fold_right].
    replace (getCardValue a) with (getCardValue c)
      by (unfold getCardValue; now rewrite E).
    lia.
  - destruct Hin as [->|Hin]; [rewrite Card_eqb_refl in E; discriminate E|].
    cbn [filter]. destruct (has_suit t a); cbn [map fold_right];
      rewrite (IH Hin); lia.
Qed.

Lemma strongest_is_best s cards :
  strongest_first s cards -> bestSuitTotal cards = suitTotal s cards.
Proof.
  intros (l1 & l2 & E & Hb & Ha).
  assert (H : forall t, suitTotal t cards <= suitTotal s cards).
  { intros t.
    destruct (existsb (Suit_eqb t) (suitsOf cards)) eqn:Et.
    - apply mem_suit in Et. rewrite E in Et. apply in_app_or in Et.
      destruct Et as [Ht|[<-|Ht]]; [specialize (Hb t Ht); lia|lia|now apply Ha].
    - assert (Hn : ~ In t (suitsOf cards))
        by (intros Hin; apply mem_suit in Hin; congruence).
      rewrite (suitTotal_absent _ _ Hn). apply suitTotal_nonneg. }
  unfold bestSuitTotal.
  pose proof (H Hearts). pose proof (H Diamonds).
  pose proof (H Clubs). pose proof (H Spades). destruct s; lia.
Qed.

(** X16: the card the opponent discards from a hand of more than three
    cards is a card of the hand; when the hand holds cards outside its
    strongest suit the discard leaves the score of the hand as it is, and
    when all its cards are of one suit the score drops by the value of the
    discarded card, the lowest of the hand. *)
Theorem discard_keeps_best_suit cards :
  (3 < length cards)%nat ->
  exists s c,
    strongestSuit cards = Some s
    /\ findWorstCardConsideringSuits cards = Some c /\ In c cards
    /\ (outside s cards <> [] ->
        suit (cardData c) <> s
        /\ maxPoints (calculatePoints (after_discard cards))
           = maxPoints (calculatePoints cards))
    /\ (outside s cards = [] ->
        maxPoints (calculatePoints (after_discard cards))
        = maxPoints (calculatePoints cards) - getCardValue c).
Proof.
  intros Hlen.
  destruct (@findWorst_lowest cards Hlen) as (s & c & Hs & Hfirst & Ec & Ho & Ha).
  destruct (@findWorst_in cards Hlen) as (c' & Ec' & Hin).
  rewrite Ec in Ec'. injection Ec' as <-.
  exists s, c. split; [exact Hs|]. split; [exact Ec|]. split; [exact Hin|].
  unfold after_discard. rewrite Ec, !maxPoints_spec.
  rewrite (strongest_is_best Hfirst).
  assert (Hrem : forall t, suitTotal t (container_remove c cards)
                           <= suitTotal t cards).
  { intros t. rewrite (suitTotal_remove t _ _ Hin).
    pose proof (getCardValue_pos c). destruct (has_suit t c); lia. }
  split.
  - intros Hne. specialize (Ho Hne).
    assert (Hc : In c (outside s (groupedBySuit cards)))
      by (apply first_min_in with (val := getCardValue); exact Ho).
    unfold outside in Hc. apply filter_In in Hc. destruct Hc as [_ Hc].
    apply negb_true_iff in Hc.
    split.
    { intros E. unfold has_suit in Hc. rewrite E, Suit_eqb_refl in Hc.
      discriminate Hc. }
    pose proof (suitTotal_remove s _ _ Hin) as Hsame. rewrite Hc in Hsame.
    unfold bestSuitTotal.
    pose proof (Hrem Hearts). pose proof (Hrem Diamonds).
    pose proof (Hrem Clubs). pose proof (Hrem Spades).
    pose proof (strongest_is_best Hfirst) as Hbest. unfold bestSuitTotal in Hbest.
    destruct s; lia.
  - intros Hnil.
    assert (Hall : forall d, In d cards -> has_suit s d = true)
      by (now apply outside_nil).
    pose proof (suitTotal_remove s _ _ Hin) as Hs'. rewrite (Hall c Hin) in Hs'.
    assert (Hzero : forall t, t <> s -> suitTotal t (container_remove c cards) = 0).
    { intros t Ht.
      assert (H0 : suitTotal t cards = 0).
      { apply suitTotal_absent. intros Hint.
        apply (proj2 (suitsOf_spec cards)) in Hint.
        destruct Hint as (d & Hd & Hsd). specialize (Hall d Hd).
        unfold has_suit in Hall. apply Suit_eqb_eq in Hall. congruence. }
      pose proof (Hrem t). pose proof (suitTotal_nonneg t (container_remove c cards)).
      lia. }
    pose proof (suitTotal_nonneg s (container_remove c cards)) as Hnn.
    unfold bestSuitTotal.
    destruct s;
      rewrite ?(Hzero Hearts), ?(Hzero Diamonds), ?(Hzero Clubs), ?(Hzero Spades)
        by discriminate; lia.
Qed.

Lemma discard_keeps_best_suit_witness :
  exists s c,
    strongestSuit hand_2s_9s_7h_Ah = Some s
    /\ findWorstCardConsideringSuits hand_2s_9s_7h_Ah = Some c
    /\ In c hand_2s_9s_7h_Ah
    /\ (outside s hand_2s_9s_7h_Ah <> [] ->
        suit (cardData c) <> s
        /\ maxPoints (calculatePoints (after_discard hand_2s_9s_7h_Ah))
           = maxPoints (calculatePoints hand_2s_9s_7h_Ah))
    /\ (outside s hand_2s_9s_7h_Ah = [] ->
        maxPoints (calculatePoints (after_discard hand_2s_9s_7h_Ah))
        = maxPoints (calculatePoints hand_2s_9s_7h_Ah) - getCardValue c).
Proof.
  apply (@discard_keeps_best_suit hand_2s_9s_7h_Ah). vm_compute. lia.
Defined.

(** ** Every card is in one place *)

Ltac census_same :=
  cbn; repeat (case_if; cbn);
  (split; [reflexivity|]); intros x; reflexivity.

Lemma session_setDepth c d w : session (setDepth c d w) = session w.
Proof. open_scene w. reflexivity. Qed.

Lemma session_rearrange_done l : forall i w,
  session (rearrange_done i l w) = session w.
Proof.
  induction l as [|c l IH]; intros i w; cbn [rearrange_done]; [reflexivity|].
  now rewrite IH, session_setDepth.
Qed.

Lemma census_same_table w w' :
  same_table w w' -> forall x, census x w' = census x w.
Proof.
  intros (Hg & Hp & Hd & H1 & H2 & Hpile) x. unfold census, copies.
  rewrite Hp, (occ_map x _ _ Hd), (occ_map x _ _ H1), (occ_map x _ _ H2),
    (occ_map x _ _ Hpile). reflexivity.
Qed.

Lemma quiet_fire_census env w w' :
  in_phase Quiet w ->
  fire env w = Some w' ->
  (w' = create env (S (session w)) (randomCalls w))
  \/ (session w' = session w /\ forall x, census x w' = census x w).
Proof.
  intros H.
  open_scene w. open_phase H. destruct H as ((Hs1 & Hs2) & Hmd & Hq & Ht).
  subst. unfold census, copies, inFlight.
  inversion Hq; subst; unfold fire; cbn; intros [= <-]; clear Hq.
  - unfold discard_unlock. destruct p; right; census_same.
  - right.
    match goal with
    | |- context [rearrange_done 0 l ?W] =>
        pose proof (same_table_rearrange_done l 0 W) as Hsame;
        pose proof (session_rearrange_done l 0 W) as Hsess
    end.
    split; [exact Hsess|]. intros x.
    exact (census_same_table Hsame x).
  - right; census_same.
  - unfold executePlayer2Turn. right; census_same.
  - unfold player2_draw. cbn.
    destruct (drawFromDiscard env calls bySuit hand2 pile)
      as [fromDiscard calls'].
    cbn.
    destruct (fromDiscard && _); destruct kn, an; cbn;
      unfold DiscardPileManager_moveTopCardToPlayer,
        DeckManager_moveTopCardToPlayer; cbn;
      try (right; census_same).
    + destruct (topCard pile) as [top|]; right; census_same.
    + destruct (topCard deck) as [top|]; right; census_same.
  - unfold player2_discard. cbn. rewrite findWorst_short by (cbn; lia).
    right; census_same.
  - unfold startPlayer1Turn. right; census_same.
  - unfold player2Knock. right; census_same.
  - unfold discard_unlock. right; census_same.
  - right; census_same.
  - unfold updateEndTurnButton. right; census_same.
  - unfold discard_unlock. right; census_same.
  - right; census_same.
  - unfold flipPlayer2Cards. cbn. destruct hand2; [discriminate Hs2|].
    right; census_same.
  - right; census_same.
  - left. reflexivity.
Qed.

Lemma owing_fire_census env w w' :
  in_phase Owing w ->
  fire env w = Some w' ->
  (w' = create env (S (session w)) (randomCalls w))
  \/ (session w' = session w /\ forall x, census x w' = census x w).
Proof.
  intros H.
  open_scene w. open_phase H.
  destruct H as ((Hs1 & Hs2) & Hmd & Hq & Ht). subst.
  inversion Hq; subst; unfold fire; cbn; intros [= <-]; clear Hq.
  - right.
    match goal with
    | |- context [rearrange_done 0 l ?W] =>
        pose proof (same_table_rearrange_done l 0 W) as Hsame;
        pose proof (session_rearrange_done l 0 W) as Hsess
    end.
    split; [exact Hsess|]. intros x.
    exact (census_same_table Hsame x).
  - left. reflexivity.
Qed.

Ltac census_moved card Ht :=
  intros x; unfold census, copies, inFlight; cbn;
  rewrite ?occ_depth_in, ?occ_app, ?occ_container_remove;
  unfold with_depth; cbn [occ cardData];
  specialize (Ht x);
  (destruct (Card_eqb (cardData card) x) eqn:E;
   [apply Card_eqb_eq in E; subst x|]).

Lemma draws_fire_census env player source top w w' :
  in_phase match player with
           | Player1 => Player1Draws source top
           | Player2 => Player2Draws source top
           end w ->
  fire env w = Some w' ->
  session w' = session w /\ forall x, census x w' = census x w.
Proof.
  intros H. open_scene w.
  assert (Hq : queue = match player with
                       | Player1 => [(500%nat, DrawDone source Player1 top)]
                       | Player2 => [(500%nat, DrawDone source Player2 top);
                                     (1500%nat, Player2Discard)]
                       end
               /\ (1 <= occ (cardData top)
                          (match source with
                           | FromDeck => deck
                           | FromDiscardPile => pile
                           end))%nat
               /\ forall x, (occ x deck + occ x hand1 + occ x hand2
                             + occ x pile + 0 <= 1)%nat).
  { destruct player; open_phase H.
    - destruct H as (_ & Hq & Hsrc & Ht). destruct source; repeat split; assumption.
    - destruct H as (_ & Hq & _ & Hsrc & Ht). destruct source; repeat split; assumption. }
  clear H. destruct Hq as (-> & Hsrc & Ht).
  pose proof (Ht (cardData top)) as Htop.
  destruct player; unfold fire; cbn; intros [= <-];
    unfold draw_done, addToPlayer, detach, setupPlayerCard, setDepth,
      updatePoints, updateEndTurnButton, updateTotalPoints,
      updateTotalPointsPlayer2; cbn;
    repeat (case_if; cbn); (split; [reflexivity|]);
    census_moved top Ht; destruct source; lia.
Qed.

Lemma discards_fire_census env player card rest w w' :
  pending w = (400%nat, DiscardDone player card) :: rest ->
  inFlight rest = [] ->
  tidy [card] w ->
  fire env w = Some w' ->
  session w' = session w /\ forall x, census x w' = census x w.
Proof.
  intros Hp Hrest Ht. open_scene w. cbn in Hp. subst queue.
  unfold tidy, copies in Ht. cbn in Ht.
  pose proof (Ht (cardData card)) as Hc. rewrite Card_eqb_refl in Hc.
  assert (H0 : occ (cardData card) deck = 0%nat) by lia.
  assert (H1 : occ (cardData card) hand1 = 0%nat) by lia.
  assert (H2 : occ (cardData card) hand2 = 0%nat) by lia.
  assert (H3 : occ (cardData card) pile = 0%nat) by lia.
  assert (Hel : inFlight (elapse 400 rest) = []).
  { clear -Hrest. induction rest as [|[d t] rest IH]; [reflexivity|].
    unfold inFlight in *. cbn [elapse flat_map snd] in *.
    apply app_eq_nil in Hrest. destruct Hrest as [Ha Hb].
    rewrite Ha. cbn. now apply IH. }
  assert (Hins : forall q d p, inFlight q = [] ->
                   inFlight (insert_task d (DiscardUnlock p) q) = []).
  { clear. induction q as [|[d' t] q IH]; intros d p Hq; [reflexivity|].
    unfold inFlight in *. cbn [insert_task flat_map snd] in *.
    apply app_eq_nil in Hq. destruct Hq as [Ha Hb].
    destruct (d' <=? d)%nat; cbn [flat_map snd]; rewrite ?Ha; cbn.
    - now apply IH.
    - exact Hb. }
  unfold fire; cbn [pending]; intros [= <-].
  unfold run_task, discard_done, addToDiscardPile, detach, setDepth,
    updatePoints, updateEndTurnButton, updateTotalPoints,
    updateTotalPointsPlayer2, delayedCall. cbn.
  rewrite (container_remove_out _ _ H0), (container_remove_out _ _ H1),
    (container_remove_out _ _ H2), (container_remove_out _ _ H3).
  destruct player; cbn; repeat (case_if; cbn); (split; [reflexivity|]);
    intros x; unfold census, copies; cbn;
    rewrite (Hins _ _ _ Hel);
    rewrite ?occ_depth_in, ?occ_app; unfold inFlight; cbn [flat_map snd app occ];
    fold (inFlight rest); rewrite Hrest; cbn [occ]; lia.
Qed.

Lemma player2Holds_fire_census env w w' :
  in_phase Player2Holds w ->
  fire env w = Some w' ->
  session w' = session w /\ forall x, census x w' = census x w.
Proof.
  intros H. open_scene w. open_phase H.
  destruct H as ((Hs1 & Hs2) & Hmd & Hkn & Han & Hq & Ht). subst.
  unfold fire; cbn; intros [= <-].
  unfold player2_discard. cbn.
  destruct (findWorstCardConsideringSuits hand2) as [c|]; [|census_same].
  cbn. destruct (shouldKnock env calls _ _) as [knock calls']. cbn.
  destruct knock; census_same.
Qed.

Lemma player2Flips_fire_census env card next w w' :
  in_phase (Player2Flips card next) w ->
  fire env w = Some w' ->
  session w' = session w /\ forall x, census x w' = census x w.
Proof.
  intros H. open_scene w. open_phase H.
  destruct H as ((Hs1 & Hs2) & Hmd & Hkn & Han & Hq & Hnext & Hin & Ht). subst.
  unfold fire; cbn; intros [= <-].
  unfold discardCard, discardCardFromPlayer. cbn.
  split; [reflexivity|].
  destruct Hnext as [-> | ->]; census_moved card Ht; lia.
Qed.

Lemma phase_fire_census env ph w w' :
  in_phase ph w ->
  fire env w = Some w' ->
  (w' = create env (S (session w)) (randomCalls w))
  \/ (session w' = session w /\ forall x, census x w' = census x w).
Proof.
  intros H F. destruct ph.
  - exact (@quiet_fire_census env w w' H F).
  - exact (@owing_fire_census env w w' H F).
  - right. exact (@draws_fire_census env Player1 source top w w' H F).
  - right. cbn in H. destruct H as (_ & Hq & Ht).
    exact (@discards_fire_census env Player1 card [] w w' Hq eq_refl Ht F).
  - right. exact (@draws_fire_census env Player2 source top w w' H F).
  - right. exact (@player2Holds_fire_census env w w' H F).
  - right. exact (@player2Flips_fire_census env card next w w' H F).
  - right. cbn in H. destruct H as (_ & Hq & Hnext & Ht).
    apply (@discards_fire_census env Player2 card [(600%nat, next)] w w' Hq);
      [|exact Ht|exact F].
    destruct Hnext as [-> | ->]; reflexivity.
Qed.

Lemma phase_click_census ph e w :
  in_phase ph w ->
  pending w = [] ->
  session (handle e w) = session w
  /\ forall x, census x (handle e w) = census x w.
Proof.
  intros H Hp. open_scene w. cbn in Hp. subst queue.
  assert (Hs : (length hand1 = 3%nat /\ md = false)
               \/ (length hand1 = 4%nat /\ md = true
                   /\ forall x, (occ x deck + occ x hand1 + occ x hand2
                                 + occ x pile + 0 <= 1)%nat)).
  { destruct ph; open_phase H.
    - left. tauto.
    - right. tauto.
    - destruct H as (_ & Hq & _). discriminate Hq.
    - destruct H as (_ & Hq & _). discriminate Hq.
    - destruct H as (_ & Hq & _). discriminate Hq.
    - destruct H as (_ & _ & _ & _ & Hq & _). discriminate Hq.
    - destruct H as (_ & _ & _ & _ & Hq & _). discriminate Hq.
    - destruct H as (_ & Hq & _). discriminate Hq. }
  clear H.
  destruct e; unfold handle; cbn.
  - case_if; [|census_same]. unfold moveCardToPlayer. cbn.
    case_if; [census_same|]. cbn. unfold DeckManager_moveTopCardToPlayer. cbn.
    destruct (topCard deck); census_same.
  - case_if; [|census_same]. unfold moveCardToPlayer. cbn.
    case_if; [census_same|]. cbn.
    unfold DiscardPileManager_moveTopCardToPlayer. cbn.
    destruct (topCard pile); census_same.
  - destruct Hs as [[_ ->]|(_ & -> & Ht)];
      [rewrite andb_false_r; census_same|].
    destruct (includes card hand1) eqn:Hin;
      [|rewrite andb_false_r; cbn; census_same].
    case_if; [|census_same].
    unfold discardCard. cbn. case_if; [census_same|]. cbn.
    unfold discardCardFromPlayer. cbn.
    split; [reflexivity|]. apply includes_occ in Hin.
    census_moved card Ht; lia.
  - unfold onKnock, flipPlayer2Cards. cbn.
    repeat (case_if; cbn); try census_same.
    all: destruct hand2; census_same.
  - unfold onEndTurn. census_same.
  - census_same.
  - unfold rearrangeCards, sortCardsByRank.
    cbn; repeat (case_if; cbn); (split; [reflexivity|]); intros x;
      unfold census, copies; cbn; rewrite ?occ_js_sort; reflexivity.
  - unfold rearrangeCards, sortCardsBySuit.
    cbn; repeat (case_if; cbn); (split; [reflexivity|]); intros x;
      unfold census, copies; cbn; rewrite ?occ_js_sort; reflexivity.
Qed.

Lemma cnt_app x a b :
  occ x (createDeck_from 0 (a ++ b))
  = (occ x (createDeck_from 0 a) + occ x (createDeck_from 0 b))%nat.
Proof.
  rewrite <- occ_app. apply occ_map.
  rewrite map_app, !createDeck_from_cards. reflexivity.
Qed.

Lemma census_table env w n D A B P :
  table w = (D, A, B, P) ->
  inFlight (pending w) = [] ->
  shuffled env n = D ++ A ++ B ++ P \/
  (forall x, occ x (createDeck (shuffled env n))
             = (occ x (createDeck_from 0 D) + occ x (createDeck_from 0 A)
                + occ x (createDeck_from 0 B) + occ x (createDeck_from 0 P))%nat) ->
  forall x, census x w = occ x (createDeck (shuffled env n)).
Proof.
  unfold table. intros [= HD HA HB HP] Hf Hsh x.
  unfold census, copies. rewrite Hf. cbn [occ].
  rewrite (occ_map x (deckContainer w) (createDeck_from 0 D))
    by (now rewrite createDeck_from_cards).
  rewrite (occ_map x (player1Container w) (createDeck_from 0 A))
    by (now rewrite createDeck_from_cards).
  rewrite (occ_map x (player2Container w) (createDeck_from 0 B))
    by (now rewrite createDeck_from_cards).
  rewrite (occ_map x (discardPileContainer w) (createDeck_from 0 P))
    by (now rewrite createDeck_from_cards).
  destruct Hsh as [Hsh|Hsh].
  - unfold createDeck. rewrite Hsh, !cnt_app. lia.
  - rewrite Hsh. lia.
Qed.

Lemma dealing_census env n calls k :
  well_shuffled env -> (k <= 10)%nat ->
  session (settle env k (create env n calls)) = n
  /\ forall x, census x (settle env k (create env n calls))
               = occ x (createDeck (shuffled env n)).
Proof.
  intros Hw Hk. destruct (Hw n) as [Hd Hlen].
  destruct (last_seven _ Hlen) as (rest & c1 & c2 & c3 & c4 & c5 & c6 & c7 & Hs).
  destruct (deal_trace env n calls rest c1 c2 c3 c4 c5 c6 c7 Hs Hd)
    as (w1 & w2 & w3 & w4 & w5 & w6 & w7 & w8 & w9 & w10
        & (F0 & F1 & F2 & F3 & F4 & F5 & F6 & F7 & F8 & F9)
        & _ & _ & (H1 & H2 & Hp & Hdk & Hq) & _ & _
        & (T1 & T2 & T3 & T4 & T5 & T6 & T7 & T8 & T9)
        & (S1 & S2 & S3 & S4 & S5 & S6 & S7 & S8 & S9 & S10)
        & _
        & (I1 & I2 & I3 & I4 & I5 & I6 & I7 & I8 & I9) & _).
  assert (T10 : table w10 = (rest, [c1; c3; c5], [c2; c4; c6], [c7]))
    by (unfold table; now rewrite H1, H2, Hp, Hdk).
  assert (I10 : inFlight (pending w10) = []) by (now rewrite Hq).
  assert (Hsum : forall D A B P,
             (forall x,
                 (occ x (createDeck_from 0 D) + occ x (createDeck_from 0 A)
                  + occ x (createDeck_from 0 B) + occ x (createDeck_from 0 P))%nat
                 = occ x (createDeck_from 0
                            (rest ++ [c7; c6; c5; c4; c3; c2; c1]))) ->
             shuffled env n = D ++ A ++ B ++ P \/
             (forall x, occ x (createDeck (shuffled env n))
                        = (occ x (createDeck_from 0 D)
                           + occ x (createDeck_from 0 A)
                           + occ x (createDeck_from 0 B)
                           + occ x (createDeck_from 0 P))%nat)).
  { intros D A B P H. right. intros x. unfold createDeck. now rewrite Hs, H. }
  destruct k as [|k].
  { cbn [settle]. split; [reflexivity|]. intros x.
    unfold census, copies, create, inFlight. cbn. lia. }
  do 10 (destruct k as [|k];
         [repeat (erewrite settle_fire by eassumption); cbn [settle];
          split; [assumption|];
          eapply census_table; [eassumption|assumption|];
          apply Hsum; intros x; rewrite !cnt_app; cbn [createDeck_from occ cardData];
          lia|]).
  lia.
Qed.

Lemma census_create env n calls x :
  census x (create env n calls) = occ x (createDeck (shuffled env n)).
Proof. unfold census, copies, create, inFlight. cbn. lia. Qed.

Lemma census_reachable env w :
  well_shuffled env -> reachable env w ->
  forall x, census x w = occ x (createDeck (shuffled env (session w))).
Proof.
  intros Hw H. induction H as [|w w' H IH F|w e H IH Hp].
  - intros x. apply census_create.
  - pose proof (in_play_reachable Hw H) as Hin.
    destruct Hin as [(n & calls & k & Hk & ->)|[Hac [ph Hph]]].
    + destruct (@dealing_step env n calls k Hw Hk) as [F' _].
      assert (E : w' = settle env (S k) (create env n calls))
        by (rewrite F' in F; congruence).
      destruct (@dealing_census env n calls (S k) Hw) as [Hs Hc]; [lia|].
      intros x. rewrite E, Hs. apply Hc.
    + destruct (@phase_fire_census env ph w w' Hph F) as [->|[Hs Hc]].
      * intros x. apply census_create.
      * intros x. now rewrite Hs, Hc.
  - pose proof (in_play_reachable Hw H) as Hin.
    destruct Hin as [(n & calls & k & Hk & ->)|[Hac [ph Hph]]].
    + destruct (@dealing_step env n calls k Hw Hk) as [F' _].
      apply fire_pending in F'. contradiction.
    + destruct (@phase_click_census ph e w Hph Hp) as [Hs Hc].
      intros x. now rewrite Hs, Hc.
Qed.

Lemma distinct_NoDup (l : list Card) : distinct l = true -> NoDup l.
Proof.
  induction l as [|a l IH]; intros H; [constructor|].
  cbn in H. apply andb_prop in H. destruct H as [Ha Hl].
  constructor; [|now apply IH].
  intros Hin. apply negb_true_iff in Ha.
  assert (existsb (Card_eqb a) l = true); [|congruence].
  apply existsb_exists. exists a. split; [exact Hin|apply Card_eqb_refl].
Qed.

Lemma in_newDeck (x : Card) : In x newDeck.
Proof.
  destruct x as [s r]. unfold newDeck. apply in_flat_map. exists s. split.
  - destruct s; cbn; tauto.
  - change {| suit := s; rank := r |} with ((fun r => mkCard r s) r).
    apply in_map. destruct r; cbn; tauto.
Qed.

Lemma shuffled_complete env n x :
  well_shuffled env -> occ x (createDeck (shuffled env n)) = 1%nat.
Proof.
  intros Hw. destruct (Hw n) as [Hd Hlen].
  pose proof (distinct_occ (shuffled env n) 0 x Hd) as Hle.
  assert (Hin : In x (shuffled env n)).
  { apply (@NoDup_length_incl _ (shuffled env n) newDeck).
    - now apply distinct_NoDup.
    - rewrite Hlen. vm_compute. lia.
    - intros y _. apply in_newDeck.
    - apply in_newDeck. }
  assert (Hge : (1 <= occ x (createDeck (shuffled env n)))%nat).
  { unfold createDeck. clear -Hin. generalize 0.
    induction (shuffled env n) as [|a l IH]; intros i; [destruct Hin|].
    cbn. destruct Hin as [->|Hin]; [rewrite Card_eqb_refl; lia|].
    specialize (IH Hin (i + 1)). lia. }
  unfold createDeck in *. lia.
Qed.

(** X17: while the player clicks only when no tween or timer is pending,
    every one of the 52 cards has exactly one image at every moment of a
    session, the deal included: in the deck, in one hand, in the discard
    pile or on its way to the pile. *)
Theorem every_card_once env w x :
  well_shuffled env -> reachable env w -> census x w = 1%nat.
Proof.
  intros Hw H. rewrite (census_reachable Hw H). now apply shuffled_complete.
Qed.

Lemma every_card_once_witness : census (mkCard R7 Spades) discarding0 = 1%nat.
Proof.
  apply (@every_card_once ambient0 discarding0 (mkCard R7 Spades)).
  - intros n. split; vm_compute; reflexivity.
  - apply reachable_discarding0.
Defined.

Lemma deal_ready env n calls :
  well_shuffled env ->
  gameState (settle env 10 (create env n calls)) = readyState
  /\ pending (settle env 10 (create env n calls)) = []
  /\ knockButtonInteractive (settle env 10 (create env n calls)) = true
  /\ endTurnButtonInteractive (settle env 10 (create env n calls)) = true
  /\ restartButton (settle env 10 (create env n calls)) = false
  /\ resultText (settle env 10 (create env n calls)) = None
  /\ player1Points (settle env 10 (create env n calls))
     = maxPoints (calculatePoints
                    (player1Container (settle env 10 (create env n calls))))
  /\ sizes 3 3 (settle env 10 (create env n calls))
  /\ length (discardPileContainer (settle env 10 (create env n calls))) = 1%nat
  /\ length (deckContainer (settle env 10 (create env n calls))) = 45%nat
  /\ session (settle env 10 (create env n calls)) = n
  /\ randomCalls (settle env 10 (create env n calls))
     = randomCalls (create env n calls).
Proof.
  intros Hw. destruct (Hw n) as [Hd Hlen].
  destruct (last_seven _ Hlen) as (rest & c1 & c2 & c3 & c4 & c5 & c6 & c7 & Hs).
  destruct (deal_trace env n calls rest c1 c2 c3 c4 c5 c6 c7 Hs Hd)
    as (w1 & w2 & w3 & w4 & w5 & w6 & w7 & w8 & w9 & w10
        & (F0 & F1 & F2 & F3 & F4 & F5 & F6 & F7 & F8 & F9)
        & _ & _ & (H1 & H2 & Hp & Hdk & Hq) & _ & _ & _
        & (_ & _ & _ & _ & _ & _ & _ & _ & _ & S10)
        & (G1 & G2 & G3 & G4 & G5 & G6 & G7) & _).
  repeat (erewrite settle_fire by eassumption). cbn [settle].
  assert (Hrest : length rest = 45%nat).
  { rewrite Hs, length_app in Hlen. cbn in Hlen. lia. }
  unfold sizes.
  rewrite (length_cards (player1Container w10) (createDeck_from 0 [c1; c3; c5]))
    by (rewrite H1; reflexivity).
  rewrite (length_cards (player2Container w10) (createDeck_from 0 [c2; c4; c6]))
    by (rewrite H2; reflexivity).
  rewrite (length_cards (discardPileContainer w10) (createDeck_from 0 [c7]))
    by (rewrite Hp; reflexivity).
  rewrite (length_cards (deckContainer w10) (createDeck_from 0 rest))
    by (rewrite Hdk, createDeck_from_cards; reflexivity).
  rewrite !length_createDeck_from, Hrest. cbn [length].
  repeat split; assumption.
Qed.

(** X18: when the tenth callback of a session has run the deal is over and
    play can start: nothing is pending, it is the turn of player 1 with the
    cards clickable and no discard owed, the Knock and End Turn buttons
    answer, the points shown for player 1 are those of the hand, the hands
    hold three cards each, the discard pile one and the deck 45.  The ten
    callbacks of the deal have read no random number. *)
Theorem deal_ends_ready env n calls :
  well_shuffled env ->
  gameState (settle env 10 (create env n calls)) = readyState
  /\ pending (settle env 10 (create env n calls)) = []
  /\ knockButtonInteractive (settle env 10 (create env n calls)) = true
  /\ endTurnButtonInteractive (settle env 10 (create env n calls)) = true
  /\ restartButton (settle env 10 (create env n calls)) = false
  /\ resultText (settle env 10 (create env n calls)) = None
  /\ player1Points (settle env 10 (create env n calls))
     = maxPoints (calculatePoints
                    (player1Container (settle env 10 (create env n calls))))
  /\ sizes 3 3 (settle env 10 (create env n calls))
  /\ length (discardPileContainer (settle env 10 (create env n calls))) = 1%nat
  /\ length (deckContainer (settle env 10 (create env n calls))) = 45%nat
  /\ session (settle env 10 (create env n calls)) = n
  /\ randomCalls (settle env 10 (create env n calls))
     = randomCalls (create env n calls).
Proof. exact (@deal_ready env n calls). Qed.

Lemma deal_ends_ready_witness :
  gameState (settle ambient0 10 (create ambient0 0 0)) = readyState
  /\ pending (settle ambient0 10 (create ambient0 0 0)) = []
  /\ knockButtonInteractive (settle ambient0 10 (create ambient0 0 0)) = true
  /\ endTurnButtonInteractive (settle ambient0 10 (create ambient0 0 0)) = true
  /\ restartButton (settle ambient0 10 (create ambient0 0 0)) = false
  /\ resultText (settle ambient0 10 (create ambient0 0 0)) = None
  /\ player1Points (settle ambient0 10 (create ambient0 0 0))
     = maxPoints (calculatePoints
                    (player1Container (settle ambient0 10 (create ambient0 0 0))))
  /\ sizes 3 3 (settle ambient0 10 (create ambient0 0 0))
  /\ length (discardPileContainer (settle ambient0 10 (create ambient0 0 0)))
     = 1%nat
  /\ length (deckContainer (settle ambient0 10 (create ambient0 0 0))) = 45%nat
  /\ session (settle ambient0 10 (create ambient0 0 0)) = 0%nat
  /\ randomCalls (settle ambient0 10 (create ambient0 0 0))
     = randomCalls (create ambient0 0 0).
Proof.
  apply (@deal_ends_ready ambient0 0%nat 0%nat).
  intros n. split; vm_compute; reflexivity.
Defined.

(** ** A draw and a discard of player 1, from click to rest *)

(** X19: the first draw of a session.  In a scene at rest where it is the
    turn of player 1 and the flags say that no card has been drawn or
    discarded yet and nobody has knocked (so that no card of the deck or of
    the pile has had its input disabled, which only a knock and the unlock
    timer of a discard of player 1 do), the click on the top card of the deck or of the discard pile
    starts one tween; when it completes the card is the last card of the
    hand, the source has lost it, the other containers are as they were,
    the flags say that a card was drawn and a discard is owed, and the
    points shown are those of the new hand. *)
Theorem draw_operation env source top w :
  pending w = [] ->
  cardsInteractable (gameState w) = true ->
  mustDiscard (gameState w) = false ->
  isAnimating (gameState w) = false ->
  isPlayerTurn (gameState w) = true ->
  hasDrawnCard (gameState w) = false ->
  hasDiscardedCard (gameState w) = false ->
  knocked w = false ->
  topCard (sourceContainer source w) = Some top ->
  copies (cardData top) [] w = 1%nat ->
  let e := match source with
           | FromDeck => ClickDeckCard top
           | FromDiscardPile => ClickDiscardPileCard top
           end in
  pending (handle e w) = [(500%nat, DrawDone source Player1 top)]
  /\ pending (settle env 1 (handle e w)) = []
  /\ map cardData (player1Container (settle env 1 (handle e w)))
     = map cardData (player1Container w) ++ [cardData top]
  /\ map cardData (sourceContainer source (settle env 1 (handle e w)))
     = map cardData (container_remove top (sourceContainer source w))
  /\ player2Container (settle env 1 (handle e w)) = player2Container w
  /\ (mustDiscard (gameState (settle env 1 (handle e w))) = true
      /\ hasDrawnCard (gameState (settle env 1 (handle e w))) = true
      /\ hasDiscardedCard (gameState (settle env 1 (handle e w))) = false
      /\ isAnimating (gameState (settle env 1 (handle e w))) = false
      /\ cardsInteractable (gameState (settle env 1 (handle e w))) = true
      /\ isPlayerTurn (gameState (settle env 1 (handle e w))) = true)
  /\ player1Points (settle env 1 (handle e w))
     = maxPoints (calculatePoints
                    (player1Container (settle env 1 (handle e w)))).
Proof.
  intros Hp Hci Hmd Han Hpt Hhd Hdc Hkn Htop Hone e. subst e.
  open_scene w. unfold knocked, copies in *.
  cbn in Hp, Hci, Hmd, Han, Hpt, Hhd, Hdc, Hkn, Htop, Hone. subst.
  pose proof (proj1 (topCard_highest _ Htop)) as Hin. apply In_occ in Hin.
  assert (H1 : occ (cardData top) hand1 = 0%nat)
    by (destruct source; cbn in Hin; lia).
  assert (H2 : occ (cardData top) hand2 = 0%nat)
    by (destruct source; cbn in Hin; lia).
  destruct source; cbn in Htop, Hin.
  - assert (H3 : occ (cardData top) pile = 0%nat) by lia.
    unfold handle, is_top. cbn. rewrite Htop. unfold same_card.
    rewrite Card_eqb_refl. cbn.
    unfold moveCardToPlayer. cbn.
    unfold DeckManager_moveTopCardToPlayer. cbn. rewrite Htop. cbn.
    unfold draw_done, addToPlayer, detach, setupPlayerCard, setDepth,
      updatePoints, updateEndTurnButton, updateTotalPoints. cbn.
    rewrite (container_remove_out _ _ H1), (container_remove_out _ _ H2),
      (container_remove_out _ _ H3).
    rewrite (depth_in_out _ _ _ (occ_zero_out _ _ H2)).
    destruct (length _ =? 3)%nat; cbn;
      rewrite ?map_cardData_depth_in, ?map_app; repeat split.
  - assert (H3 : occ (cardData top) deck = 0%nat) by lia.
    unfold handle, is_top. cbn. rewrite Htop. unfold same_card.
    rewrite Card_eqb_refl. cbn.
    unfold moveCardToPlayer. cbn.
    unfold DiscardPileManager_moveTopCardToPlayer. cbn. rewrite Htop. cbn.
    unfold draw_done, addToPlayer, detach, setupPlayerCard, setDepth,
      updatePoints, updateEndTurnButton, updateTotalPoints. cbn.
    rewrite (container_remove_out _ _ H1), (container_remove_out _ _ H2),
      (container_remove_out _ _ H3).
    rewrite (depth_in_out _ _ _ (occ_zero_out _ _ H2)).
    destruct (length _ =? 3)%nat; cbn;
      rewrite ?map_cardData_depth_in, ?map_app; repeat split.
Qed.

Lemma draw_operation_witness :
  let e := ClickDeckCard (sprite R7 Spades 44) in
  pending (handle e dealt0)
  = [(500%nat, DrawDone FromDeck Player1 (sprite R7 Spades 44))]
  /\ pending (settle ambient0 1 (handle e dealt0)) = []
  /\ map cardData (player1Container (settle ambient0 1 (handle e dealt0)))
     = map cardData (player1Container dealt0)
       ++ [cardData (sprite R7 Spades 44)]
  /\ map cardData
       (sourceContainer FromDeck (settle ambient0 1 (handle e dealt0)))
     = map cardData
         (container_remove (sprite R7 Spades 44)
            (sourceContainer FromDeck dealt0))
  /\ player2Container (settle ambient0 1 (handle e dealt0))
     = player2Container dealt0
  /\ (mustDiscard (gameState (settle ambient0 1 (handle e dealt0))) = true
      /\ hasDrawnCard (gameState (settle ambient0 1 (handle e dealt0))) = true
      /\ hasDiscardedCard (gameState (settle ambient0 1 (handle e dealt0)))
         = false
      /\ isAnimating (gameState (settle ambient0 1 (handle e dealt0))) = false
      /\ cardsInteractable (gameState (settle ambient0 1 (handle e dealt0)))
         = true
      /\ isPlayerTurn (gameState (settle ambient0 1 (handle e dealt0))) = true)
  /\ player1Points (settle ambient0 1 (handle e dealt0))
     = maxPoints (calculatePoints
                    (player1Container (settle ambient0 1 (handle e dealt0)))).
Proof.
  apply (@draw_operation ambient0 FromDeck (sprite R7 Spades 44) dealt0);
    vm_compute; reflexivity.
Defined.

(** X20: in a scene at rest where player 1 owes a discard, the click on a
    card of the hand starts the discard tween; when it and the unlock timer
    have completed the card has left the hand and is the top card of the
    discard pile, the deck and the opponent's hand are as they were, the
    flags say that the discard is done, the points shown are those of the
    hand that is left, and End Turn answers if that hand holds three
    cards. *)
Theorem discard_operation env card w :
  pending w = [] ->
  cardsInteractable (gameState w) = true ->
  isAnimating (gameState w) = false ->
  mustDiscard (gameState w) = true ->
  isPlayerTurn (gameState w) = true ->
  hasDiscardedCard (gameState w) = false ->
  knocked w = false ->
  In card (player1Container w) ->
  copies (cardData card) [] w = 1%nat ->
  exists d,
    pending (settle env 1 (handle (ClickPlayerCard card) w))
    = [(500%nat, DiscardUnlock Player1)]
    /\ pending (settle env 2 (handle (ClickPlayerCard card) w)) = []
    /\ player1Container (settle env 2 (handle (ClickPlayerCard card) w))
       = container_remove card (player1Container w)
    /\ discardPileContainer (settle env 2 (handle (ClickPlayerCard card) w))
       = discardPileContainer w ++ [with_depth d card]
    /\ topCard (discardPileContainer
                  (settle env 2 (handle (ClickPlayerCard card) w)))
       = Some (with_depth d card)
    /\ deckContainer (settle env 2 (handle (ClickPlayerCard card) w))
       = deckContainer w
    /\ player2Container (settle env 2 (handle (ClickPlayerCard card) w))
       = player2Container w
    /\ (mustDiscard (gameState (settle env 2 (handle (ClickPlayerCard card) w)))
        = false
        /\ hasDrawnCard
             (gameState (settle env 2 (handle (ClickPlayerCard card) w)))
           = false
        /\ hasDiscardedCard
             (gameState (settle env 2 (handle (ClickPlayerCard card) w)))
           = true
        /\ isAnimating
             (gameState (settle env 2 (handle (ClickPlayerCard card) w)))
           = false
        /\ cardsInteractable
             (gameState (settle env 2 (handle (ClickPlayerCard card) w)))
           = true)
    /\ player1Points (settle env 2 (handle (ClickPlayerCard card) w))
       = maxPoints (calculatePoints (container_remove card (player1Container w)))
    /\ endTurnButtonInteractive
         (settle env 2 (handle (ClickPlayerCard card) w))
       = (length (container_remove card (player1Container w)) =? 3)%nat.
Proof.
  intros Hp Hci Han Hmd Hpt Hhdc Hkn Hin Hone.
  open_scene w. unfold knocked, copies in *.
  cbn in Hp, Hci, Han, Hmd, Hpt, Hhdc, Hkn, Hin, Hone. subst.
  pose proof (In_occ _ _ Hin) as Hocc.
  assert (H0 : occ (cardData card) deck = 0%nat) by lia.
  assert (H2 : occ (cardData card) hand2 = 0%nat) by lia.
  assert (H3 : occ (cardData card) pile = 0%nat) by lia.
  assert (H1 : occ (cardData card) (container_remove card hand1) = 0%nat).
  { rewrite occ_container_remove, Card_eqb_refl. lia. }
  assert (Hinc : includes card hand1 = true).
  { unfold includes. apply existsb_exists. exists card. split; [exact Hin|].
    unfold same_card. apply Card_eqb_refl. }
  set (card' := with_depth (currentHighestDepth pile + 100) card).
  exists (getHighestDepth (pile ++ [card']) + 10).
  assert (Hlt : forall c, In c pile ->
                  depth c < getHighestDepth (pile ++ [card']) + 10).
  { intros c Hc.
    destruct (@getHighestDepth_spec (pile ++ [card'])) as [_ Hle].
    { destruct pile; discriminate. }
    specialize (Hle c (in_or_app _ _ _ (or_introl Hc))). lia. }
  assert (Hpile : depth_in card' (getHighestDepth (pile ++ [card']) + 10)
                    (pile ++ [card'])
                  = pile ++ [with_depth (getHighestDepth (pile ++ [card']) + 10)
                                        card]).
  { rewrite depth_in_app, (depth_in_out card' _ pile (occ_zero_out card' _ H3)).
    unfold depth_in. cbn [map]. unfold same_card. now rewrite Card_eqb_refl. }
  unfold handle. cbn. rewrite Hinc. cbn.
  unfold discardCard. cbn. unfold discardCardFromPlayer. cbn.
  fold card'.
  unfold discard_done, addToDiscardPile, detach, setDepth, updatePoints,
    updateEndTurnButton, updateTotalPoints. cbn.
  rewrite (container_remove_out card' _ H0), (container_remove_out card' _ H1),
    (container_remove_out card' _ H2), (container_remove_out card' _ H3).
  rewrite Hpile, (depth_in_out card' _ _ (occ_zero_out card' _ H0)),
    (depth_in_out card' _ _ (occ_zero_out card' _ H1)),
    (depth_in_out card' _ _ (occ_zero_out card' _ H2)).
  destruct (length (container_remove card hand1) =? 3)%nat; cbn;
    (split; [reflexivity|]); (split; [reflexivity|]);
    (split; [reflexivity|]); (split; [reflexivity|]);
    (split; [apply topCard_last; exact Hlt|]); repeat split.
Qed.

Lemma discard_operation_witness :
  let card := sprite R7 Spades 3 in
  let w1 := settle ambient0 1 (handle (ClickPlayerCard card) drawn0) in
  let w2 := settle ambient0 2 (handle (ClickPlayerCard card) drawn0) in
  exists d,
    pending w1 = [(500%nat, DiscardUnlock Player1)]
    /\ pending w2 = []
    /\ player1Container w2 = container_remove card (player1Container drawn0)
    /\ discardPileContainer w2
       = discardPileContainer drawn0 ++ [with_depth d card]
    /\ topCard (discardPileContainer w2) = Some (with_depth d card)
    /\ deckContainer w2 = deckContainer drawn0
    /\ player2Container w2 = player2Container drawn0
    /\ (mustDiscard (gameState w2) = false
        /\ hasDrawnCard (gameState w2) = false
        /\ hasDiscardedCard (gameState w2) = true
        /\ isAnimating (gameState w2) = false
        /\ cardsInteractable (gameState w2) = true)
    /\ player1Points w2
       = maxPoints (calculatePoints
                      (container_remove card (player1Container drawn0)))
    /\ endTurnButtonInteractive w2
       = (length (container_remove card (player1Container drawn0)) =? 3)%nat.
Proof.
  cbv zeta.
  apply (@discard_operation ambient0 (sprite R7 Spades 3) drawn0);
    try (vm_compute; reflexivity).
  vm_compute. tauto.
Defined.

(** ** The opponent's knock, and a new game *)

Lemma dealing_queue env w :
  well_shuffled env -> dealing env w -> deal_queue (pending w) = true.
Proof.
  intros Hw (n & calls & k & Hk & ->). destruct (Hw n) as [Hd Hlen].
  destruct (last_seven _ Hlen) as (rest & c1 & c2 & c3 & c4 & c5 & c6 & c7 & Hs).
  destruct (deal_trace env n calls rest c1 c2 c3 c4 c5 c6 c7 Hs Hd)
    as (w1 & w2 & w3 & w4 & w5 & w6 & w7 & w8 & w9 & w10
        & (F0 & F1 & F2 & F3 & F4 & F5 & F6 & F7 & F8 & F9)
        & _ & _ & _ & _ & _ & _ & _ & _ & _
        & (Q0 & Q1 & Q2 & Q3 & Q4 & Q5 & Q6 & Q7 & Q8 & Q9)).
  do 10 (destruct k as [|k];
         [repeat (erewrite settle_fire by eassumption); cbn [settle];
          assumption|]).
  lia.
Qed.

(** The opponent's knock from the scene where it is the next callback. *)
Lemma player2Knock_run env w :
  pending w = [(200%nat, Player2Knock); (500%nat, DiscardUnlock Player2)] ->
  player2Container w <> [] ->
  knocked (settle env 5 w) = true
  /\ knockButtonInteractive (settle env 5 w) = false
  /\ endTurnButtonInteractive (settle env 5 w) = false
  /\ player2Points (settle env 5 w)
     = maxPoints (calculatePoints (player2Container w))
  /\ resultText (settle env 5 w)
     = Some (checkWinner_text (player1Points w)
               (maxPoints (calculatePoints (player2Container w))))
  /\ restartButton (settle env 5 w) = true
  /\ randomCalls (settle env 5 w) = S (randomCalls w)
  /\ pending (settle env 5 w) = []
  /\ table (settle env 5 w) = table w
  /\ resultText (settle env 4 w) = resultText w.
Proof.
  intros Hp Hne. open_scene w. cbn in Hp, Hne. subst queue.
  destruct hand2 as [|c hand2]; [congruence|].
  unfold knocked, table. cbn. destruct pt; cbn; repeat split.
Qed.

(** X21: in a session where the player clicks only when nothing is pending,
    whenever the opponent's knock is the next callback, the unlock timer of
    its discard is pending behind it, and five callbacks later the
    opponent's cards are turned over: the knock flag is set, the Knock and
    End Turn buttons no longer answer, the opponent's points are those of
    its hand, the result text (not yet changed after four callbacks)
    compares them with the points shown for player 1, the Restart button is
    there, its texture key having read one random number, nothing is
    pending and no card has moved. *)
Theorem opponent_knock_shows_result env w d q :
  well_shuffled env -> reachable env w ->
  pending w = (d, Player2Knock) :: q ->
  pending w = [(200%nat, Player2Knock); (500%nat, DiscardUnlock Player2)]
  /\ knocked (settle env 5 w) = true
  /\ knockButtonInteractive (settle env 5 w) = false
  /\ endTurnButtonInteractive (settle env 5 w) = false
  /\ player2Points (settle env 5 w)
     = maxPoints (calculatePoints (player2Container w))
  /\ resultText (settle env 5 w)
     = Some (checkWinner_text (player1Points w)
               (maxPoints (calculatePoints (player2Container w))))
  /\ restartButton (settle env 5 w) = true
  /\ randomCalls (settle env 5 w) = S (randomCalls w)
  /\ pending (settle env 5 w) = []
  /\ table (settle env 5 w) = table w
  /\ resultText (settle env 4 w) = resultText w.
Proof.
  intros Hw HR Hp.
  assert (Hq : pending w
               = [(200%nat, Player2Knock); (500%nat, DiscardUnlock Player2)]
               /\ player2Container w <> []).
  { destruct (in_play_reachable Hw HR) as [Hd|[_ [ph Hph]]].
    - apply (dealing_queue Hw) in Hd. rewrite Hp in Hd. discriminate Hd.
    - destruct ph; cbn [in_phase] in Hph.
      + destruct Hph as ((_ & S2) & _ & Hq & _). rewrite Hp in Hq.
        inversion Hq; subst. split; [exact Hp|].
        intros E. rewrite E in S2. discriminate S2.
      + destruct Hph as (_ & _ & Hq & _). rewrite Hp in Hq. inversion Hq.
      + destruct Hph as (_ & Hq & _). rewrite Hp in Hq. discriminate Hq.
      + destruct Hph as (_ & Hq & _). rewrite Hp in Hq. discriminate Hq.
      + destruct Hph as (_ & Hq & _). rewrite Hp in Hq. discriminate Hq.
      + destruct Hph as (_ & _ & _ & _ & Hq & _). rewrite Hp in Hq.
        discriminate Hq.
      + destruct Hph as (_ & _ & _ & _ & Hq & _). rewrite Hp in Hq.
        discriminate Hq.
      + destruct Hph as (_ & Hq & _). rewrite Hp in Hq. discriminate Hq. }
  destruct Hq as [Hq Hne]. split; [exact Hq|].
  exact (@player2Knock_run env w Hq Hne).
Qed.

Lemma opponent_knock_shows_result_witness :
  pending knocking0
  = [(200%nat, Player2Knock); (500%nat, DiscardUnlock Player2)]
  /\ knocked (settle ambient0 5 knocking0) = true
  /\ knockButtonInteractive (settle ambient0 5 knocking0) = false
  /\ endTurnButtonInteractive (settle ambient0 5 knocking0) = false
  /\ player2Points (settle ambient0 5 knocking0)
     = maxPoints (calculatePoints (player2Container knocking0))
  /\ resultText (settle ambient0 5 knocking0)
     = Some (checkWinner_text (player1Points knocking0)
               (maxPoints (calculatePoints (player2Container knocking0))))
  /\ restartButton (settle ambient0 5 knocking0) = true
  /\ randomCalls (settle ambient0 5 knocking0) = S (randomCalls knocking0)
  /\ pending (settle ambient0 5 knocking0) = []
  /\ table (settle ambient0 5 knocking0) = table knocking0
  /\ resultText (settle ambient0 4 knocking0) = resultText knocking0.
Proof.
  apply (@opponent_knock_shows_result ambient0 knocking0 200%nat
           [(500%nat, DiscardUnlock Player2)]).
  - intros n. split; vm_compute; reflexivity.
  - apply reachable_knocking0.
  - vm_compute. reflexivity.
Defined.

(** X22: in a scene at rest that shows the Restart button, the click on it
    starts a new session: eleven callbacks later the cards of a new shuffle
    are dealt and play can start, with the knock flag and the result text
    cleared and the Restart button gone.  The scene is the one that a new
    session, created for the next shuffle at the current count of random
    calls, reaches at the end of its deal. *)
Theorem restart_deals_again env w :
  well_shuffled env ->
  pending w = [] ->
  restartButton w = true ->
  gameState (settle env 11 (handle ClickRestart w)) = readyState
  /\ pending (settle env 11 (handle ClickRestart w)) = []
  /\ session (settle env 11 (handle ClickRestart w)) = S (session w)
  /\ settle env 11 (handle ClickRestart w)
     = settle env 10 (create env (S (session w)) (randomCalls w))
  /\ restartButton (settle env 11 (handle ClickRestart w)) = false
  /\ resultText (settle env 11 (handle ClickRestart w)) = None
  /\ knockButtonInteractive (settle env 11 (handle ClickRestart w)) = true
  /\ sizes 3 3 (settle env 11 (handle ClickRestart w))
  /\ length (deckContainer (settle env 11 (handle ClickRestart w))) = 45%nat.
Proof.
  intros Hw Hp Hr.
  assert (E : settle env 11 (handle ClickRestart w)
              = settle env 10 (create env (S (session w)) (randomCalls w))).
  { apply settle_fire. open_scene w. cbn in Hp, Hr. subst. reflexivity. }
  destruct (@deal_ready env (S (session w)) (randomCalls w) Hw)
    as (G & P & K & _ & R & T & _ & Sz & _ & D & Se & C).
  rewrite <- E in G, P, K, R, T, Sz, D, Se.
  repeat split; try assumption; apply Sz.
Qed.

Lemma restart_deals_again_witness :
  let w := settle ambient0 1 (handle ClickKnock dealt0) in
  gameState (settle ambient0 11 (handle ClickRestart w)) = readyState
  /\ pending (settle ambient0 11 (handle ClickRestart w)) = []
  /\ session (settle ambient0 11 (handle ClickRestart w)) = S (session w)
  /\ settle ambient0 11 (handle ClickRestart w)
     = settle ambient0 10 (create ambient0 (S (session w)) (randomCalls w))
  /\ restartButton (settle ambient0 11 (handle ClickRestart w)) = false
  /\ resultText (settle ambient0 11 (handle ClickRestart w)) = None
  /\ knockButtonInteractive (settle ambient0 11 (handle ClickRestart w)) = true
  /\ sizes 3 3 (settle ambient0 11 (handle ClickRestart w))
  /\ length (deckContainer (settle ambient0 11 (handle ClickRestart w)))
     = 45%nat.
Proof.
  apply (@restart_deals_again ambient0
           (settle ambient0 1 (handle ClickKnock dealt0))).
  - intros n. split; vm_compute; reflexivity.
  - vm_compute. reflexivity.
  - vm_compute. reflexivity.
Defined.

(** ** Shuffles *)

Lemma NoDup_distinct (l : list Card) : NoDup l -> distinct l = true.
Proof.
  induction 1 as [|a l Ha _ IH]; [reflexivity|].
  cbn. rewrite IH, andb_true_r. apply negb_true_iff.
  destruct (existsb (Card_eqb a) l) eqn:E; [|reflexivity].
  apply existsb_exists in E. destruct E as (b & Hb & E).
  apply Card_eqb_eq in E. subst b. contradiction.
Qed.

(** X23: [createDeck] builds 52 cards, one for each pair of a suit and a
    rank; every permutation of them, as [Phaser.Utils.Array.Shuffle]
    returns, is a deck of 52 different cards that holds every card. *)
Theorem shuffle_is_full_deck l :
  Permutation newDeck l ->
  length l = 52%nat /\ distinct l = true /\ forall x, In x l.
Proof.
  intros H. split; [|split].
  - rewrite <- (Permutation_length H). reflexivity.
  - apply NoDup_distinct. apply (Permutation_NoDup H).
    apply distinct_NoDup. vm_compute. reflexivity.
  - intros x. apply (Permutation_in _ H). apply in_newDeck.
Qed.

Lemma shuffle_is_full_deck_witness :
  length (rev newDeck) = 52%nat
  /\ distinct (rev newDeck) = true /\ forall x, In x (rev newDeck).
Proof.
  apply (@shuffle_is_full_deck (rev newDeck)). apply Permutation_rev.
Defined.

(** ** The Sort buttons, from click to rest *)

Lemma depth_in_absent c d l :
  occ (cardData c) l = 0%nat -> depth_in c d l = l.
Proof. intros H. apply depth_in_out. now apply occ_zero_out. Qed.

Lemma depth_in_hit pre c r d :
  occ (cardData c) pre = 0%nat -> occ (cardData c) r = 0%nat ->
  depth_in c d (pre ++ c :: r) = pre ++ with_depth d c :: r.
Proof.
  intros Hpre Hr.
  pose proof (@depth_in_absent c d pre Hpre) as E1.
  pose proof (@depth_in_absent c d r Hr) as E2.
  unfold depth_in in *. rewrite map_app. cbn [map].
  rewrite E1, E2. unfold same_card. now rewrite Card_eqb_refl.
Qed.

Lemma containers_setDepth c d w :
  deckContainer (setDepth c d w) = depth_in c d (deckContainer w)
  /\ player1Container (setDepth c d w) = depth_in c d (player1Container w)
  /\ player2Container (setDepth c d w) = depth_in c d (player2Container w)
  /\ discardPileContainer (setDepth c d w)
     = depth_in c d (discardPileContainer w).
Proof. open_scene w. repeat split. Qed.

Lemma occ_with_depth x d c l :
  occ x (l ++ [with_depth d c]) = occ x (l ++ [c]).
Proof. now rewrite !occ_app. Qed.

Lemma rearrange_done_hand l : forall i pre w,
  player1Container w = pre ++ l ->
  (forall c, In c l ->
     occ (cardData c) (pre ++ l) = 1%nat
     /\ occ (cardData c) (deckContainer w) = 0%nat
     /\ occ (cardData c) (player2Container w) = 0%nat
     /\ occ (cardData c) (discardPileContainer w) = 0%nat) ->
  player1Container (rearrange_done i l w) = pre ++ renumber i l
  /\ deckContainer (rearrange_done i l w) = deckContainer w
  /\ player2Container (rearrange_done i l w) = player2Container w
  /\ discardPileContainer (rearrange_done i l w) = discardPileContainer w.
Proof.
  induction l as [|c r IH]; intros i pre w Hh Hc;
    cbn [rearrange_done renumber]; [now rewrite Hh|].
  destruct (containers_setDepth c i w) as (Ed & E1 & E2 & Ep).
  destruct (Hc c (or_introl eq_refl)) as (H1 & Hd & H2 & Hpile).
  rewrite occ_app in H1. cbn [occ] in H1. rewrite Card_eqb_refl in H1.
  rewrite (depth_in_absent c i _ Hd) in Ed.
  rewrite (depth_in_absent c i _ H2) in E2.
  rewrite (depth_in_absent c i _ Hpile) in Ep.
  rewrite Hh, depth_in_hit in E1 by lia.
  destruct (IH (i + 1) (pre ++ [with_depth i c]) (setDepth c i w))
    as (G1 & Gd & G2 & Gp).
  - rewrite E1, <- app_assoc. reflexivity.
  - intros c' Hin. rewrite Ed, E2, Ep.
    destruct (Hc c' (or_intror Hin)) as (K1 & Kd & K2 & Kp).
    repeat split; try assumption.
    rewrite <- K1, !occ_app. cbn [occ with_depth cardData]. lia.
  - rewrite G1, Gd, G2, Gp, Ed, E2, Ep, <- app_assoc. repeat split.
Qed.

Lemma renumber_cards l : forall i,
  map cardData (renumber i l) = map cardData l.
Proof.
  induction l as [|c l IH]; intros i; cbn; [reflexivity|]. now rewrite IH.
Qed.

Lemma renumber_depths l : forall i,
  map depth (renumber (Z.of_nat i) l) = map Z.of_nat (seq i (length l)).
Proof.
  induction l as [|c l IH]; intros i; cbn [renumber map length seq];
    [reflexivity|].
  cbn [with_depth depth]. f_equal.
  replace (Z.of_nat i + 1) with (Z.of_nat (S i)) by lia. apply IH.
Qed.

Lemma sort_shown env (before : Sprite -> Sprite -> bool) w :
  well_shuffled env -> reachable env w -> pending w = [] ->
  rearranged (js_sort before (player1Container w)) w
    (rearrange_done 0 (js_sort before (player1Container w))
       (set_pending []
          (set_player1Container (js_sort before (player1Container w)) w))).
Proof.
  intros Hw HR Hp.
  assert (Hc : forall x, census x w = 1%nat).
  { intros x. rewrite (census_reachable Hw HR). now apply shuffled_complete. }
  set (sorted := js_sort before (player1Container w)).
  set (w1 := set_pending [] (set_player1Container sorted w)).
  assert (E1 : player1Container w1 = [] ++ sorted)
    by (subst w1; open_scene w; reflexivity).
  assert (Ed : deckContainer w1 = deckContainer w)
    by (subst w1; open_scene w; reflexivity).
  assert (E2 : player2Container w1 = player2Container w)
    by (subst w1; open_scene w; reflexivity).
  assert (Ep : discardPileContainer w1 = discardPileContainer w)
    by (subst w1; open_scene w; reflexivity).
  assert (Eg : gameState w1 = gameState w /\ pending w1 = [])
    by (subst w1; open_scene w; split; reflexivity).
  destruct (@rearrange_done_hand sorted 0 [] w1 E1)
    as (G1 & Gd & G2 & Gp).
  { intros c Hin. rewrite Ed, E2, Ep. apply In_occ in Hin.
    specialize (Hc (cardData c)). unfold census, copies in Hc.
    cbn [app]. subst sorted. rewrite occ_js_sort in Hin |- *. lia. }
  destruct (same_table_rearrange_done sorted 0 w1) as (Sg & Sp & _).
  unfold rearranged. rewrite G1, Gd, G2, Gp, Sg, Sp, Ed, E2, Ep.
  cbn [app]. rewrite renumber_cards.
  change 0 with (Z.of_nat 0). rewrite renumber_depths.
  destruct Eg as [Eg Eq]. rewrite Eg, Eq. repeat split.
Qed.

(** X24: in a scene at rest where the cards answer and nobody has knocked, a
    click on a Sort button puts the hand of player 1 in the order of the
    sort, and when the tween ends the card at index i of the hand has depth
    i; the deck, the opponent's hand, the discard pile and the game state
    stay as they were. *)
Theorem sort_click_rearranges env w :
  well_shuffled env -> reachable env w -> pending w = [] ->
  cardsInteractable (gameState w) = true ->
  knockButtonPressed (gameState w) = false ->
  rearranged (sortCardsByRank (player1Container w)) w
    (settle env 1 (handle ClickSortByRank w))
  /\ rearranged (sortCardsBySuit (player1Container w)) w
       (settle env 1 (handle ClickSortBySuit w)).
Proof.
  intros Hw HR Hp Hci Hkn.
  pose proof (@sort_shown env rank_before w Hw HR Hp) as A.
  pose proof (@sort_shown env suit_before w Hw HR Hp) as B.
  assert (E : forall before,
    settle env 1 (tween 300 (RearrangeDone (js_sort before (player1Container w)))
                    (set_player1Container
                       (js_sort before (player1Container w)) w))
    = rearrange_done 0 (js_sort before (player1Container w))
        (set_pending []
           (set_player1Container (js_sort before (player1Container w)) w))).
  { intros before. open_scene w. cbn in Hp. subst queue. reflexivity. }
  unfold handle, rearrangeCards, sortCardsByRank, sortCardsBySuit.
  rewrite Hci, Hkn. cbn [andb negb].
  rewrite !E. split; assumption.
Qed.

Lemma sort_click_rearranges_witness :
  rearranged (sortCardsByRank (player1Container dealt0)) dealt0
    (settle ambient0 1 (handle ClickSortByRank dealt0))
  /\ rearranged (sortCardsBySuit (player1Container dealt0)) dealt0
       (settle ambient0 1 (handle ClickSortBySuit dealt0)).
Proof.
  apply (@sort_click_rearranges ambient0 dealt0).
  - intros n. split; vm_compute; reflexivity.
  - apply reachable_dealt0.
  - vm_compute. reflexivity.
  - vm_compute. reflexivity.
  - vm_compute. reflexivity.
Defined.
